(** * Expression manager plugin: weights, chat resolution, command patterns
      and the LLM-reply pipeline of [plugin.py]

    The development embeds the command classes of [plugin.py] as Rocq
    functions and proves the properties the specification states about them.

    Modelling conventions.
    - A Python [str] is a list of Unicode code points ([text]); [lit] turns an
      ASCII literal into such a list.
    - A weight ([Expression.count], a Python float) is an exact rational of
      [Q]; every decision the code takes on a weight (the comparisons of
      [min], [max] and [<= 0]) is taken on the same rational here, and the
      decimal literals 0.01, 0.1, 0.5 and 5.0 are themselves.
    - Integers are mathematical integers.
    - The [Expression] table is the list of its rows in row-id order;
      [Expression.get] returns the first row that satisfies the query.
    - Everything the plugin calls but does not define (the Unicode tables
      behind [\d] and [str.isdigit], the host's chat-reference normaliser,
      [json.loads], [repair_json], the language model) is a field of [Host].
    - The text of a reply to the user is kept symbolic ([Msg]).
    - One clock reading, [now_ts], serves a whole command.
    - The list command only reads the table and is a function of its rows
      ([list_execute]); of the review command, which draws an image, only
      the pattern is modelled. *)

From Stdlib Require Import List NArith ZArith QArith Qminmax Lia Lqa String Ascii Bool.
From Stdlib Require Import Sorting.Sorted Sorting.Permutation.
From Stdlib Require DecimalN.
Import ListNotations.

Set Implicit Arguments.
Set Warnings "-register-all".

(** ** Text *)

Definition text := list N.

Definition lit (s : string) : text :=
  map N_of_ascii (list_ascii_of_string s).

Definition text_eqb (a b : text) : bool :=
  if list_eq_dec N.eq_dec a b then true else false.

(** Truth value of a Python string: the empty string is false. *)
Definition truthy_text (s : text) : bool :=
  match s with [] => false | _ :: _ => true end.

(** [str.isspace] of one code point, which is also [\s] of a [str]
    pattern. *)
Definition is_space (c : N) : bool :=
  ((9 <=? c) && (c <=? 13) || (28 <=? c) && (c <=? 32)
   || (c =? 133) || (c =? 160) || (c =? 5760)
   || (8192 <=? c) && (c <=? 8202)
   || (c =? 8232) || (c =? 8233) || (c =? 8239) || (c =? 8287)
   || (c =? 12288))%N.

Definition is_ascii_digit (c : N) : bool := ((48 <=? c) && (c <=? 57))%N.

Fixpoint lstrip_by (p : N -> bool) (s : text) : text :=
  match s with
  | [] => []
  | c :: s' => if p c then lstrip_by p s' else s
  end.

Definition rstrip_by (p : N -> bool) (s : text) : text :=
  rev (lstrip_by p (rev s)).

Definition strip_by (p : N -> bool) (s : text) : text :=
  rstrip_by p (lstrip_by p s).

(** [s.strip()] *)
Definition strip (s : text) : text := strip_by is_space s.

(** [s.strip(chars)] *)
Definition strip_chars (chars : text) (s : text) : text :=
  strip_by (fun c => existsb (N.eqb c) chars) s.

(** [s.replace(c, '')] for a one-character [c] *)
Definition remove_char (c : N) (s : text) : text :=
  filter (fun x => negb (x =? c)%N) s.

(** [s.split(sep)] for a one-character [sep] *)
Fixpoint split (sep : N) (s : text) : list text :=
  match s with
  | [] => [[]]
  | c :: s' =>
      if (c =? sep)%N then [] :: split sep s'
      else match split sep s' with
           | [] => [[c]]
           | h :: t => (c :: h) :: t
           end
  end.

(** [s.find(c)] and [s.rfind(c)]; [None] is Python's -1. *)
Fixpoint find_char (c : N) (s : text) : option nat :=
  match s with
  | [] => None
  | x :: s' =>
      if (x =? c)%N then Some O
      else match find_char c s' with
           | Some i => Some (S i)
           | None => None
           end
  end.

Fixpoint rfind_char (c : N) (s : text) : option nat :=
  match s with
  | [] => None
  | x :: s' =>
      match rfind_char c s' with
      | Some i => Some (S i)
      | None => if (x =? c)%N then Some O else None
      end
  end.

(** [s[i:j]] for [0 <= i] and [0 <= j] *)
Definition slice (i j : nat) (s : text) : text :=
  firstn (j - i) (skipn i s).

(** ** Regular expressions of the [re] module

    A backtracking matcher in continuation-passing style.  Alternatives are
    tried left to right, a greedy repetition tries one more iteration before
    it tries to stop and a lazy one the other way round, so the first match
    found is the one [re.match] reports, with its groups. *)

Definition caps := list (nat * text).

Fixpoint group (n : nat) (c : caps) : option text :=
  match c with
  | [] => None
  | (m, s) :: c' => if Nat.eqb m n then Some s else group n c'
  end.

Inductive regex : Type :=
| Eps : regex
| Chr : (N -> bool) -> regex
| Seq : regex -> regex -> regex
| Alt : regex -> regex -> regex
| Star : bool -> regex -> regex          (* [true]: greedy, [false]: lazy *)
| Group : nat -> regex -> regex
| Eol : regex.                           (* [$] without MULTILINE *)

Definition kont := text -> caps -> option caps.

Definition or_else (a : option caps) (b : unit -> option caps) : option caps :=
  match a with
  | Some c => Some c
  | None => b tt
  end.

Fixpoint star_loop (body : text -> caps -> kont -> option caps)
    (greedy : bool) (k : kont) (fuel : nat) (s : text) (c : caps)
    : option caps :=
  let more (_ : unit) :=
    match fuel with
    | O => None
    | S fuel' =>
        body s c (fun s' c' =>
          if (List.length s' <? List.length s)%nat
          then star_loop body greedy k fuel' s' c'
          else None)
    end in
  if greedy then or_else (more tt) (fun _ => k s c)
  else or_else (k s c) more.

Fixpoint rmatch (r : regex) (s : text) (c : caps) (k : kont) : option caps :=
  match r with
  | Eps => k s c
  | Chr p =>
      match s with
      | [] => None
      | x :: s' => if p x then k s' c else None
      end
  | Seq r1 r2 => rmatch r1 s c (fun s' c' => rmatch r2 s' c' k)
  | Alt r1 r2 => or_else (rmatch r1 s c k) (fun _ => rmatch r2 s c k)
  | Star greedy r1 => star_loop (rmatch r1) greedy k (List.length s) s c
  | Group n r1 =>
      rmatch r1 s c (fun s' c' =>
        k s' ((n, firstn (List.length s - List.length s') s) :: c'))
  | Eol =>
      match s with
      | [] => k s c
      | [10%N] => k s c
      | _ => None
      end
  end.

(** [re.match(r, s)]: anchored at the start, free at the end. *)
Definition re_match (r : regex) (s : text) : option caps :=
  rmatch r s [] (fun _ c => Some c).

(** [re.fullmatch(r, s)] *)
Definition re_fullmatch (r : regex) (s : text) : option caps :=
  rmatch r s [] (fun s' c => match s' with [] => Some c | _ => None end).

Definition Plus (greedy : bool) (r : regex) : regex := Seq r (Star greedy r).
Definition Opt (r : regex) : regex := Alt r Eps.

Fixpoint Rep (n : nat) (r : regex) : regex :=
  match n with
  | O => Eps
  | S n' => Seq r (Rep n' r)
  end.

Fixpoint Seqs (rs : list regex) : regex :=
  match rs with
  | [] => Eps
  | [r] => r
  | r :: rs' => Seq r (Seqs rs')
  end.

(** A literal character under [re.IGNORECASE]: an ASCII letter matches both
    of its cases and the code points whose case folding is that letter. *)
Definition fold_extra (l : N) : list N :=
  (if l =? 105 then [304; 305]          (* i: dotted capital I, dotless i *)
   else if l =? 115 then [383]          (* s: long s *)
   else if l =? 107 then [8490]         (* k: Kelvin sign *)
   else [])%N.

Definition ci_char (l : N) (c : N) : bool :=
  ((c =? l)
   || (97 <=? l) && (l <=? 122) && ((c =? l - 32) || existsb (N.eqb c) (fold_extra l))
   || (65 <=? l) && (l <=? 90) && ((c =? l + 32) || existsb (N.eqb c) (fold_extra (l + 32))))%N.

Definition Word (s : text) : regex := Seqs (map (fun l => Chr (ci_char l)) s).

Definition any_char (c : N) : bool := negb (c =? 10)%N.     (* [.] *)
Definition not_space (c : N) : bool := negb (is_space c).   (* [\S] *)
Definition is_sign (c : N) : bool := ((c =? 43) || (c =? 45))%N.  (* [[+-]] *)
Definition is_dot (c : N) : bool := (c =? 46)%N.            (* [\.] *)
Definition is_hex_lower (c : N) : bool :=                   (* [[a-f0-9]] *)
  ((97 <=? c) && (c <=? 102) || (48 <=? c) && (c <=? 57))%N.

(** ** JSON values, as [json.loads] returns them

    An object is the association list of its members; [dict_get] reads the
    first binding of a key. *)

Inductive json : Type :=
| JNull : json
| JBool : bool -> json
| JInt : Z -> json
| JFloat : Q -> json
| JStr : text -> json
| JArr : list json -> json
| JObj : list (text * json) -> json.

Fixpoint dict_get (key : text) (kv : list (text * json)) : option json :=
  match kv with
  | [] => None
  | (k, v) :: kv' => if text_eqb k key then Some v else dict_get key kv'
  end.

(** Truth value of a Python object that came out of [json.loads]. *)
Definition truthy (v : json) : bool :=
  match v with
  | JNull => false
  | JBool b => b
  | JInt z => negb (z =? 0)%Z
  | JFloat q => negb (Qeq_bool q 0)
  | JStr s => truthy_text s
  | JArr l => match l with [] => false | _ => true end
  | JObj kv => match kv with [] => false | _ => true end
  end.

(** ** The records the plugin reads and writes *)

Record Expression : Type := mkExpression {
  id : Z;
  chat_id : text;
  situation : text;
  style : text;
  count : Q;
  last_active_time : Q;
  create_date : option Q;
  type : text
}.

(** One entry of [expressions_details]. *)
Record Detail : Type := mkDetail {
  d_id : Z;
  d_situation : text;
  d_style : text;
  d_count : Q
}.

(** A chat message as the message API and the [Messages] table give it;
    a missing or [None] field is [None]. *)
Record Message : Type := mkMessage {
  user_id : text;
  processed_plain_text : option text;
  selected_expressions : option text;
  time : Q
}.

(** What a prompt is built from; its wording is not modelled. *)
Inductive Prompt : Type :=
| AnalysisPrompt : text -> list Detail -> Prompt
| LearnAnalysisPrompt : text -> list Detail -> Prompt
| LearningPrompt : text -> Message -> list Detail -> text -> Prompt.

(** ** The collaborators of the plugin *)

Record Host : Type := mkHost {
  (** Unicode beyond ASCII: the value of a decimal digit (category Nd), and
      the code points that [str.isdigit] accepts without their being
      decimal digits (superscripts and the like). *)
  uni_decimal : N -> option N;
  uni_other_digit : N -> bool;
  (** [ExpressionSelector._parse_stream_config_to_chat_id]; [None] stands
      for a [None] result and for an exception alike. *)
  selector_parse : text -> option text;
  (** [json.loads] and [repair_json]; [None] is an exception. *)
  json_loads : text -> option json;
  repair_json : text -> option text;
  (** [str(v)] of a value that is not a string. *)
  py_str : json -> text;
  (** [global_config.bot.qq_account], as a string. *)
  bot_id : text;
  (** [message_api.get_recent_messages] of a chat, oldest first. *)
  get_recent_messages : text -> list Message;
  (** The readable chat context built around a message of a chat. *)
  context_text : text -> Message -> Q -> text;
  (** [Messages.get(Messages.message_id == ...)] *)
  messages_get : text -> option Message;
  (** [llm_api.get_available_models()], in key order, and
      [llm_api.generate_with_model]: success flag, response, model name. *)
  available_models : list (text * nat);
  generate_with_model : Prompt -> nat -> text -> bool * text * text
}.

(** ** Digits and numbers *)

Section Numbers.

Variable h : Host.

(** The value of a decimal digit: what [\d] matches and [int] reads. *)
Definition decimal_value (c : N) : option N :=
  if is_ascii_digit c then Some (c - 48)%N
  else if (c <? 128)%N then None
  else uni_decimal h c.

Definition is_decimal (c : N) : bool :=
  match decimal_value c with Some _ => true | None => false end.

(** [c.isdigit()] *)
Definition is_digit_char (c : N) : bool :=
  is_decimal c || ((128 <=? c)%N && uni_other_digit h c).

(** [s.isdigit()] *)
Definition isdigit (s : text) : bool :=
  truthy_text s && forallb is_digit_char s.

(** [int(s)] of a string of digits; [None] is [ValueError], raised for a
    digit that is not a decimal digit. *)
Fixpoint int_from (acc : Z) (s : text) : option Z :=
  match s with
  | [] => Some acc
  | c :: s' =>
      match decimal_value c with
      | Some v => int_from (acc * 10 + Z.of_N v) s'
      | None => None
      end
  end.

Definition py_int (s : text) : option Z :=
  match s with
  | [] => None
  | _ => int_from 0 s
  end.

End Numbers.

(** [float(s)] on the numerals the command patterns let through: an optional
    sign, ASCII digits, an optional fraction of ASCII digits.  [None] is the
    [except] branch. *)
Fixpoint digits_from (acc : Z) (s : text) : option Z :=
  match s with
  | [] => Some acc
  | c :: s' =>
      if is_ascii_digit c then digits_from (acc * 10 + Z.of_N (c - 48)) s'
      else None
  end.

Definition unsigned_float (s : text) : option Q :=
  match split 46 s with
  | [i] =>
      match i, digits_from 0 i with
      | _ :: _, Some n => Some (inject_Z n)
      | _, _ => None
      end
  | [i; f] =>
      match i, f, digits_from 0 (i ++ f) with
      | _ :: _, _ :: _, Some n => Some (n # Pos.pow 10 (Pos.of_nat (List.length f)))
      | _, _, _ => None
      end
  | _ => None
  end.

Definition py_float (s : text) : option Q :=
  match s with
  | 43%N :: s' => unsigned_float s'
  | 45%N :: s' => option_map Qopp (unsigned_float s')
  | _ => unsigned_float s
  end.

(** [str(z)] of an integer. *)
Fixpoint uint_digits (d : Decimal.uint) : text :=
  match d with
  | Decimal.Nil => []
  | Decimal.D0 d' => 48%N :: uint_digits d'
  | Decimal.D1 d' => 49%N :: uint_digits d'
  | Decimal.D2 d' => 50%N :: uint_digits d'
  | Decimal.D3 d' => 51%N :: uint_digits d'
  | Decimal.D4 d' => 52%N :: uint_digits d'
  | Decimal.D5 d' => 53%N :: uint_digits d'
  | Decimal.D6 d' => 54%N :: uint_digits d'
  | Decimal.D7 d' => 55%N :: uint_digits d'
  | Decimal.D8 d' => 56%N :: uint_digits d'
  | Decimal.D9 d' => 57%N :: uint_digits d'
  end.

Definition str_of_int (z : Z) : text :=
  ((if z <? 0 then [45%N] else []) ++ uint_digits (N.to_uint (Z.abs_N z)))%Z.

(** ** The command patterns *)

Definition ws : regex := Plus true (Chr is_space).              (* [\s+] *)

Definition keyword : regex :=                        (* [(?:expr|express|表达)] *)
  Alt (Word (lit "expr")) (Alt (Word (lit "express")) (Word [34920; 36798]%N)).

Definition unsigned_number : regex :=                (* [[0-9]+(?:\.[0-9]+)?] *)
  Seq (Plus true (Chr is_ascii_digit))
      (Opt (Seq (Chr is_dot) (Plus true (Chr is_ascii_digit)))).

Definition in_chat (n : nat) : regex :=              (* [(?:\s+in\s+(\S+))?] *)
  Opt (Seqs [ws; Word (lit "in"); ws; Group n (Plus true (Chr not_space))]).

(** [AddExpressionCommand.command_pattern] *)
Definition add_pattern : regex :=
  Seqs [Word (lit "/"); keyword; ws; Word (lit "add"); ws;
        Group 1 (Plus false (Chr any_char)); ws;
        Group 2 (Plus false (Chr any_char));
        in_chat 3;
        Opt (Seqs [ws; Word (lit "w="); Group 4 unsigned_number]);
        Eol].

(** [DeleteExpressionCommand.command_pattern] *)
Definition del_pattern (h : Host) : regex :=
  Seqs [Word (lit "/"); keyword; ws; Word (lit "del"); ws;
        Group 1 (Plus true (Chr (is_decimal h)));
        in_chat 2;
        Eol].

(** [ModifyExpressionWeightCommand.command_pattern] *)
Definition modify_pattern (h : Host) : regex :=
  Seqs [Word (lit "/"); keyword; ws;
        Group 1 (Plus true (Chr (is_decimal h))); ws;
        Group 2 (Seq (Chr is_sign) unsigned_number);
        in_chat 3;
        Eol].

(** [LearnExpressionCommand.command_pattern] *)
Definition learn_pattern : regex :=
  Seqs [Word (lit "/"); keyword; ws; Word (lit "learn");
        Opt (Seq ws (Group 1 (Plus true (Chr any_char))));
        Eol].

(** [AnalyzeMessageExpressionCommand.command_pattern] *)
Definition msg_pattern : regex :=
  Seqs [Word (lit "/"); keyword; ws; Word (lit "msg"); ws;
        Group 1 (Plus true (Chr any_char));
        Eol].

(** The pattern of the 32-character md5 test, [[a-f0-9]{32}]. *)
Definition md5_pattern : regex := Rep 32 (Chr is_hex_lower).

(** ** Replies to the user *)

(** One line of [self._update_info]. *)
Record UpdateInfo : Type := mkUpdateInfo {
  u_id : json;
  u_old_situation : text;
  u_new_situation : json;
  u_old_style : text;
  u_reason : json;
  u_weight : Q
}.

(** The report of [/expr msg]: for a used expression its id, the candidate
    it names if any, and the reason; for an unused one its id and reason. *)
Record Report : Type := mkReport {
  r_used : list (option json * option Detail * json);
  r_unused : list (option json * json);
  r_summary : json
}.

Inductive Msg : Type :=
| UsageAdd | UsageDel | UsageModify | UsageLearn | UsageMsg
| NoTargetChat                              (* 找不到目标聊天ID *)
| DuplicateBoosted (w : Q)                  (* 已存在相同表达，提升权重至 w *)
| Added                                     (* 添加成功 *)
| Deleted (id_str : text)                   (* 已删除 id=... *)
| DeleteNotFound (id_str : text)            (* 未找到ID为 ... 的表达方式 *)
| DeltaNotNumber                            (* 权重变化值必须是数字 *)
| ModifyNotFound                            (* 未找到该ID的表达方式（或不属于目标chat） *)
| AutoDeleted (w : Q)                       (* 权重降至 w，已自动删除该表达方式 *)
| WeightUpdated (id_str : text) (w : Q)     (* 已更新 id=... 的权重为 w *)
| NoCurrentChat                             (* 无法获取当前聊天ID *)
| NoBotMessage                              (* 未找到麦麦最近发送的消息 *)
| BotMessageEmpty                           (* 麦麦最近的消息内容为空 *)
| NoLinkedExpressions (content : text)      (* 麦麦最近的消息没有关联的表达方式 *)
| NoModel                                   (* 没有可用的LLM模型 *)
| AnalysisFailed (response : text)          (* 表达方式分析失败: ... *)
| NothingUsed (content : text)              (* LLM分析结果显示没有表达方式被使用 *)
| GenerationFailed (response : text)        (* LLM生成失败: ... *)
| Learned (model : text) (updated : nat) (guidance : text)
          (details : list UpdateInfo)       (* 学习完成！... 成功更新了 n 个表达方式 *)
| NothingToUpdate (model : text) (guidance : text) (content : text)
          (linked : list Detail)            (* 学习完成！... 没有找到需要更新的表达方式 *)
| MessageNotFound (message_id : text)       (* 未找到消息ID为 ... 的消息 *)
| MessageEmpty (message_id : text)          (* 消息ID ... 的内容为空 *)
| MessageNoExpressions (message_id content : text)
                                            (* 消息ID ... 没有关联的表达方式 *)
| LLMAnalysisFailed (response : text)       (* LLM分析失败: ... *)
| Analysis (message_id content : text) (report : Report)
| RepairedAnalysis (message_id content : text)
          (used unused : list json) (summary : json)
                                            (* JSON格式已自动修复 ... *)
| JsonParseFailed (raw : text) (cut : bool) (* JSON解析失败 ... 原始响应 ... *)
| AnalyzeError                              (* 分析消息表达方式时出错: ... *)
| Unhandled.                                (* an exception leaves [execute] *)

(** The triple every [execute] returns. *)
Definition Result : Type := (bool * Msg * bool)%type.

Definition succeeded (r : Result) : bool := fst (fst r).
Definition message (r : Result) : Msg := snd (fst r).

(** ** The store and the command monad *)

Record World : Type := mkWorld {
  db : list Expression;                 (* the [Expression] table *)
  outbox : list (Msg * bool)            (* texts sent, with [storage_message] *)
}.

Definition Cmd (A : Type) : Type := World -> A * World.

Definition ret {A : Type} (a : A) : Cmd A := fun w => (a, w).

Definition bind {A B : Type} (m : Cmd A) (f : A -> Cmd B) : Cmd B :=
  fun w => let (a, w') := m w in f a w'.

Declare Scope cmd_scope.
Delimit Scope cmd_scope with cmd.
Notation "x <- m ;; k" := (bind m (fun x => k))
  (at level 61, m at next level, right associativity) : cmd_scope.
Notation "m ;;; k" := (bind m (fun _ => k))
  (at level 61, right associativity) : cmd_scope.
Open Scope cmd_scope.

Definition read_db : Cmd (list Expression) := fun w => (db w, w).

Definition write_db (f : list Expression -> list Expression) : Cmd unit :=
  fun w => (tt, mkWorld (f (db w)) (outbox w)).

Definition send_text (m : Msg) (storage_message : bool) : Cmd unit :=
  fun w => (tt, mkWorld (db w) (outbox w ++ [(m, storage_message)])).

(** [await self.send_text(msg); return ok, msg, True] *)
Definition reply (ok : bool) (m : Msg) (storage_message : bool) : Cmd Result :=
  send_text m storage_message ;;; ret (ok, m, true).

(** The row id the table gives a new row. *)
Definition next_id (rows : list Expression) : Z :=
  fold_right (fun e acc => Z.max (id e + 1) acc) 1%Z rows.

(** [Expression.get(query)] and [Expression.select().where(query).get()];
    [None] is [DoesNotExist]. *)
Definition get (query : Expression -> bool) : Cmd (option Expression) :=
  rows <- read_db ;; ret (find query rows).

(** [Expression.create(...)] *)
Definition create (situation0 style0 : text) (count0 last_active_time0 : Q)
    (chat_id0 type0 : text) (create_date0 : Q) : Cmd unit :=
  write_db (fun rows =>
    rows ++ [mkExpression (next_id rows) chat_id0 situation0 style0 count0
                          last_active_time0 (Some create_date0) type0]).

(** [obj.save()]: the row of that id takes the fields of [obj]. *)
Definition save (obj : Expression) : Cmd unit :=
  write_db (map (fun e => if (id e =? id obj)%Z then obj else e)).

(** [obj.delete_instance()] *)
Definition delete_instance (obj : Expression) : Cmd unit :=
  write_db (filter (fun e => negb (id e =? id obj)%Z)).

Definition with_count (e : Expression) (c : Q) : Expression :=
  mkExpression (id e) (chat_id e) (situation e) (style e) c
               (last_active_time e) (create_date e) (type e).

Definition with_situation (e : Expression) (s : text) : Expression :=
  mkExpression (id e) (chat_id e) s (style e) (count e)
               (last_active_time e) (create_date e) (type e).

Definition with_last_active_time (e : Expression) (t : Q) : Expression :=
  mkExpression (id e) (chat_id e) (situation e) (style e) (count e)
               t (create_date e) (type e).

(** [if obj.create_date is None: obj.create_date = obj.last_active_time] *)
Definition backfill_create_date (e : Expression) : Expression :=
  match create_date e with
  | Some _ => e
  | None =>
      mkExpression (id e) (chat_id e) (situation e) (style e) (count e)
                   (last_active_time e) (Some (last_active_time e)) (type e)
  end.

(** [x or ""] of an optional string *)
Definition or_empty (x : option text) : text :=
  match x with Some s => s | None => [] end.

(** ** Resolving the target chat *)

(** [_parse_stream_config_to_chat_id] *)
Definition _parse_stream_config_to_chat_id (h : Host) (stream_config_str : text)
    : option text :=
  if negb (truthy_text stream_config_str) then None
  else
    let candidate := strip stream_config_str in
    match re_fullmatch md5_pattern candidate with
    | Some _ => Some candidate
    | None => selector_parse h candidate
    end.

(** The block the add, del and weight commands share: the chat the [in]
    clause names or, when that gives [None], the chat of the message. *)
Definition target_chat (h : Host) (chat_spec : text) (stream_id : option text)
    : option text :=
  match _parse_stream_config_to_chat_id h chat_spec with
  | Some chat_id0 => Some chat_id0
  | None =>
      match stream_id with
      | Some sid => if truthy_text sid then Some sid else None
      | None => None
      end
  end.

(** ** The add, del and weight commands *)

Definition same_triple (chat_id0 situation0 style0 : text) (e : Expression)
    : bool :=
  text_eqb (chat_id e) chat_id0 && text_eqb (situation e) situation0
  && text_eqb (style e) style0.

(** [AddExpressionCommand.execute]; [exists()] and [get()] run the same
    query on the same table, so one lookup stands for both. *)
Definition add_execute (h : Host) (raw_message : option text)
    (stream_id : option text) (now_ts : Q) : Cmd Result :=
  match re_match add_pattern (or_empty raw_message) with
  | None => reply false UsageAdd true
  | Some m =>
      let situation0 := strip (or_empty (group 1 m)) in
      let style0 := strip (or_empty (group 2 m)) in
      let chat_spec := or_empty (group 3 m) in
      let weight_str :=
        match group 4 m with Some s => s | None => lit "1.0" end in
      match target_chat h chat_spec stream_id with
      | None => reply false NoTargetChat true
      | Some chat_id0 =>
          let initial_count :=
            match py_float weight_str with
            | Some f => Qmax 0.01 (Qmin 5 f)
            | None => 1
            end in
          found <- get (same_triple chat_id0 situation0 style0) ;;
          match found with
          | Some obj =>
              let obj1 := with_count obj (Qmin 5 (count obj + 0.1)) in
              let obj2 := backfill_create_date (with_last_active_time obj1 now_ts) in
              save obj2 ;;;
              reply true (DuplicateBoosted (count obj2)) true
          | None =>
              create situation0 style0 initial_count now_ts chat_id0
                     (lit "expression") now_ts ;;;
              reply true Added true
          end
      end
  end.

(** [DeleteExpressionCommand.execute] *)
Definition del_execute (h : Host) (raw_message : option text)
    (stream_id : option text) : Cmd Result :=
  match re_match (del_pattern h) (or_empty raw_message) with
  | None => reply false UsageDel true
  | Some m =>
      let id_str := or_empty (group 1 m) in
      let chat_spec := or_empty (group 2 m) in
      match target_chat h chat_spec stream_id with
      | None => reply false NoTargetChat true
      | Some _ =>
          match py_int h id_str with
          | None => ret (false, Unhandled, true)
          | Some n =>
              found <- get (fun e => (id e =? n)%Z) ;;
              match found with
              | Some expr =>
                  delete_instance expr ;;;
                  reply true (Deleted id_str) true
              | None => reply false (DeleteNotFound id_str) true
              end
          end
      end
  end.

(** [ModifyExpressionWeightCommand.execute] *)
Definition modify_execute (h : Host) (raw_message : option text)
    (stream_id : option text) (now_ts : Q) : Cmd Result :=
  match re_match (modify_pattern h) (or_empty raw_message) with
  | None => reply false UsageModify false
  | Some m =>
      let id_str := or_empty (group 1 m) in
      let weight_change_str := or_empty (group 2 m) in
      let chat_spec := or_empty (group 3 m) in
      match target_chat h chat_spec stream_id with
      | None => reply false NoTargetChat false
      | Some chat_id0 =>
          match py_float weight_change_str with
          | None => reply false DeltaNotNumber false
          | Some weight_change =>
              match py_int h id_str with
              | None => ret (false, Unhandled, true)
              | Some n =>
                  found <- get (fun e => (id e =? n)%Z
                                         && text_eqb (chat_id e) chat_id0) ;;
                  match found with
                  | None => reply false ModifyNotFound false
                  | Some expr =>
                      let new_weight := count expr + weight_change in
                      if Qle_bool new_weight 0 then
                        delete_instance expr ;;;
                        reply true (AutoDeleted new_weight) true
                      else
                        let new_weight' := Qmax 0.01 (Qmin 5 new_weight) in
                        let expr1 := with_count expr new_weight' in
                        let expr2 :=
                          backfill_create_date (with_last_active_time expr1 now_ts) in
                        save expr2 ;;;
                        reply true (WeightUpdated id_str new_weight') true
                  end
              end
          end
      end
  end.

(** ** Reading the ids of [selected_expressions] *)

(** The loop over [clean_str.split(',')].  [int] raising [ValueError] leaves
    the loop; the [except] clause keeps what was appended before. *)
Fixpoint collect_ids (h : Host) (parts : list text) (expression_ids : list Z)
    : list Z :=
  match parts with
  | [] => expression_ids
  | part :: rest =>
      if isdigit h (strip part) then
        match py_int h (strip part) with
        | Some n => collect_ids h rest (expression_ids ++ [n])
        | None => expression_ids
        end
      else collect_ids h rest expression_ids
  end.

(** The block of [LearnExpressionCommand.execute] and
    [AnalyzeMessageExpressionCommand.execute] that parses the field. *)
Definition parse_selected_expressions (h : Host)
    (selected_expressions_str : text) : list Z :=
  if truthy_text selected_expressions_str then
    let clean_str :=
      remove_char 32 (strip_chars (lit "[]") selected_expressions_str) in
    collect_ids h (split 44 clean_str) []
  else [].

(** The candidates of a message: the row of each id, or the placeholder of
    an id the table does not have. *)
Definition detail_of (rows : list Expression) (expr_id : Z) : Detail :=
  match find (fun e => (id e =? expr_id)%Z) rows with
  | Some expr => mkDetail expr_id (situation expr) (style expr) (count expr)
  | None =>
      mkDetail expr_id [26410; 30693]%N
               [34920; 36798; 26041; 24335; 19981; 23384; 22312]%N 0
  end.

(** The model the commands call: [utils], else [chat], else the first. *)
Fixpoint model_named (name : text) (models : list (text * nat)) : option nat :=
  match models with
  | [] => None
  | (k, v) :: models' => if text_eqb k name then Some v else model_named name models'
  end.

Definition pick_model (models : list (text * nat)) : option nat :=
  match models with
  | [] => None
  | (_, first) :: _ =>
      match model_named (lit "utils") models with
      | Some m => Some m
      | None =>
          match model_named (lit "chat") models with
          | Some m => Some m
          | None => Some first
          end
      end
  end.

(** ** Decoding a reply of the model (learning flow) *)

(** The span from the first [{] to the last [}] of the stripped reply. *)
Definition json_span (response : text) : option text :=
  let cleaned_response := strip response in
  match find_char 123 cleaned_response, rfind_char 125 cleaned_response with
  | Some start_idx, Some end_idx =>
      if (end_idx <=? start_idx)%nat then None
      else Some (slice start_idx (end_idx + 1) cleaned_response)
  | _, _ => None
  end.

(** [json.loads(repair_json(json_text))], else [json.loads(json_text)]. *)
Definition loads_with_repair (h : Host) (json_text : text) : option json :=
  match match repair_json h json_text with
        | Some fixed_json => json_loads h fixed_json
        | None => None
        end with
  | Some data => Some data
  | None => json_loads h json_text
  end.

(** What [str(expr_id).isdigit()] followed by [int(expr_id)] makes of an id.
    [str] of a boolean, a float, [None], a list or a dict is never made of
    digits alone. *)
Inductive IdReading : Type :=
| NotDigits : IdReading
| Raises : IdReading
| IsId : Z -> IdReading.

Definition read_id (h : Host) (expr_id : json) : IdReading :=
  match expr_id with
  | JInt z => if isdigit h (str_of_int z) then IsId z else NotDigits
  | JStr s =>
      if isdigit h s then
        match py_int h s with
        | Some z => IsId z
        | None => Raises
        end
      else NotDigits
  | _ => NotDigits
  end.

(** The loop of [_parse_analysis_response]; [None] is an exception, which
    the enclosing [except] turns into the empty list. *)
Fixpoint used_ids_of (h : Host) (entries : list json) (used_ids : list Z)
    : option (list Z) :=
  match entries with
  | [] => Some used_ids
  | JObj expr_data :: rest =>
      match dict_get (lit "id") expr_data with
      | Some expr_id =>
          if truthy expr_id then
            match read_id h expr_id with
            | IsId z => used_ids_of h rest (used_ids ++ [z])
            | NotDigits => used_ids_of h rest used_ids
            | Raises => None
            end
          else used_ids_of h rest used_ids
      | None => used_ids_of h rest used_ids
      end
  | _ :: _ => None
  end.

(** [LearnExpressionCommand._parse_analysis_response].  Data that is not a
    dict either lacks the key or cannot be indexed by it; both give []. *)
Definition _parse_analysis_response (h : Host) (response : text) : list Z :=
  match json_span response with
  | None => []
  | Some json_text =>
      match loads_with_repair h json_text with
      | Some (JObj data) =>
          match dict_get (lit "used_expressions") data with
          | Some (JArr entries) =>
              match used_ids_of h entries [] with
              | Some used_ids => used_ids
              | None => []
              end
          | _ => []
          end
      | _ => []
      end
  end.

(** ** Applying the learning reply *)

(** What one entry of ["expressions"] does. *)
Inductive EntryOutcome : Type :=
| Skipped : EntryOutcome                        (* [continue] *)
| Escaped : EntryOutcome                        (* the handler itself raises *)
| Applied : Expression -> UpdateInfo -> EntryOutcome.

Definition json_text_or_str (h : Host) (v : json) : text :=
  match v with
  | JStr s => s
  | _ => py_str h v
  end.

(** [expr_data["new_situation"] != old_situation] *)
Definition differs_from (v : json) (old_situation : text) : bool :=
  match v with
  | JStr s => negb (text_eqb s old_situation)
  | _ => true
  end.

Definition default_reason : json := JStr [26080; 21407; 22240]%N.  (* 无原因 *)

(** The body of the loop of [_parse_and_update_expressions_v2]. *)
Definition update_entry (h : Host) (rows : list Expression) (now_ts : Q)
    (entry : json) : EntryOutcome :=
  match entry with
  | JObj expr_data =>
      match dict_get (lit "id") expr_data with
      | None => Skipped
      | Some expr_id =>
          if negb (truthy expr_id) then Skipped
          else
            match read_id h expr_id with
            | NotDigits => Skipped
            | Raises => Skipped
            | IsId z =>
                match find (fun e => (id e =? z)%Z) rows with
                | None => Skipped
                | Some expr =>
                    let old_situation := situation expr in
                    let old_style := style expr in
                    let new_situation :=
                      match dict_get (lit "new_situation") expr_data with
                      | Some v =>
                          if truthy v && differs_from v old_situation
                          then Some v else None
                      | None => None
                      end in
                    let expr1 :=
                      match new_situation with
                      | Some v => with_situation expr (json_text_or_str h v)
                      | None => expr
                      end in
                    let weight_change : Q :=
                      match new_situation with Some _ => 0.5 | None => 0 end in
                    let expr2 :=
                      if negb (Qle_bool weight_change 0) then
                        with_count expr1
                          (Qmax 0.01 (Qmin 5 (count expr1 + weight_change)))
                      else expr1 in
                    let expr3 := with_last_active_time expr2 now_ts in
                    Applied expr3
                      (mkUpdateInfo expr_id old_situation
                         (match new_situation with
                          | Some v => v
                          | None => JStr old_situation
                          end)
                         old_style
                         (match dict_get (lit "reason") expr_data with
                          | Some r => r
                          | None => default_reason
                          end)
                         (count expr3))
                end
            end
      end
  | _ => Escaped
  end.

(** The loop: every applied entry is saved and counted.  An entry that is
    not a dict makes the function return 0 with what was saved so far. *)
Fixpoint update_loop (h : Host) (now_ts : Q) (entries : list json)
    (updated_count : nat) (infos : list UpdateInfo)
    : Cmd (nat * list UpdateInfo) :=
  match entries with
  | [] => ret (updated_count, infos)
  | entry :: rest =>
      rows <- read_db ;;
      match update_entry h rows now_ts entry with
      | Skipped => update_loop h now_ts rest updated_count infos
      | Escaped => ret (O, infos)
      | Applied expr info =>
          save expr ;;;
          update_loop h now_ts rest (S updated_count) (infos ++ [info])
      end
  end.

(** [LearnExpressionCommand._parse_and_update_expressions_v2]: the count it
    returns and the lines it leaves in [self._update_info]. *)
Definition _parse_and_update_expressions_v2 (h : Host) (llm_response : text)
    (now_ts : Q) : Cmd (nat * list UpdateInfo) :=
  match json_span llm_response with
  | None => ret (O, [])
  | Some json_text =>
      match loads_with_repair h json_text with
      | None => ret (O, [])
      | Some (JObj data) =>
          match dict_get (lit "expressions") data with
          | Some (JArr entries) => update_loop h now_ts entries O []
          | _ => ret (O, [])
          end
      | Some _ => ret (O, [])
      end
  end.

(** The end of [LearnExpressionCommand.execute]: the learning reply is
    applied and the outcome reported. *)
Definition apply_learning (h : Host) (model_name guidance message_content : text)
    (actual_used_expressions : list Detail) (response : text) (now_ts : Q)
    : Cmd Result :=
  res <- _parse_and_update_expressions_v2 h response now_ts ;;
  let '(updated_count, infos) := res in
  match updated_count with
  | O =>
      reply true
        (NothingToUpdate model_name guidance message_content
                         actual_used_expressions)
        false
  | S _ => reply true (Learned model_name updated_count guidance infos) false
  end.

(** [LearnExpressionCommand.execute] *)
Definition learn_execute (h : Host) (raw_message : option text)
    (stream_id : option text) (now_ts : Q) : Cmd Result :=
  match re_match learn_pattern (or_empty raw_message) with
  | None => reply false UsageLearn false
  | Some m =>
      let guidance :=
        match group 1 m with Some g => strip g | None => [] end in
      let chat_id0 := or_empty stream_id in
      if negb (truthy_text chat_id0) then reply false NoCurrentChat false
      else
        match find (fun msg => text_eqb (user_id msg) (bot_id h))
                   (rev (get_recent_messages h chat_id0)) with
        | None => reply false NoBotMessage false
        | Some bot_message =>
            let message_content := or_empty (processed_plain_text bot_message) in
            let selected_expressions_str :=
              or_empty (selected_expressions bot_message) in
            if negb (truthy_text message_content)
            then reply false BotMessageEmpty false
            else
              match parse_selected_expressions h selected_expressions_str with
              | [] => reply true (NoLinkedExpressions message_content) false
              | expression_ids =>
                  rows <- read_db ;;
                  let expressions_details := map (detail_of rows) expression_ids in
                  match pick_model (available_models h) with
                  | None => reply false NoModel false
                  | Some model_to_use =>
                      let '(success, analysis_response, _) :=
                        generate_with_model h
                          (LearnAnalysisPrompt message_content expressions_details)
                          model_to_use (lit "expression_analysis") in
                      if negb success
                      then reply false (AnalysisFailed analysis_response) false
                      else
                        match _parse_analysis_response h analysis_response with
                        | [] => reply true (NothingUsed message_content) false
                        | used_expressions =>
                            let actual_used_expressions :=
                              filter (fun d =>
                                        existsb (Z.eqb (d_id d)) used_expressions)
                                     expressions_details in
                            let '(success2, response, model_name) :=
                              generate_with_model h
                                (LearningPrompt
                                   (context_text h chat_id0 bot_message now_ts)
                                   bot_message actual_used_expressions guidance)
                                model_to_use (lit "expression_learning") in
                            if negb success2
                            then reply false (GenerationFailed response) false
                            else
                              apply_learning h model_name guidance message_content
                                             actual_used_expressions response now_ts
                        end
                  end
              end
        end
  end.

(** ** The direct analysis of one message *)

(** [json == int] in Python. *)
Definition json_eq_int (v : json) (z : Z) : bool :=
  match v with
  | JInt a => (a =? z)%Z
  | JFloat q => Qeq_bool q (inject_Z z)
  | JBool b => ((if b then 1 else 0) =? z)%Z
  | _ => false
  end.

Definition opt_json_eq_int (v : option json) (z : Z) : bool :=
  match v with
  | Some j => json_eq_int j z
  | None => false
  end.

Definition default_judgement : json :=           (* 无判断理由 *)
  JStr [26080; 21028; 26029; 29702; 30001]%N.

Definition get_default (key : text) (default : json) (kv : list (text * json))
    : json :=
  match dict_get key kv with
  | Some v => v
  | None => default
  end.

(** [for expr in xs: f(expr)] where [f] calls [expr.get]: the entries of a
    list, each of which has to be a dict.  Anything else that is true (a
    string, a dict, a number) raises.  [None] is the exception. *)
Fixpoint each_dict (A : Type) (f : list (text * json) -> A) (entries : list json)
    : option (list A) :=
  match entries with
  | [] => Some []
  | JObj kv :: rest =>
      match each_dict f rest with
      | Some out => Some (f kv :: out)
      | None => None
      end
  | _ :: _ => None
  end.

Definition if_true_each (A : Type) (f : list (text * json) -> A) (xs : json)
    : option (list A) :=
  if truthy xs then
    match xs with
    | JArr entries => each_dict f entries
    | _ => None
    end
  else Some [].

(** The report built from a reply that [json.loads] accepted; [None] is an
    exception other than [JSONDecodeError]. *)
Definition analysis_report (expressions_details : list Detail)
    (analysis_result : json) : option Report :=
  match analysis_result with
  | JObj kv =>
      let used_expressions := get_default (lit "used_expressions") (JArr []) kv in
      let unused_expressions := get_default (lit "unused_expressions") (JArr []) kv in
      let summary := get_default (lit "summary") (JStr []) kv in
      match if_true_each
              (fun expr =>
                 let expr_id := dict_get (lit "id") expr in
                 (expr_id,
                  find (fun e => opt_json_eq_int expr_id (d_id e)) expressions_details,
                  get_default (lit "reason") default_judgement expr))
              used_expressions,
            if_true_each
              (fun expr =>
                 (dict_get (lit "id") expr,
                  get_default (lit "reason") default_judgement expr))
              unused_expressions with
      | Some used, Some unused => Some (mkReport used unused summary)
      | _, _ => None
      end
  | _ => None
  end.

(** The lists shown after a repair; [None] is any exception. *)
Definition repaired_lists (analysis_result : json)
    : option (list json * list json * json) :=
  match analysis_result with
  | JObj kv =>
      let used_expressions := get_default (lit "used_expressions") (JArr []) kv in
      let unused_expressions := get_default (lit "unused_expressions") (JArr []) kv in
      let summary := get_default (lit "summary") (JStr []) kv in
      let id_or_unknown := get_default (lit "id") (JStr (lit "?")) in
      match if_true_each id_or_unknown used_expressions,
            if_true_each id_or_unknown unused_expressions with
      | Some used, Some unused => Some (used, unused, summary)
      | _, _ => None
      end
  | _ => None
  end.

(** The end of [AnalyzeMessageExpressionCommand.execute]: the reply is
    parsed as it is, repaired only after a [JSONDecodeError], and shown. *)
Definition show_analysis (h : Host) (message_id message_content : text)
    (expressions_details : list Detail) (response : text) : Cmd Result :=
  match json_loads h response with
  | Some analysis_result =>
      match analysis_report expressions_details analysis_result with
      | Some report =>
          reply true (Analysis message_id message_content report) true
      | None => reply false AnalyzeError true
      end
  | None =>
      match match repair_json h response with
            | Some fixed_response =>
                match json_loads h fixed_response with
                | Some analysis_result => repaired_lists analysis_result
                | None => None
                end
            | None => None
            end with
      | Some (used, unused, summary) =>
          reply true
            (RepairedAnalysis message_id message_content used unused summary)
            true
      | None =>
          reply false
            (JsonParseFailed (firstn 300 response)
                             (300 <? List.length response)%nat)
            true
      end
  end.

(** [AnalyzeMessageExpressionCommand.execute] *)
Definition msg_execute (h : Host) (raw_message : option text) : Cmd Result :=
  match re_match msg_pattern (or_empty raw_message) with
  | None => reply false UsageMsg true
  | Some m =>
      let message_id := strip (or_empty (group 1 m)) in
      match messages_get h message_id with
      | None => reply false (MessageNotFound message_id) true
      | Some message_record =>
          let message_content := or_empty (processed_plain_text message_record) in
          let selected_expressions_str :=
            or_empty (selected_expressions message_record) in
          if negb (truthy_text message_content)
          then reply false (MessageEmpty message_id) true
          else
            match parse_selected_expressions h selected_expressions_str with
            | [] => reply true (MessageNoExpressions message_id message_content) true
            | expression_ids =>
                rows <- read_db ;;
                let expressions_details := map (detail_of rows) expression_ids in
                match pick_model (available_models h) with
                | None => reply false NoModel true
                | Some model_to_use =>
                    let '(success, response, _) :=
                      generate_with_model h
                        (AnalysisPrompt message_content expressions_details)
                        model_to_use (lit "expression_analysis") in
                    if negb success then reply false (LLMAnalysisFailed response) true
                    else
                      show_analysis h message_id message_content
                                    expressions_details response
                end
            end
      end
  end.

(** ** Commands as data, and runs of commands *)

Inductive Command : Type :=
| CmdAdd (raw_message stream_id : option text) (now_ts : Q)
| CmdDel (raw_message stream_id : option text)
| CmdModify (raw_message stream_id : option text) (now_ts : Q)
| CmdLearn (raw_message stream_id : option text) (now_ts : Q)
| CmdMsg (raw_message : option text).

Definition execute (h : Host) (c : Command) : Cmd Result :=
  match c with
  | CmdAdd raw sid now_ts => add_execute h raw sid now_ts
  | CmdDel raw sid => del_execute h raw sid
  | CmdModify raw sid now_ts => modify_execute h raw sid now_ts
  | CmdLearn raw sid now_ts => learn_execute h raw sid now_ts
  | CmdMsg raw => msg_execute h raw
  end.

(** ** What the specification calls things *)

(** [clamp(w) = max(0.01, min(5.0, w))] *)
Definition clamp (w : Q) : Q := Qmax 0.01 (Qmin 5 w).

(** [addDuplicateBoost(w) = min(5.0, w + 0.1)] *)
Definition addDuplicateBoost (w : Q) : Q := Qmin 5 (w + 0.1).

(** The weight invariant of the data model. *)
Definition weight_ok (e : Expression) : Prop := 0.01 <= count e /\ count e <= 5.

Definition weights_ok (rows : list Expression) : Prop :=
  Forall weight_ok rows.

(** The command line asks to change by [d] the weight of row [n] in [chat]. *)
Definition modify_request (h : Host) (raw_message stream_id : option text)
    (id_str : text) (n : Z) (d : Q) (chat : text) : Prop :=
  exists m,
    re_match (modify_pattern h) (or_empty raw_message) = Some m
    /\ or_empty (group 1 m) = id_str
    /\ py_int h id_str = Some n
    /\ py_float (or_empty (group 2 m)) = Some d
    /\ target_chat h (or_empty (group 3 m)) stream_id = Some chat.

(** The command line asks to delete row [n], with [chat] as target chat. *)
Definition del_request (h : Host) (raw_message stream_id : option text)
    (id_str : text) (n : Z) (chat : text) : Prop :=
  exists m,
    re_match (del_pattern h) (or_empty raw_message) = Some m
    /\ or_empty (group 1 m) = id_str
    /\ py_int h id_str = Some n
    /\ target_chat h (or_empty (group 2 m)) stream_id = Some chat.

(** The command line asks to add [situation0 -> style0] to [chat]. *)
Definition add_request (h : Host) (raw_message stream_id : option text)
    (situation0 style0 chat : text) : Prop :=
  exists m,
    re_match add_pattern (or_empty raw_message) = Some m
    /\ strip (or_empty (group 1 m)) = situation0
    /\ strip (or_empty (group 2 m)) = style0
    /\ target_chat h (or_empty (group 3 m)) stream_id = Some chat.

(** The row [obj] after the weight command or a repeated add wrote it. *)
Definition rewritten (obj : Expression) (new_count now_ts : Q) : Expression :=
  backfill_create_date (with_last_active_time (with_count obj new_count) now_ts).

(** [rows] with the row of the id of [obj] replaced by [obj]. *)
Definition replaced (obj : Expression) (rows : list Expression) : list Expression :=
  map (fun e => if (id e =? id obj)%Z then obj else e) rows.

(** [rows] without the row of id [n]. *)
Definition without (n : Z) (rows : list Expression) : list Expression :=
  filter (fun e => negb (id e =? n)%Z) rows.

(** The weight command with the sign of its delta left out: the line the
    specification calls an unsigned numeric token in the delta position. *)
Definition unsigned_delta_pattern (h : Host) : regex :=
  Seqs [Word (lit "/"); keyword; ws;
        Group 1 (Plus true (Chr (is_decimal h))); ws;
        Group 2 unsigned_number;
        in_chat 3;
        Eol].

(** No decimal digit of the Unicode table is a white space character. *)
Definition digits_not_spaces (h : Host) : Prop :=
  forall c, is_space c = true -> uni_decimal h c = None.



(** The tokens the id parser looks at. *)
Definition tokens (s : text) : list text :=
  map strip (split 44 (remove_char 32 (strip_chars (lit "[]") s))).

(** The numbers of the tokens that are digit strings, in order. *)
Definition ints_of (h : Host) (ts : list text) : list Z :=
  flat_map (fun t => match py_int h t with Some n => [n] | None => [] end)
           (filter (isdigit h) ts).

(** An entry of the learning reply proposes a situation that is true and
    differs from the stored one. *)
Definition proposes_change (kv : list (text * json)) (old_situation : text)
    : bool :=
  match dict_get (lit "new_situation") kv with
  | Some v => truthy v && differs_from v old_situation
  | None => false
  end.

(** A JSON text written with ['] for the double quote. *)
Definition json_lit (s : string) : text :=
  map (fun c => if (c =? 39)%N then 34%N else c) (lit s).

(** The id an entry of a reply names, when it is a dict. *)
Definition entry_id (entry : json) : option json :=
  match entry with
  | JObj kv => dict_get (lit "id") kv
  | _ => None
  end.

(** ** Hosts for worked examples *)

Fixpoint lookup_text (A : Type) (key : text) (table : list (text * A))
    : option A :=
  match table with
  | [] => None
  | (k, v) :: table' => if text_eqb k key then Some v else lookup_text key table'
  end.

(** Modelled from the spec: the host's normaliser of a chat reference
    ([ExpressionSelector._parse_stream_config_to_chat_id], which is not part
    of this repository).  A reference is a colon-delimited triple
    [platform:id:type]; a malformed triple is unresolved.  The canonical
    identifier of a well-formed triple is left to [normalize]. *)
Definition triple_selector (normalize : text -> text -> text -> text)
    (s : text) : option text :=
  match split 58 s with
  | [platform; ident; kind] => Some (normalize platform ident kind)
  | _ => None
  end.

(** A host whose answers are tables: what [json.loads] returns on the texts
    listed, the recent messages, the stored messages, and the reply of the
    model to each request type.  No code point beyond ASCII is a digit, the
    repair step returns its input, and one model, [utils], is available. *)
Definition scripted_host (decoded : list (text * json))
    (recent : list Message) (stored : list (text * Message))
    (replies : list (text * text)) : Host :=
  mkHost (fun _ => None) (fun _ => false)
         (triple_selector (fun p i k => p ++ [95%N] ++ i ++ [95%N] ++ k))
         (fun t => lookup_text t decoded)
         (fun t => Some t)
         (fun _ => [])
         (lit "10000")
         (fun _ => recent)
         (fun _ _ _ => [])
         (fun k => lookup_text k stored)
         [(lit "utils", O)]
         (fun _ _ request_type =>
            match lookup_text request_type replies with
            | Some r => (true, r, lit "utils-model")
            | None => (false, lit "no reply", lit "utils-model")
            end).

Definition plain_host : Host := scripted_host [] [] [] [].

(** A table of one row, and a learning run on it. *)
Definition sample_row : Expression :=
  mkExpression 7 (lit "chatA") (lit "surprise") (lit "wow") 1 10 (Some 10)
               (lit "expression").

Definition sample_world : World := mkWorld [sample_row] [].

(** The learning reply of the worked examples: one entry for row 7 whose
    [new_situation] is the stored situation. *)
Definition same_situation_reply : text :=
  json_lit "{'expressions':[{'id':7,'new_situation':'surprise','reason':'fits'}]}".

Definition same_situation_data : json :=
  JObj [(lit "expressions",
         JArr [JObj [(lit "id", JInt 7);
                     (lit "new_situation", JStr (lit "surprise"));
                     (lit "reason", JStr (lit "fits"))]])].

(** A learning reply that proposes another situation for row 7. *)
Definition new_situation_reply : text :=
  json_lit "{'expressions':[{'id':7,'new_situation':'awe','reason':'softer'}]}".

Definition new_situation_data : json :=
  JObj [(lit "expressions",
         JArr [JObj [(lit "id", JInt 7);
                     (lit "new_situation", JStr (lit "awe"));
                     (lit "reason", JStr (lit "softer"))]])].

Definition used_reply : text := json_lit "{'used_expressions':[{'id':7}]}".

Definition used_data : json :=
  JObj [(lit "used_expressions", JArr [JObj [(lit "id", JInt 7)]])].

Definition bot_message : Message :=
  mkMessage (lit "10000") (Some (lit "wow, really")) (Some (lit "[7]")) 15.

(** A run in which the last message of the bot is [bot_message], stored
    under the id [m1], the model names row 7 as used and answers
    [learning_reply] to the learning request. *)
Definition learning_host (learning_reply : text) : Host :=
  scripted_host [(same_situation_reply, same_situation_data);
                 (new_situation_reply, new_situation_data);
                 (used_reply, used_data)]
                [bot_message] [(lit "m1", bot_message)]
                [(lit "expression_analysis", used_reply);
                 (lit "expression_learning", learning_reply)].

(** One write of a command to the table, with a weight in range. *)
Inductive table_step (rows : list Expression) : list Expression -> Prop :=
| step_same : table_step rows rows
| step_without : forall n, table_step rows (without n rows)
| step_replaced : forall obj, weight_ok obj -> table_step rows (replaced obj rows)
| step_created : forall e, weight_ok e -> table_step rows (rows ++ [e]).

(** ** Shapes of command lines *)

Definition all (p : N -> bool) (s : text) : Prop :=
  Forall (fun x => p x = true) s.

(** The weight command with [delta] as the pattern of its second group. *)
Definition weight_line (h : Host) (delta : regex) : regex :=
  Seqs [Word (lit "/"); keyword; ws;
        Group 1 (Plus true (Chr (is_decimal h))); ws;
        Group 2 delta;
        in_chat 3;
        Eol].

Definition keyword_text (kw : text) : Prop :=
  Forall2 (fun l x => ci_char l x = true) (lit "expr") kw
  \/ Forall2 (fun l x => ci_char l x = true) (lit "express") kw
  \/ Forall2 (fun l x => ci_char l x = true) [34920; 36798]%N kw.

(** A line made of the slash, a keyword, white space, an id, white space
    and a second token whose first character satisfies [first]. *)
Definition line_shape (h : Host) (first : N -> bool) (t : text) : Prop :=
  exists kw z1 sp1 d ident z2 sp2 e after,
    t = 47%N :: kw ++ (z1 :: sp1) ++ (d :: ident) ++ (z2 :: sp2) ++ e :: after
    /\ keyword_text kw
    /\ all is_space (z1 :: sp1)
    /\ all (is_decimal h) (d :: ident)
    /\ all is_space (z2 :: sp2)
    /\ first e = true.

(** The code points a literal matches when case is ignored. *)
Definition ci_class (l : N) : list N :=
  (l :: (if (97 <=? l) && (l <=? 122) then (l - 32) :: fold_extra l else [])
     ++ (if (65 <=? l) && (l <=? 90) then (l + 32) :: fold_extra (l + 32) else []))%N.

(** ** The list command *)

(** [ListExpressionsCommand.command_pattern] *)
Definition list_pattern (h : Host) : regex :=
  Seqs [Word (lit "/"); keyword; ws; Word (lit "list");
        in_chat 1;
        Opt (Seqs [ws; Word (lit "page=");
                   Group 2 (Plus true (Chr (is_decimal h)))]);
        Opt (Seqs [ws; Word (lit "size=");
                   Group 3 (Plus true (Chr (is_decimal h)))]);
        Eol].

(** What the list command answers: the header ([total], [page],
    [total_pages]) and the rows of the page. *)
Inductive ListMsg : Type :=
| ListUsage : ListMsg
| ListNoTargetChat : ListMsg
| Listing : Z -> Z -> Z -> list Expression -> ListMsg
| ListUnhandled : ListMsg.

(** [order_by(Expression.count.desc(), Expression.last_active_time.desc())]:
    [a] goes before [b].  Rows equal on both keys keep the row order. *)
Definition listed_before (a b : Expression) : bool :=
  match count a ?= count b with
  | Gt => true
  | Lt => false
  | Eq => Qle_bool (last_active_time b) (last_active_time a)
  end.

Fixpoint insert_row (e : Expression) (sorted : list Expression)
    : list Expression :=
  match sorted with
  | [] => [e]
  | x :: rest =>
      if listed_before e x then e :: sorted else x :: insert_row e rest
  end.

Definition order_by_weight (rows : list Expression) : list Expression :=
  fold_right insert_row [] rows.

(** [query.paginate(page, size)] for [page >= 1] *)
Definition paginate (page size : Z) (rows : list Expression)
    : list Expression :=
  firstn (Z.to_nat size) (skipn (Z.to_nat ((page - 1) * size)) rows).

(** The part of [ListExpressionsCommand.execute] after the arguments are
    read: counting, clamping the page, ordering and cutting the page. *)
Definition listing (rows : list Expression) (chat_id0 : text) (page size : Z)
    : ListMsg :=
  let query := filter (fun e => text_eqb (chat_id e) chat_id0) rows in
  let total := Z.of_nat (List.length query) in
  let total_pages := Z.max 1 ((total + size - 1) / size) in
  let page' := Z.min page total_pages in
  Listing total page' total_pages (paginate page' size (order_by_weight query)).

(** [x or default] of an optional string *)
Definition or_text (x : option text) (default : text) : text :=
  match x with
  | Some s => if truthy_text s then s else default
  | None => default
  end.

(** [ListExpressionsCommand.execute]; it reads the table and writes
    nothing. *)
Definition list_execute (h : Host) (raw_message stream_id : option text)
    (rows : list Expression) : bool * ListMsg * bool :=
  match re_match (list_pattern h) (or_empty raw_message) with
  | None => (false, ListUsage, true)
  | Some m =>
      let chat_spec := or_empty (group 1 m) in
      match py_int h (or_text (group 2 m) (lit "1")),
            py_int h (or_text (group 3 m) (lit "10"))
      with
      | Some page, Some size =>
          let page1 := Z.max 1 page in
          let size1 := Z.max 1 (Z.min 50 size) in
          match target_chat h chat_spec stream_id with
          | None => (false, ListNoTargetChat, true)
          | Some chat_id0 => (true, listing rows chat_id0 page1 size1, true)
          end
      | _, _ => (false, ListUnhandled, true)
      end
  end.

(** [a] is listed before [b]. *)
Definition before (a b : Expression) : Prop := listed_before a b = true.

(** An optional group of decimal digits. *)
Definition decimals_or_none (h : Host) (g : option text) : Prop :=
  g = None \/ exists d i, g = Some (d :: i) /\ all (is_decimal h) (d :: i).

(** The rows a list answer shows. *)
Definition listed_rows (m : ListMsg) : list Expression :=
  match m with
  | Listing _ _ _ rows => rows
  | _ => []
  end.

(** ** The commands of the plugin *)

(** [ReviewExpressionsCommand.command_pattern] *)
Definition review_pattern : regex :=
  Seqs [Word (lit "/"); keyword; ws; Word (lit "review"); Eol].

Inductive CommandKind : Type :=
| KAdd | KList | KDel | KModify | KReview | KLearn | KMsg.

(** [ExpressionManagerPlugin.get_plugin_components] *)
Definition get_plugin_components : list CommandKind :=
  [KAdd; KList; KDel; KModify; KReview; KLearn; KMsg].

Definition command_pattern (h : Host) (k : CommandKind) : regex :=
  match k with
  | KAdd => add_pattern
  | KList => list_pattern h
  | KDel => del_pattern h
  | KModify => modify_pattern h
  | KReview => review_pattern
  | KLearn => learn_pattern
  | KMsg => msg_pattern
  end.

(** ** The details of a learning run *)

(** One block of the text of [_get_update_details_v2]: with the new
    situation and the weight for a rewritten row, without them otherwise. *)
Inductive DetailLine : Type :=
| RewrittenLine : json -> text -> text -> json -> json -> Q -> DetailLine
| KeptLine : json -> text -> text -> json -> DetailLine.

Definition detail_line (u : UpdateInfo) : DetailLine :=
  if truthy (u_new_situation u)
     && differs_from (u_new_situation u) (u_old_situation u)
  then RewrittenLine (u_id u) (u_old_style u) (u_old_situation u)
                     (u_new_situation u) (u_reason u) (u_weight u)
  else KeptLine (u_id u) (u_old_style u) (u_old_situation u) (u_reason u).

(** [LearnExpressionCommand._get_update_details_v2]; [None] is the text
    for no update information. *)
Definition _get_update_details_v2 (update_info : list UpdateInfo)
    : option (list DetailLine) :=
  match update_info with
  | [] => None
  | _ :: _ => Some (map detail_line update_info)
  end.

(** ** The field as the host writes it *)

Fixpoint join_with (sep : text) (parts : list text) : text :=
  match parts with
  | [] => []
  | [p] => p
  | p :: rest => p ++ sep ++ join_with sep rest
  end.

(** [str(ids)] of a list of integers: [[62, 201, 386]]. *)
Definition render_ids (ids : list Z) : text :=
  [91%N] ++ join_with (lit ", ") (map str_of_int ids) ++ [93%N].

(** ** Rows with different ids *)

Definition unique_ids (rows : list Expression) : Prop := NoDup (map id rows).

(** What the learning step may do to a row: the id, the chat, the style,
    the creation date and the type stay, the weight does not go down. *)
Definition learned_from (e e' : Expression) : Prop :=
  id e = id e' /\ chat_id e = chat_id e' /\ style e = style e'
  /\ create_date e = create_date e' /\ type e = type e'
  /\ count e <= count e'.

(** ** Answers *)

(** The answer [r] went out, once, after what had gone out before. *)
Definition answered (r : Result) (w w' : World) : Prop :=
  exists storage_message, outbox w' = outbox w ++ [(message r, storage_message)].

(** A command answered once, with the record flag set, without an uncaught
    conversion error, and wrote nothing if it failed. *)
Definition orderly (r : Result) (w w' : World) : Prop :=
  answered r w w'
  /\ snd r = true
  /\ message r <> Unhandled
  /\ message r <> DeltaNotNumber
  /\ (succeeded r = false -> db w' = db w).

(** ** Entries and numerals *)

(** A value of a reply that is a dict. *)
Definition is_dict (v : json) : Prop := exists kv, v = JObj kv.

(** A non-empty text of ASCII digits. *)
Definition numeral (t : text) : Prop :=
  exists c s, t = c :: s /\ all is_ascii_digit (c :: s).

(** A learning reply whose second entry is a number, not a dict. *)
Definition broken_reply : text :=
  json_lit "{'expressions':[{'id':7,'new_situation':'awe'},7]}".

Definition broken_data : list (text * json) :=
  [(lit "expressions",
    JArr [JObj [(lit "id", JInt 7); (lit "new_situation", JStr (lit "awe"))];
          JInt 7])].

(** An analysis reply whose second entry is a number, not a dict. *)
Definition void_reply : text := json_lit "{'used_expressions':[{'id':7},7]}".

Definition void_data : list (text * json) :=
  [(lit "used_expressions", JArr [JObj [(lit "id", JInt 7)]; JInt 7])].

Definition broken_host : Host :=
  scripted_host [(broken_reply, JObj broken_data); (void_reply, JObj void_data)]
                [] [] [].

(** A table of three rows, two of them of [chatA]. *)
Definition sample_rows : list Expression :=
  [sample_row;
   mkExpression 8 (lit "chatA") (lit "joy") (lit "yay") 2 11 (Some 11)
                (lit "expression");
   mkExpression 9 (lit "chatB") (lit "doubt") (lit "hmm") 3 12 (Some 12)
                (lit "expression")].

(** ** How a command line starts *)

(** What a command line has after the keyword and the white space: a letter
    of the command word, a decimal digit, or any code point. *)
Inductive HeadChar : Type :=
| Letter : N -> HeadChar
| Digit : HeadChar
| AnyChar : HeadChar.

Definition head_matches (h : Host) (hc : HeadChar) (x : N) : bool :=
  match hc with
  | Letter l => ci_char l x
  | Digit => is_decimal h x
  | AnyChar => true
  end.

(** The first two code points of each command after the white space: [ad]d,
    [li]st, [de]l, a digit of the id, [re]view, [le]arn, [ms]g. *)
Definition head_of (k : CommandKind) : HeadChar * HeadChar :=
  match k with
  | KAdd => (Letter 97, Letter 100)
  | KList => (Letter 108, Letter 105)
  | KDel => (Letter 100, Letter 101)
  | KModify => (Digit, AnyChar)
  | KReview => (Letter 114, Letter 101)
  | KLearn => (Letter 108, Letter 101)
  | KMsg => (Letter 109, Letter 115)
  end.

Definition command_head (h : Host) (k : CommandKind) (t : text) : Prop :=
  exists kw z sp a b after,
    t = 47%N :: kw ++ (z :: sp) ++ a :: b :: after
    /\ keyword_text kw
    /\ all is_space (z :: sp)
    /\ head_matches h (fst (head_of k)) a = true
    /\ head_matches h (snd (head_of k)) b = true.

(** Every code point the letter matches is ASCII, no digit and no space. *)
Definition ascii_letter_class (l : N) : bool :=
  forallb (fun c => negb (is_ascii_digit c) && (c <? 128)%N && not_space c)
          (ci_class l).

(** No code point matches both. *)
Definition head_apart (a b : HeadChar) : bool :=
  match a, b with
  | Letter l1, Letter l2 =>
      forallb (fun x => negb (existsb (N.eqb x) (ci_class l2))) (ci_class l1)
  | Letter l, Digit => ascii_letter_class l
  | Digit, Letter l => ascii_letter_class l
  | _, _ => false
  end.

(** ** What a pattern denotes

    [denotes r s rest c c']: [r] can match [s] when [rest] follows, turning
    the groups [c] into [c'].  The matcher only returns matches of this
    relation ([rmatch_sound]). *)

Definition lang : Type := text -> text -> caps -> caps -> Prop.

Inductive star (L : lang) : lang :=
| star_stop : forall rest c, star L [] rest c c
| star_more : forall s1 s2 rest c c1 c2,
    L s1 (s2 ++ rest) c c1 -> star L s2 rest c1 c2 ->
    star L (s1 ++ s2) rest c c2.

Fixpoint denotes (r : regex) : lang :=
  match r with
  | Eps => fun s _ c c' => s = [] /\ c' = c
  | Chr p => fun s _ c c' => exists x, s = [x] /\ p x = true /\ c' = c
  | Seq r1 r2 => fun s rest c c' =>
      exists s1 s2 c1,
        s = s1 ++ s2 /\ denotes r1 s1 (s2 ++ rest) c c1 /\ denotes r2 s2 rest c1 c'
  | Alt r1 r2 => fun s rest c c' => denotes r1 s rest c c' \/ denotes r2 s rest c c'
  | Star _ r1 => star (denotes r1)
  | Group n r1 => fun s rest c c' =>
      exists c1, denotes r1 s rest c c1 /\ c' = (n, s) :: c1
  | Eol => fun s rest c c' => s = [] /\ c' = c /\ (rest = [] \/ rest = [10%N])
  end.

(** * Proofs *)

(** ** The matcher is sound for the denotation *)

Lemma firstn_consumed (s1 s2 : text) :
  firstn (List.length (s1 ++ s2) - List.length s2) (s1 ++ s2) = s1.
Proof.
  rewrite length_app, Nat.add_sub.
  rewrite firstn_app, Nat.sub_diag, firstn_all. simpl.
  apply app_nil_r.
Qed.

Lemma star_loop_sound (r1 : regex) (greedy : bool) (k : kont) :
  (forall s c k' cf, rmatch r1 s c k' = Some cf ->
     exists s1 s2 c', s = s1 ++ s2 /\ denotes r1 s1 s2 c c' /\ k' s2 c' = Some cf) ->
  forall fuel s c cf,
    star_loop (rmatch r1) greedy k fuel s c = Some cf ->
    exists s1 s2 c', s = s1 ++ s2 /\ star (denotes r1) s1 s2 c c' /\ k s2 c' = Some cf.
Proof.
  intros IH fuel.
  induction fuel as [|fuel IHfuel]; intros s c cf H.
  - simpl in H.
    assert (Hk : k s c = Some cf).
    { destruct greedy; simpl in H; [exact H|].
      destruct (k s c); simpl in H; [exact H|discriminate]. }
    exists [], s, c. repeat split; [constructor|exact Hk].
  - simpl in H.
    assert (Hcases :
      k s c = Some cf \/
      rmatch r1 s c (fun s' c' =>
        if (List.length s' <? List.length s)%nat
        then star_loop (rmatch r1) greedy k fuel s' c' else None) = Some cf).
    { destruct greedy; unfold or_else in H.
      - match type of H with
        | match ?X with _ => _ end = _ => destruct X eqn:E
        end; [right; congruence|left; exact H].
      - destruct (k s c) eqn:E; [left; congruence|right; exact H]. }
    destruct Hcases as [Hk|Hm].
    + exists [], s, c. repeat split; [constructor|exact Hk].
    + apply IH in Hm. destruct Hm as (s1 & s2 & c1 & Hs & Hd & Hrest).
      destruct (List.length s2 <? List.length s)%nat; [|discriminate].
      apply IHfuel in Hrest.
      destruct Hrest as (s3 & s4 & c2 & Hs2 & Hst & Hk).
      exists (s1 ++ s3), s4, c2. subst s2 s.
      repeat split; [apply app_assoc| |exact Hk].
      eapply star_more; eassumption.
Qed.

Lemma rmatch_sound (r : regex) :
  forall s c k cf, rmatch r s c k = Some cf ->
    exists s1 s2 c', s = s1 ++ s2 /\ denotes r s1 s2 c c' /\ k s2 c' = Some cf.
Proof.
  induction r as [|p|r1 IH1 r2 IH2|r1 IH1 r2 IH2|g r1 IH1|n r1 IH1|];
    intros s c k cf H; simpl in H.
  - exists [], s, c. simpl. auto.
  - destruct s as [|x s']; [discriminate|].
    destruct (p x) eqn:Hp; [|discriminate].
    exists [x], s', c. simpl. repeat split; eauto.
  - apply IH1 in H. destruct H as (s1 & s2 & c1 & Hs & Hd1 & H).
    apply IH2 in H. destruct H as (s3 & s4 & c2 & Hs2 & Hd2 & Hk).
    exists (s1 ++ s3), s4, c2. subst.
    repeat split; [apply app_assoc| |exact Hk].
    simpl. exists s1, s3, c1. auto.
  - unfold or_else in H. destruct (rmatch r1 s c k) eqn:E.
    + injection H as <-. apply IH1 in E.
      destruct E as (s1 & s2 & c1 & Hs & Hd & Hk).
      exists s1, s2, c1. simpl. auto.
    + apply IH2 in H. destruct H as (s1 & s2 & c1 & Hs & Hd & Hk).
      exists s1, s2, c1. simpl. auto.
  - eapply star_loop_sound; eassumption.
  - apply IH1 in H. destruct H as (s1 & s2 & c1 & Hs & Hd & Hk).
    subst s. rewrite firstn_consumed in Hk.
    exists s1, s2, ((n, s1) :: c1). simpl. repeat split; eauto.
  - destruct s as [|x [|y s']].
    + exists [], [], c. simpl. repeat split; auto.
    + destruct x; try discriminate.
      repeat (destruct p; try discriminate).
      exists [], [10%N], c. simpl. repeat split; auto.
    + destruct x; try discriminate.
      repeat (destruct p; try discriminate).
Qed.

Lemma re_match_sound (r : regex) (s : text) (c : caps) :
  re_match r s = Some c ->
  exists s1 s2, s = s1 ++ s2 /\ denotes r s1 s2 [] c.
Proof.
  unfold re_match. intros H. apply rmatch_sound in H.
  destruct H as (s1 & s2 & c' & Hs & Hd & Hk).
  injection Hk as <-. eauto.
Qed.

(** ** Shapes of the texts the patterns match *)

Lemma star_chr (p : N -> bool) (s rest : text) (c c' : caps) :
  star (denotes (Chr p)) s rest c c' -> c' = c /\ all p s.
Proof.
  induction 1 as [|s1 s2 rest c c1 c2 H1 _ IH].
  - split; [reflexivity|constructor].
  - destruct H1 as (x & -> & Hp & ->). destruct IH as [-> IH].
    split; [reflexivity|]. constructor; assumption.
Qed.

Lemma plus_chr (g : bool) (p : N -> bool) (s rest : text) (c c' : caps) :
  denotes (Plus g (Chr p)) s rest c c' ->
  c' = c /\ exists x s', s = x :: s' /\ p x = true /\ all p s'.
Proof.
  intros (s1 & s2 & c1 & -> & (x & -> & Hp & ->) & Hs).
  apply star_chr in Hs. destruct Hs as [-> Hs].
  split; [reflexivity|]. exists x, s2. auto.
Qed.

Lemma word_chars (w : text) :
  forall s rest c c', denotes (Word w) s rest c c' ->
    c' = c /\ Forall2 (fun l x => ci_char l x = true) w s.
Proof.
  unfold Word.
  induction w as [|l [|l' w'] IH]; intros s rest c c' H.
  - destruct H as [-> ->]. split; [reflexivity|constructor].
  - destruct H as (x & -> & Hp & ->). split; [reflexivity|].
    constructor; [assumption|constructor].
  - destruct H as (s1 & s2 & c1 & -> & (x & -> & Hp & ->) & H2).
    apply IH in H2. destruct H2 as [-> H2].
    split; [reflexivity|]. constructor; assumption.
Qed.

Lemma modify_pattern_weight_line (h : Host) :
  modify_pattern h = weight_line h (Seq (Chr is_sign) unsigned_number).
Proof. reflexivity. Qed.

Lemma slash_only (x : N) : ci_char 47 x = true -> x = 47%N.
Proof.
  unfold ci_char. simpl.
  rewrite !orb_false_r. intros H. apply N.eqb_eq in H. exact H.
Qed.

Lemma keyword_den (s rest : text) (c c' : caps) :
  denotes keyword s rest c c' -> c' = c /\ keyword_text s.
Proof.
  unfold keyword, keyword_text. cbn [denotes].
  intros [H|[H|H]]; apply word_chars in H; destruct H as [-> H]; auto.
Qed.

Lemma in_chat_groups (n : nat) (s rest : text) (c c' : caps) :
  denotes (in_chat n) s rest c c' -> c' = c \/ exists t, c' = (n, t) :: c.
Proof.
  unfold in_chat, Opt. cbn [Seqs denotes].
  intros [H|[_ ->]]; [|left; reflexivity].
  destruct H as (s1 & s2 & c1 & _ & H1 & s3 & s4 & c2 & _ & H2 & s5 & s6 & c3 & _ & H3 & c4 & H4 & ->).
  apply plus_chr in H1, H3, H4. apply word_chars in H2.
  destruct H1 as [-> _], H2 as [-> _], H3 as [-> _], H4 as [-> _].
  right. eexists. reflexivity.
Qed.

Lemma weight_line_shape (h : Host) (delta : regex) (first : N -> bool)
    (s rest : text) (c c' : caps) :
  (forall t r a b, denotes delta t r a b -> exists e t', t = e :: t' /\ first e = true) ->
  denotes (weight_line h delta) s rest c c' ->
  line_shape h first (s ++ rest)
  /\ exists d r a b, group 2 c' = Some d /\ denotes delta d r a b.
Proof.
  intros Hfirst. unfold weight_line. cbn [Seqs denotes].
  intros (s0 & t0 & c0 & -> & H0 & s1 & t1 & c1 & -> & H1 & s2 & t2 & c2 & -> & H2
          & s3 & t3 & c3 & -> & (c3' & H3 & ->) & s4 & t4 & c4 & -> & H4
          & s5 & t5 & c5 & -> & (c5' & H5 & ->) & s6 & t6 & c6 & -> & H6 & H7).
  destruct H7 as (-> & -> & _).
  apply word_chars in H0. destruct H0 as [-> H0].
  inversion H0 as [|l x l' s0' Hx Hnil]; subst. inversion Hnil; subst.
  apply slash_only in Hx. subst x.
  apply keyword_den in H1. destruct H1 as [-> Hkw].
  apply plus_chr in H2. destruct H2 as [-> (z1 & sp1 & -> & Hz1 & Hsp1)].
  apply plus_chr in H3. destruct H3 as [-> (d & ident & -> & Hd & Hident)].
  apply plus_chr in H4. destruct H4 as [-> (z2 & sp2 & -> & Hz2 & Hsp2)].
  destruct (Hfirst _ _ _ _ H5) as (e & delta' & -> & He).
  split.
  - exists s1, z1, sp1, d, ident, z2, sp2, e, (delta' ++ s6 ++ [] ++ rest).
    repeat split; try assumption; try (constructor; assumption).
    simpl. rewrite <- !app_assoc. simpl.
    repeat (rewrite <- ?app_assoc; simpl; f_equal).
  - apply in_chat_groups in H6.
    exists (e :: delta'). do 3 eexists. split; [|exact H5].
    destruct H6 as [->|[t ->]]; reflexivity.
Qed.

Lemma run_unique (p : N -> bool) :
  forall l1 l2 x y r1 r2,
    all p l1 -> all p l2 -> p x = false -> p y = false ->
    l1 ++ x :: r1 = l2 ++ y :: r2 ->
    l1 = l2 /\ x = y /\ r1 = r2.
Proof.
  induction l1 as [|a l1 IH]; intros [|b l2] x y r1 r2 H1 H2 Hx Hy E;
    simpl in E; injection E as E1 E2.
  - subst. auto.
  - subst. inversion H2; subst. congruence.
  - subst. inversion H1; subst. congruence.
  - subst. inversion H1 as [|? ? _ H1t]; inversion H2 as [|? ? _ H2t]; subst.
    destruct (IH _ _ _ _ _ H1t H2t Hx Hy E2) as (-> & -> & ->). auto.
Qed.

Lemma ci_char_class (l x : N) : ci_char l x = true -> In x (ci_class l).
Proof.
  unfold ci_char, ci_class. intros H.
  apply orb_true_iff in H. destruct H as [H|H].
  - apply orb_true_iff in H. destruct H as [H|H].
    + apply N.eqb_eq in H. left. auto.
    + apply andb_true_iff in H. destruct H as [Hl H]. rewrite Hl.
      right. apply in_or_app. left.
      apply orb_true_iff in H. destruct H as [H|H].
      * apply N.eqb_eq in H. left. auto.
      * right. apply existsb_exists in H. destruct H as (y & Hy & E).
        apply N.eqb_eq in E. subst. exact Hy.
  - apply andb_true_iff in H. destruct H as [Hl H]. rewrite Hl.
    right. apply in_or_app. right.
    apply orb_true_iff in H. destruct H as [H|H].
    + apply N.eqb_eq in H. left. auto.
    + right. apply existsb_exists in H. destruct H as (y & Hy & E).
      apply N.eqb_eq in E. subst. exact Hy.
Qed.

Lemma word_not_space (w s : text) :
  forallb (fun l => forallb not_space (ci_class l)) w = true ->
  Forall2 (fun l x => ci_char l x = true) w s ->
  all not_space s.
Proof.
  set (f := fun l => forallb not_space (ci_class l)).
  intros Hw H. induction H as [|l x w s Hx _ IH]; [constructor|].
  simpl in Hw. apply andb_true_iff in Hw. destruct Hw as [Hl Hw].
  constructor; [|apply IH; exact Hw].
  apply ci_char_class in Hx. unfold f in Hl.
  rewrite forallb_forall in Hl. apply Hl. exact Hx.
Qed.

Lemma keyword_not_space (kw : text) : keyword_text kw -> all not_space kw.
Proof.
  intros [H|[H|H]]; (eapply word_not_space; [|exact H]); vm_compute; reflexivity.
Qed.

Lemma is_space_range (c : N) : is_space c = true -> (c <= 32 \/ 133 <= c)%N.
Proof.
  unfold is_space.
  rewrite !orb_true_iff, !andb_true_iff, !N.leb_le, !N.eqb_eq. lia.
Qed.

Lemma ascii_digit_not_space (c : N) :
  is_ascii_digit c = true -> is_space c = false.
Proof.
  unfold is_ascii_digit. rewrite andb_true_iff, !N.leb_le. intros H.
  destruct (is_space c) eqn:E; [|reflexivity].
  apply is_space_range in E. lia.
Qed.

Lemma decimal_not_space (h : Host) (c : N) :
  digits_not_spaces h -> is_decimal h c = true -> is_space c = false.
Proof.
  intros Hh H. destruct (is_space c) eqn:Hs; [|reflexivity].
  unfold is_decimal, decimal_value in H.
  destruct (is_ascii_digit c) eqn:Hd.
  - apply ascii_digit_not_space in Hd. congruence.
  - destruct (c <? 128)%N; [discriminate|].
    rewrite (Hh c Hs) in H. discriminate.
Qed.

Lemma space_not_decimal (h : Host) (c : N) :
  digits_not_spaces h -> is_space c = true -> is_decimal h c = false.
Proof.
  intros Hh Hs. destruct (is_decimal h c) eqn:Hd; [|reflexivity].
  apply decimal_not_space in Hd; [congruence|assumption].
Qed.

Lemma sign_not_space (c : N) : is_sign c = true -> is_space c = false.
Proof.
  unfold is_sign. intros H. apply orb_true_iff in H.
  destruct H as [H|H]; apply N.eqb_eq in H; subst; reflexivity.
Qed.

Lemma sign_not_ascii_digit (c : N) :
  is_sign c = true -> is_ascii_digit c = false.
Proof.
  unfold is_sign. intros H. apply orb_true_iff in H.
  destruct H as [H|H]; apply N.eqb_eq in H; subst; reflexivity.
Qed.

Lemma shapes_disjoint (h : Host) (t : text) :
  digits_not_spaces h ->
  line_shape h is_ascii_digit t -> line_shape h is_sign t -> False.
Proof.
  intros Hh (kw & z1 & sp1 & d & ident & z2 & sp2 & e & after
             & E & Hkw & Hsp1 & Hid & Hsp2 & He)
            (kw' & z1' & sp1' & d' & ident' & z2' & sp2' & e' & after'
             & E' & Hkw' & Hsp1' & Hid' & Hsp2' & He').
  rewrite E in E'. injection E' as E'. simpl in E'.
  inversion Hsp1 as [|? ? Hz1 Hsp1t]; inversion Hsp1' as [|? ? Hz1' Hsp1t']; subst.
  inversion Hid as [|? ? Hd Hidt]; inversion Hid' as [|? ? Hd' Hidt']; subst.
  inversion Hsp2 as [|? ? Hz2 Hsp2t]; inversion Hsp2' as [|? ? Hz2' Hsp2t']; subst.
  apply keyword_not_space in Hkw, Hkw'.
  apply (@run_unique not_space) in E'; try assumption;
    try (unfold not_space; rewrite ?Hz1, ?Hz1'; reflexivity).
  destruct E' as (_ & _ & E1).
  apply (@run_unique is_space) in E1; try assumption;
    try (eapply decimal_not_space; eassumption).
  destruct E1 as (_ & _ & E2).
  apply (@run_unique (is_decimal h)) in E2; try assumption;
    try (eapply space_not_decimal; eassumption).
  destruct E2 as (_ & _ & E3).
  apply (@run_unique is_space) in E3; try assumption;
    try (apply ascii_digit_not_space; assumption);
    try (apply sign_not_space; assumption).
  destruct E3 as (_ & <- & _).
  apply sign_not_ascii_digit in He'. congruence.
Qed.

Lemma signed_first (t r : text) (a b : caps) :
  denotes (Seq (Chr is_sign) unsigned_number) t r a b ->
  exists e t', t = e :: t' /\ is_sign e = true.
Proof.
  intros (s1 & s2 & c1 & -> & (x & -> & Hx & _) & _).
  exists x, s2. auto.
Qed.

Lemma unsigned_first (t r : text) (a b : caps) :
  denotes unsigned_number t r a b ->
  exists e t', t = e :: t' /\ is_ascii_digit e = true.
Proof.
  unfold unsigned_number.
  intros (s1 & s2 & c1 & -> & H & _).
  apply plus_chr in H. destruct H as [_ (x & s' & -> & Hx & _)].
  exists x, (s' ++ s2). auto.
Qed.

Lemma unsigned_delta_weight_line (h : Host) :
  unsigned_delta_pattern h = weight_line h unsigned_number.
Proof. reflexivity. Qed.

(** ** Weights *)

Lemma clamp_bounds (x : Q) : 0.01 <= Qmax 0.01 (Qmin 5 x) /\ Qmax 0.01 (Qmin 5 x) <= 5.
Proof.
  split.
  - apply Q.le_max_l.
  - apply Q.max_lub; [lra|apply Q.le_min_l].
Qed.

Lemma boost_bounds (x : Q) :
  0.01 <= x -> 0.01 <= Qmin 5 (x + 0.1) /\ Qmin 5 (x + 0.1) <= 5.
Proof.
  intros H. split.
  - apply Q.min_glb; lra.
  - apply Q.le_min_l.
Qed.

Lemma count_rewritten (obj : Expression) (c t : Q) :
  count (rewritten obj c t) = c.
Proof.
  unfold rewritten, backfill_create_date. simpl.
  destruct (create_date obj); reflexivity.
Qed.

Lemma id_rewritten (obj : Expression) (c t : Q) :
  id (rewritten obj c t) = id obj.
Proof.
  unfold rewritten, backfill_create_date. simpl.
  destruct (create_date obj); reflexivity.
Qed.

(** ** The table under the three writes *)

Lemma weights_ok_replaced (obj : Expression) (rows : list Expression) :
  weights_ok rows -> weight_ok obj -> weights_ok (replaced obj rows).
Proof.
  intros H Hobj. unfold replaced, weights_ok in *.
  induction H as [|e rows He _ IH]; simpl; constructor; auto.
  destruct (id e =? id obj)%Z; assumption.
Qed.

Lemma weights_ok_without (n : Z) (rows : list Expression) :
  weights_ok rows -> weights_ok (without n rows).
Proof.
  intros H. unfold without, weights_ok in *.
  induction H as [|e rows He _ IH]; simpl; [constructor|].
  destruct (negb (id e =? n)%Z); [constructor|]; assumption.
Qed.

Lemma weights_ok_created (e : Expression) (rows : list Expression) :
  weights_ok rows -> weight_ok e -> weights_ok (rows ++ [e]).
Proof.
  intros H He. apply Forall_app. split; [exact H|]. constructor; [exact He|constructor].
Qed.

Lemma without_absent (n : Z) (rows : list Expression) :
  ~ In n (map id (without n rows)).
Proof.
  unfold without. intros H. apply in_map_iff in H.
  destruct H as (e & <- & He). apply filter_In in He.
  destruct He as [_ He]. rewrite Z.eqb_refl in He. discriminate.
Qed.

Lemma found_weight_ok (q : Expression -> bool) (rows : list Expression)
    (e : Expression) :
  weights_ok rows -> find q rows = Some e -> weight_ok e.
Proof.
  intros H Hf. apply find_some in Hf. destruct Hf as [Hin _].
  unfold weights_ok in H. rewrite Forall_forall in H. auto.
Qed.

(** ** What each command does *)

Lemma reply_run (ok : bool) (m : Msg) (st : bool) (w : World) :
  reply ok m st w = ((ok, m, true), mkWorld (db w) (outbox w ++ [(m, st)])).
Proof. reflexivity. Qed.

Lemma modify_execute_found (h : Host) (raw sid : option text) (now_ts : Q)
    (w : World) (id_str : text) (n : Z) (d : Q) (chat : text) (expr : Expression) :
  modify_request h raw sid id_str n d chat ->
  find (fun e => (id e =? n)%Z && text_eqb (chat_id e) chat) (db w) = Some expr ->
  modify_execute h raw sid now_ts w =
    if Qle_bool (count expr + d) 0 then
      ((true, AutoDeleted (count expr + d), true),
       mkWorld (without (id expr) (db w))
               (outbox w ++ [(AutoDeleted (count expr + d), true)]))
    else
      ((true, WeightUpdated id_str (Qmax 0.01 (Qmin 5 (count expr + d))), true),
       mkWorld (replaced (rewritten expr (Qmax 0.01 (Qmin 5 (count expr + d))) now_ts)
                         (db w))
               (outbox w ++ [(WeightUpdated id_str
                                (Qmax 0.01 (Qmin 5 (count expr + d))), true)])).
Proof.
  intros (m & Hm & Hid & Hint & Hfloat & Hchat) Hfind.
  unfold modify_execute. rewrite Hm, Hchat, Hfloat, Hid, Hint.
  cbv beta iota zeta delta [bind get read_db ret]. rewrite Hfind.
  destruct (Qle_bool (count expr + d) 0); reflexivity.
Qed.

Lemma modify_execute_not_found (h : Host) (raw sid : option text) (now_ts : Q)
    (w : World) (id_str : text) (n : Z) (d : Q) (chat : text) :
  modify_request h raw sid id_str n d chat ->
  find (fun e => (id e =? n)%Z && text_eqb (chat_id e) chat) (db w) = None ->
  modify_execute h raw sid now_ts w =
    ((false, ModifyNotFound, true),
     mkWorld (db w) (outbox w ++ [(ModifyNotFound, false)])).
Proof.
  intros (m & Hm & Hid & Hint & Hfloat & Hchat) Hfind.
  unfold modify_execute. rewrite Hm, Hchat, Hfloat, Hid, Hint.
  cbv beta iota zeta delta [bind get read_db ret]. rewrite Hfind. reflexivity.
Qed.

Lemma del_execute_found (h : Host) (raw sid : option text) (w : World)
    (id_str : text) (n : Z) (chat : text) (expr : Expression) :
  del_request h raw sid id_str n chat ->
  find (fun e => (id e =? n)%Z) (db w) = Some expr ->
  del_execute h raw sid w =
    ((true, Deleted id_str, true),
     mkWorld (without n (db w)) (outbox w ++ [(Deleted id_str, true)])).
Proof.
  intros (m & Hm & Hid & Hint & Hchat) Hfind.
  unfold del_execute. rewrite Hm, Hchat, Hid, Hint.
  cbv beta iota zeta delta [bind get read_db ret]. rewrite Hfind.
  apply find_some in Hfind. destruct Hfind as [_ Hn]. apply Z.eqb_eq in Hn.
  subst n. reflexivity.
Qed.

Lemma add_execute_found (h : Host) (raw sid : option text) (now_ts : Q)
    (w : World) (situation0 style0 chat : text) (obj : Expression) :
  add_request h raw sid situation0 style0 chat ->
  find (same_triple chat situation0 style0) (db w) = Some obj ->
  add_execute h raw sid now_ts w =
    ((true, DuplicateBoosted (Qmin 5 (count obj + 0.1)), true),
     mkWorld (replaced (rewritten obj (Qmin 5 (count obj + 0.1)) now_ts) (db w))
             (outbox w ++ [(DuplicateBoosted (Qmin 5 (count obj + 0.1)), true)])).
Proof.
  intros (m & Hm & Hsit & Hsty & Hchat) Hfind.
  unfold add_execute. rewrite Hm, Hchat, Hsit, Hsty.
  cbv beta iota zeta delta [bind get read_db ret]. rewrite Hfind.
  fold (rewritten obj (Qmin 5 (count obj + 0.1)) now_ts).
  rewrite count_rewritten. reflexivity.
Qed.

Lemma table_step_ok (rows rows' : list Expression) :
  weights_ok rows -> table_step rows rows' -> weights_ok rows'.
Proof.
  intros H [ |n|obj Hobj|e He].
  - exact H.
  - apply weights_ok_without. exact H.
  - apply weights_ok_replaced; assumption.
  - apply weights_ok_created; assumption.
Qed.

Ltac case_step :=
  match goal with
  | |- context [match ?X with _ => _ end] => destruct X eqn:?
  end.

Ltac run_cmd := cbv beta iota zeta delta [bind get read_db ret reply send_text write_db save delete_instance create].

Lemma add_step (h : Host) (raw sid : option text) (now_ts : Q) (w : World) :
  weights_ok (db w) ->
  table_step (db w) (db (snd (add_execute h raw sid now_ts w))).
Proof.
  intros Hw. unfold add_execute.
  destruct (re_match add_pattern (or_empty raw)) as [m|]; [|apply step_same].
  destruct (target_chat h (or_empty (group 3 m)) sid) as [chat|]; [|apply step_same].
  run_cmd.
  destruct (find _ (db w)) as [obj|] eqn:Hfind; simpl.
  - apply step_replaced.
    fold (rewritten obj (Qmin 5 (count obj + 0.1)) now_ts).
    unfold weight_ok. rewrite count_rewritten.
    apply boost_bounds. eapply found_weight_ok; eassumption.
  - apply step_created. unfold weight_ok. simpl.
    destruct (py_float _); [apply clamp_bounds|split; lra].
Qed.

Lemma del_step (h : Host) (raw sid : option text) (w : World) :
  table_step (db w) (db (snd (del_execute h raw sid w))).
Proof.
  unfold del_execute.
  destruct (re_match _ _) as [m|]; [|apply step_same].
  destruct (target_chat _ _ _) as [chat|]; [|apply step_same].
  destruct (py_int _ _) as [n|]; [|apply step_same].
  run_cmd.
  destruct (find _ (db w)) as [obj|] eqn:Hfind; simpl.
  - apply step_without.
  - apply step_same.
Qed.

Lemma modify_step (h : Host) (raw sid : option text) (now_ts : Q) (w : World) :
  table_step (db w) (db (snd (modify_execute h raw sid now_ts w))).
Proof.
  unfold modify_execute.
  destruct (re_match _ _) as [m|]; [|apply step_same].
  destruct (target_chat _ _ _) as [chat|]; [|apply step_same].
  destruct (py_float _) as [d|]; [|apply step_same].
  destruct (py_int _ _) as [n|]; [|apply step_same].
  run_cmd.
  destruct (find _ (db w)) as [obj|] eqn:Hfind; [|apply step_same].
  destruct (Qle_bool _ _); simpl.
  - apply step_without.
  - apply step_replaced.
    fold (rewritten obj (Qmax 0.01 (Qmin 5 (count obj + d))) now_ts).
    unfold weight_ok. rewrite count_rewritten. apply clamp_bounds.
Qed.

(** ** The learning loop *)

Lemma update_entry_weight (h : Host) (rows : list Expression) (now_ts : Q)
    (entry : json) (expr : Expression) (info : UpdateInfo) :
  weights_ok rows ->
  update_entry h rows now_ts entry = Applied expr info ->
  weight_ok expr.
Proof.
  intros Hw. unfold update_entry.
  destruct entry as [ | | | | | |kv]; try discriminate.
  destruct (dict_get (lit "id") kv) as [expr_id|]; [|discriminate].
  destruct (negb (truthy expr_id)); [discriminate|].
  destruct (read_id h expr_id) as [ | |z]; try discriminate.
  destruct (find _ rows) as [e|] eqn:Hfind; [|discriminate].
  assert (He : weight_ok e) by (eapply found_weight_ok; eassumption).
  intros H. injection H as <- _.
  unfold weight_ok.
  destruct (match dict_get (lit "new_situation") kv with
            | Some v => if truthy v && differs_from v (situation e) then Some v else None
            | None => None
            end) as [v|]; simpl.
  - apply clamp_bounds.
  - exact He.
Qed.

Lemma update_loop_weights (h : Host) (now_ts : Q) (entries : list json) :
  forall n infos w,
    weights_ok (db w) ->
    weights_ok (db (snd (update_loop h now_ts entries n infos w))).
Proof.
  induction entries as [|entry rest IH]; intros n infos w Hw; simpl.
  - exact Hw.
  - run_cmd.
    destruct (update_entry h (db w) now_ts entry) as [ | |expr info] eqn:He.
    + apply IH. exact Hw.
    + exact Hw.
    + apply IH. simpl. apply weights_ok_replaced; [exact Hw|].
      eapply update_entry_weight; eassumption.
Qed.

Lemma parse_and_update_weights (h : Host) (response : text) (now_ts : Q)
    (w : World) :
  weights_ok (db w) ->
  weights_ok (db (snd (_parse_and_update_expressions_v2 h response now_ts w))).
Proof.
  intros Hw. unfold _parse_and_update_expressions_v2.
  repeat case_step; try exact Hw.
  apply update_loop_weights. exact Hw.
Qed.

Lemma apply_learning_weights (h : Host) (model_name guidance content : text)
    (linked : list Detail) (response : text) (now_ts : Q) (w : World) :
  weights_ok (db w) ->
  weights_ok (db (snd (apply_learning h model_name guidance content linked
                                      response now_ts w))).
Proof.
  intros Hw. unfold apply_learning. run_cmd.
  pose proof (@parse_and_update_weights h response now_ts w Hw) as Hp.
  destruct (_parse_and_update_expressions_v2 h response now_ts w)
    as [[updated_count infos] w'].
  destruct updated_count; exact Hp.
Qed.

Lemma learn_weights (h : Host) (raw sid : option text) (now_ts : Q) (w : World) :
  weights_ok (db w) ->
  weights_ok (db (snd (learn_execute h raw sid now_ts w))).
Proof.
  intros Hw. unfold learn_execute.
  repeat (first [ exact Hw | apply apply_learning_weights; exact Hw | case_step ]).
  all: run_cmd.
  all: repeat (first [ exact Hw | apply apply_learning_weights; exact Hw | case_step ]).
Qed.

(** ** The span of a reply *)













(** ** Chat references *)

Lemma text_eqb_eq (a b : text) : text_eqb a b = true <-> a = b.
Proof.
  unfold text_eqb. destruct (list_eq_dec N.eq_dec a b); split; congruence.
Qed.

Lemma lstrip_by_keep (p : N -> bool) (x : N) (s : text) :
  p x = false -> lstrip_by p (x :: s) = x :: s.
Proof. intros H. simpl. rewrite H. reflexivity. Qed.

Lemma strip_by_clean (p : N -> bool) (s : text) :
  all (fun c => negb (p c)) s -> strip_by p s = s.
Proof.
  intros H. unfold strip_by, rstrip_by.
  assert (Hl : forall t, all (fun c => negb (p c)) t -> lstrip_by p t = t).
  { intros [|x t] Ht; [reflexivity|]. inversion Ht as [|? ? Hx _]; subst.
    apply lstrip_by_keep. destruct (p x); [discriminate|reflexivity]. }
  rewrite (Hl s H). rewrite Hl; [apply rev_involutive|].
  apply Forall_rev. exact H.
Qed.

Lemma hex_not_space (c : N) : is_hex_lower c = true -> negb (is_space c) = true.
Proof.
  unfold is_hex_lower. rewrite orb_true_iff, !andb_true_iff, !N.leb_le.
  intros H. destruct (is_space c) eqn:E; [|reflexivity].
  apply is_space_range in E. lia.
Qed.

Lemma rep_chr_match (p : N -> bool) (k : kont) (c : caps) :
  forall n s rest,
    List.length s = n -> all p s ->
    rmatch (Rep n (Chr p)) (s ++ rest) c k = k rest c.
Proof.
  induction n as [|n IH]; intros s rest Hlen Hall.
  - destruct s; [reflexivity|discriminate].
  - destruct s as [|x s]; [discriminate|].
    inversion Hall as [|? ? Hx Hs]; subst.
    simpl. rewrite Hx. apply IH; [|exact Hs].
    simpl in Hlen. lia.
Qed.

Lemma rep_chr_den (p : N -> bool) :
  forall n s rest c c',
    denotes (Rep n (Chr p)) s rest c c' -> List.length s = n /\ all p s.
Proof.
  induction n as [|n IH]; intros s rest c c' H; simpl in H.
  - destruct H as [-> _]. split; [reflexivity|constructor].
  - destruct H as (s1 & s2 & c1 & -> & (x & -> & Hx & _) & H2).
    apply IH in H2. destruct H2 as [<- H2].
    split; [reflexivity|]. constructor; assumption.
Qed.

Lemma md5_accepts (s : text) :
  List.length s = 32%nat -> all is_hex_lower s ->
  re_fullmatch md5_pattern s = Some [].
Proof.
  intros Hlen Hall. unfold re_fullmatch, md5_pattern.
  rewrite <- (app_nil_r s) at 1.
  rewrite rep_chr_match; auto.
Qed.

Lemma md5_only (s : text) (c : caps) :
  re_fullmatch md5_pattern s = Some c ->
  List.length s = 32%nat /\ all is_hex_lower s.
Proof.
  unfold re_fullmatch, md5_pattern. intros H.
  apply rmatch_sound in H. destruct H as (s1 & s2 & c' & -> & Hd & Hk).
  destruct s2; [|discriminate]. rewrite app_nil_r.
  eapply rep_chr_den. exact Hd.
Qed.

Lemma parse_md5 (h : Host) (token : text) :
  List.length token = 32%nat -> all is_hex_lower token ->
  _parse_stream_config_to_chat_id h token = Some token.
Proof.
  intros Hlen Hall. unfold _parse_stream_config_to_chat_id.
  destruct token as [|x token]; [discriminate|]. simpl truthy_text. simpl negb.
  cbv iota.
  assert (Hs : strip (x :: token) = x :: token).
  { apply strip_by_clean. unfold all in *.
    eapply Forall_impl; [|exact Hall]. intros a. apply hex_not_space. }
  rewrite Hs. rewrite md5_accepts; auto.
Qed.

Lemma parse_other (h : Host) (token : text) :
  token <> [] ->
  ~ (List.length (strip token) = 32%nat /\ all is_hex_lower (strip token)) ->
  _parse_stream_config_to_chat_id h token = selector_parse h (strip token).
Proof.
  intros Hne Hnot. unfold _parse_stream_config_to_chat_id.
  destruct token as [|x token]; [contradiction|]. simpl truthy_text. simpl negb.
  cbv iota.
  destruct (re_fullmatch md5_pattern (strip (x :: token))) as [c|] eqn:E;
    [|reflexivity].
  exfalso. apply Hnot. eapply md5_only. exact E.
Qed.

Lemma target_chat_fallback (h : Host) (chat_spec : text) (stream_id : option text) :
  _parse_stream_config_to_chat_id h chat_spec = None ->
  target_chat h chat_spec stream_id =
    match stream_id with
    | Some sid => if truthy_text sid then Some sid else None
    | None => None
    end.
Proof. intros H. unfold target_chat. rewrite H. reflexivity. Qed.

Lemma target_chat_resolved (h : Host) (chat_spec chat : text)
    (stream_id : option text) :
  _parse_stream_config_to_chat_id h chat_spec = Some chat ->
  target_chat h chat_spec stream_id = Some chat.
Proof. intros H. unfold target_chat. rewrite H. reflexivity. Qed.

(** ** The direct analysis writes nothing *)

Lemma show_analysis_db (h : Host) (message_id content : text)
    (details : list Detail) (response : text) (w : World) :
  db (snd (show_analysis h message_id content details response w)) = db w.
Proof.
  unfold show_analysis. repeat case_step; reflexivity.
Qed.

Lemma msg_execute_db (h : Host) (raw : option text) (w : World) :
  db (snd (msg_execute h raw w)) = db w.
Proof.
  unfold msg_execute.
  repeat (first [ reflexivity | apply show_analysis_db | case_step ]).
  all: cbv beta iota zeta delta [bind read_db ret].
  all: repeat (first [ reflexivity | apply show_analysis_db | case_step ]).
Qed.




(** ** The ids of [selected_expressions] *)

Lemma collect_ids_all_read (h : Host) (parts : list text) :
  Forall (fun t => isdigit h t = true -> py_int h t <> None) (map strip parts) ->
  forall acc, collect_ids h parts acc = acc ++ ints_of h (map strip parts).
Proof.
  unfold ints_of.
  induction parts as [|part rest IH]; intros H acc; simpl.
  - symmetry. apply app_nil_r.
  - inversion H as [|? ? Hpart Hrest]; subst.
    destruct (isdigit h (strip part)) eqn:Hd.
    + destruct (py_int h (strip part)) as [n|] eqn:Hn.
      * rewrite (IH Hrest). simpl. rewrite Hn. rewrite <- app_assoc. reflexivity.
      * exfalso. apply Hpart; reflexivity.
    + simpl. apply IH. exact Hrest.
Qed.


Lemma parse_selected_all_read (h : Host) (s : text) :
  Forall (fun t => isdigit h t = true -> py_int h t <> None) (tokens s) ->
  parse_selected_expressions h s = ints_of h (tokens s).
Proof.
  intros H. unfold parse_selected_expressions.
  destruct s as [|x s]; [reflexivity|].
  simpl truthy_text. cbv iota.
  unfold tokens in *. rewrite collect_ids_all_read by exact H. reflexivity.
Qed.

(** ** Every line the weight command matches is a request *)

Lemma int_from_decimals (h : Host) (s : text) :
  all (is_decimal h) s -> forall acc, exists n, int_from h acc s = Some n.
Proof.
  induction 1 as [|c s Hc _ IH]; intros acc; simpl.
  - exists acc. reflexivity.
  - unfold is_decimal in Hc. destruct (decimal_value h c) as [v|]; [|discriminate].
    apply IH.
Qed.

Lemma py_int_decimals (h : Host) (c : N) (s : text) :
  all (is_decimal h) (c :: s) -> exists n, py_int h (c :: s) = Some n.
Proof. intros H. unfold py_int. apply int_from_decimals. exact H. Qed.

Lemma digits_from_digits (s : text) :
  all is_ascii_digit s -> forall acc, exists n, digits_from acc s = Some n.
Proof.
  induction 1 as [|c s Hc _ IH]; intros acc; simpl.
  - exists acc. reflexivity.
  - rewrite Hc. apply IH.
Qed.

Lemma ascii_digit_not_dot (c : N) : is_ascii_digit c = true -> (c =? 46)%N = false.
Proof.
  unfold is_ascii_digit. rewrite andb_true_iff, !N.leb_le. intros H.
  apply N.eqb_neq. lia.
Qed.

Lemma split_digits (s : text) : all is_ascii_digit s -> split 46 s = [s].
Proof.
  induction 1 as [|c s Hc _ IH]; simpl; [reflexivity|].
  rewrite (ascii_digit_not_dot _ Hc), IH. reflexivity.
Qed.

Lemma split_fraction (i f : text) :
  all is_ascii_digit i -> all is_ascii_digit f ->
  split 46 (i ++ 46%N :: f) = [i; f].
Proof.
  intros Hi Hf. induction Hi as [|c s Hc _ IH]; simpl.
  - rewrite split_digits by exact Hf. reflexivity.
  - rewrite (ascii_digit_not_dot _ Hc), IH. reflexivity.
Qed.

Lemma unsigned_number_text (t r : text) (a b : caps) :
  denotes unsigned_number t r a b ->
  exists x i, all is_ascii_digit (x :: i)
    /\ (t = x :: i
        \/ exists y f, all is_ascii_digit (y :: f) /\ t = (x :: i) ++ 46%N :: y :: f).
Proof.
  unfold unsigned_number, Opt. cbn [denotes].
  intros (s1 & s2 & c1 & -> & H1 & H2).
  apply plus_chr in H1. destruct H1 as [-> (x & i & -> & Hx & Hi)].
  exists x, i. split; [constructor; assumption|].
  destruct H2 as [H2|[-> _]].
  - destruct H2 as (s3 & s4 & c2 & -> & (dot & -> & Hdot & ->) & H4).
    apply plus_chr in H4. destruct H4 as [_ (y & f & -> & Hy & Hf)].
    unfold is_dot in Hdot. apply N.eqb_eq in Hdot. subst dot.
    right. exists y, f. split; [constructor; assumption|reflexivity].
  - left. rewrite app_nil_r. reflexivity.
Qed.

Lemma unsigned_float_reads (t r : text) (a b : caps) :
  denotes unsigned_number t r a b -> exists q, unsigned_float t = Some q.
Proof.
  intros H. apply unsigned_number_text in H.
  destruct H as (x & i & Hi & [->|(y & f & Hf & ->)]); unfold unsigned_float.
  - rewrite split_digits by exact Hi.
    destruct (digits_from_digits Hi 0) as (n & ->). eexists. reflexivity.
  - rewrite split_fraction by assumption.
    assert (Hall : all is_ascii_digit ((x :: i) ++ y :: f))
      by (apply Forall_app; split; assumption).
    destruct (digits_from_digits Hall 0) as (n & ->). eexists. reflexivity.
Qed.

Lemma signed_float_reads (t r : text) (a b : caps) :
  denotes (Seq (Chr is_sign) unsigned_number) t r a b ->
  exists q, py_float t = Some q.
Proof.
  intros (s1 & s2 & c1 & -> & (x & -> & Hx & ->) & H2).
  apply unsigned_float_reads in H2. destruct H2 as (q & Hq).
  unfold is_sign in Hx. apply orb_true_iff in Hx.
  destruct Hx as [Hx|Hx]; apply N.eqb_eq in Hx; subst x; simpl.
  - exists q. exact Hq.
  - rewrite Hq. eexists. reflexivity.
Qed.

Lemma unsigned_number_caps (t r : text) (a b : caps) :
  denotes unsigned_number t r a b -> b = a.
Proof.
  unfold unsigned_number, Opt. cbn [denotes].
  intros (s1 & s2 & c1 & -> & H1 & H2).
  apply plus_chr in H1. destruct H1 as [-> _].
  destruct H2 as [H2|[_ ->]]; [|reflexivity].
  destruct H2 as (s3 & s4 & c2 & -> & (dot & -> & _ & ->) & H4).
  apply plus_chr in H4. destruct H4 as [-> _]. reflexivity.
Qed.

Lemma signed_number_caps (t r : text) (a b : caps) :
  denotes (Seq (Chr is_sign) unsigned_number) t r a b -> b = a.
Proof.
  intros (s1 & s2 & c1 & -> & (x & -> & _ & ->) & H2).
  eapply unsigned_number_caps. exact H2.
Qed.

Lemma weight_line_groups (h : Host) (delta : regex) (s rest : text) (c' : caps) :
  (forall t r a b, denotes delta t r a b -> b = a) ->
  denotes (weight_line h delta) s rest [] c' ->
  exists d ident t r a b,
    group 1 c' = Some (d :: ident) /\ all (is_decimal h) (d :: ident)
    /\ group 2 c' = Some t /\ denotes delta t r a b.
Proof.
  intros Hcaps. unfold weight_line. cbn [Seqs denotes].
  intros (s0 & t0 & c0 & -> & H0 & s1 & t1 & c1 & -> & H1 & s2 & t2 & c2 & -> & H2
          & s3 & t3 & c3 & -> & (c3' & H3 & ->) & s4 & t4 & c4 & -> & H4
          & s5 & t5 & c5 & -> & (c5' & H5 & ->) & s6 & t6 & c6 & -> & H6 & H7).
  destruct H7 as (-> & -> & _).
  apply word_chars in H0. destruct H0 as [-> _].
  apply keyword_den in H1. destruct H1 as [-> _].
  apply plus_chr in H2. destruct H2 as [-> _].
  apply plus_chr in H3. destruct H3 as [-> (d & ident & -> & Hd & Hident)].
  apply plus_chr in H4. destruct H4 as [-> _].
  pose proof (Hcaps _ _ _ _ H5) as ->.
  apply in_chat_groups in H6.
  exists d, ident, s5. do 3 eexists.
  destruct H6 as [->|[t ->]]; (repeat split; [constructor; assumption|exact H5]).
Qed.

Lemma modify_match_is_request (h : Host) (raw sid : option text) (m : caps)
    (chat : text) :
  re_match (modify_pattern h) (or_empty raw) = Some m ->
  target_chat h (or_empty (group 3 m)) sid = Some chat ->
  exists n d, modify_request h raw sid (or_empty (group 1 m)) n d chat.
Proof.
  intros Hm Hchat. pose proof Hm as Hd.
  apply re_match_sound in Hd. destruct Hd as (s1 & s2 & _ & Hd).
  rewrite modify_pattern_weight_line in Hd.
  apply weight_line_groups in Hd; [|apply signed_number_caps].
  destruct Hd as (d & ident & t & r & a & b & Hg1 & Hdec & Hg2 & Hden).
  destruct (py_int_decimals Hdec) as (n & Hn).
  destruct (signed_float_reads Hden) as (q & Hq).
  exists n, q, m. rewrite Hg1, Hg2. simpl or_empty. auto.
Qed.

Lemma replaced_ids (obj : Expression) (rows : list Expression) :
  map id (replaced obj rows) = map id rows.
Proof.
  unfold replaced. induction rows as [|e rows IH]; simpl; [reflexivity|].
  rewrite IH. destruct (Z.eqb_spec (id e) (id obj)) as [E|_]; congruence.
Qed.

Lemma replaced_has (obj e : Expression) (rows : list Expression) :
  In e rows -> id e = id obj -> In obj (replaced obj rows).
Proof.
  intros Hin E. unfold replaced. apply in_map_iff.
  exists e. split; [|exact Hin]. rewrite E, Z.eqb_refl. reflexivity.
Qed.

Lemma execute_step (h : Host) (c : Command) (w : World) :
  weights_ok (db w) -> weights_ok (db (snd (execute h c w))).
Proof.
  intros Hw. destruct c as [raw sid t|raw sid|raw sid t|raw sid t|raw]; simpl.
  - eapply table_step_ok; [exact Hw|]. apply add_step. exact Hw.
  - eapply table_step_ok; [exact Hw|]. apply del_step.
  - eapply table_step_ok; [exact Hw|]. apply modify_step.
  - apply learn_weights. exact Hw.
  - rewrite msg_execute_db. exact Hw.
Qed.

Lemma boost_increases (x : Q) : x < 5 -> x < addDuplicateBoost x.
Proof.
  intros H. unfold addDuplicateBoost. apply Q.min_glb_lt; lra.
Qed.

Lemma boost_exact (x : Q) : x <= 4.9 -> addDuplicateBoost x == x + 0.1.
Proof.
  intros H. unfold addDuplicateBoost. apply Q.min_r. lra.
Qed.


Lemma command_without_target (h : Host) (raw sid : option text) (now_ts : Q)
    (w : World) :
  (forall m, re_match add_pattern (or_empty raw) = Some m ->
     target_chat h (or_empty (group 3 m)) sid = None ->
     add_execute h raw sid now_ts w
     = ((false, NoTargetChat, true),
        mkWorld (db w) (outbox w ++ [(NoTargetChat, true)])))
  /\ (forall m, re_match (del_pattern h) (or_empty raw) = Some m ->
        target_chat h (or_empty (group 2 m)) sid = None ->
        del_execute h raw sid w
        = ((false, NoTargetChat, true),
           mkWorld (db w) (outbox w ++ [(NoTargetChat, true)])))
  /\ (forall m, re_match (modify_pattern h) (or_empty raw) = Some m ->
        target_chat h (or_empty (group 3 m)) sid = None ->
        modify_execute h raw sid now_ts w
        = ((false, NoTargetChat, true),
           mkWorld (db w) (outbox w ++ [(NoTargetChat, false)]))).
Proof.
  repeat split; intros m Hm Ht.
  - unfold add_execute. rewrite Hm, Ht. reflexivity.
  - unfold del_execute. rewrite Hm, Ht. reflexivity.
  - unfold modify_execute. rewrite Hm, Ht. reflexivity.
Qed.

Lemma modify_match_shape (h : Host) (s : text) (c : caps) :
  re_match (modify_pattern h) s = Some c ->
  line_shape h is_sign s
  /\ exists sign rest, group 2 c = Some (sign :: rest) /\ is_sign sign = true.
Proof.
  intros H. apply re_match_sound in H. destruct H as (s1 & s2 & -> & H).
  rewrite modify_pattern_weight_line in H.
  apply weight_line_shape with (first := is_sign) in H; [|apply signed_first].
  destruct H as [Hshape (d & r & a & b & Hg & Hd)].
  split; [exact Hshape|].
  destruct (signed_first Hd) as (e & t' & -> & He).
  exists e, t'. auto.
Qed.

Lemma plain_host_digits : digits_not_spaces plain_host.
Proof. intros c _. reflexivity. Qed.

(** ** Worked examples *)

Example add_line_groups :
  re_match add_pattern (lit "/expr add a b c in qq:1:group w=1.5")
  = Some [(4%nat, lit "1.5"); (3%nat, lit "qq:1:group");
          (2%nat, lit "b c"); (1%nat, lit "a")].
Proof. vm_compute. reflexivity. Qed.

Example weight_line_groups_example :
  re_match (modify_pattern plain_host) (lit "/EXPRESS 12  -1.2 in qq:1:group")
  = Some [(3%nat, lit "qq:1:group"); (2%nat, lit "-1.2"); (1%nat, lit "12")].
Proof. vm_compute. reflexivity. Qed.

(** Adding a new pair with weight 2.0 and adding it again. *)
Example add_then_add_again :
  let add := add_execute plain_host (Some (lit "/expr add sigh alas w=2.0"))
                         (Some (lit "chatC")) in
  let w1 := snd (add 100 (mkWorld [] [])) in
  let w2 := snd (add 200 w1) in
  db w1 = [mkExpression 1 (lit "chatC") (lit "sigh") (lit "alas") 2.0 100
                        (Some 100) (lit "expression")]
  /\ outbox w2 = [(Added, true); (DuplicateBoosted 2.10, true)]
  /\ db w2 = [mkExpression 1 (lit "chatC") (lit "sigh") (lit "alas") 2.10 200
                           (Some 100) (lit "expression")].
Proof. vm_compute. repeat split. Qed.

(** A learning reply that rewrites the situation of row 7. *)
Example learning_rewrites_situation :
  let run := learn_execute (learning_host new_situation_reply)
                           (Some (lit "/expr learn keep it short"))
                           (Some (lit "chatA")) 20 sample_world in
  db (snd run)
  = [mkExpression 7 (lit "chatA") (lit "awe") (lit "wow") (clamp (1 + 0.5)) 20
                  (Some 10) (lit "expression")]
  /\ exists infos,
       fst run = (true, Learned (lit "utils-model") 1 (lit "keep it short") infos,
                  true).
Proof. vm_compute. split; [reflexivity|]. eexists. reflexivity. Qed.

(** The direct analysis of the stored message [m1]. *)
Example message_analysis :
  msg_execute (learning_host []) (Some (lit "/expr msg m1")) sample_world
  = ((true,
      Analysis (lit "m1") (lit "wow, really")
        (mkReport [(Some (JInt 7),
                    Some (mkDetail 7 (lit "surprise") (lit "wow") 1),
                    default_judgement)]
                  [] (JStr [])),
      true),
     mkWorld [sample_row]
       [(Analysis (lit "m1") (lit "wow, really")
           (mkReport [(Some (JInt 7),
                       Some (mkDetail 7 (lit "surprise") (lit "wow") 1),
                       default_judgement)]
                     [] (JStr [])),
         true)]).
Proof. vm_compute. reflexivity. Qed.

(** * The properties of the specification *)

(** C1. Every command keeps the weight invariant of the table: when every
    stored weight lies in [0.01, 5.0] before a command (an add, a repeated
    add, a weight adjustment, a learning rewrite, or any other command),
    every stored weight lies in [0.01, 5.0] after it.  A weight adjustment
    that would bring the weight of its row to 0 or below leaves no row of
    that id in the table. *)
Theorem weight_invariant (h : Host) (c : Command) (w : World) :
  weights_ok (db w) ->
  weights_ok (db (snd (execute h c w)))
  /\ forall raw sid now_ts id_str n d chat expr,
       c = CmdModify raw sid now_ts ->
       modify_request h raw sid id_str n d chat ->
       find (fun e => (id e =? n)%Z && text_eqb (chat_id e) chat) (db w)
         = Some expr ->
       count expr + d <= 0 ->
       ~ In (id expr) (map id (db (snd (execute h c w)))).
Proof.
  intros Hw. split; [apply execute_step; exact Hw|].
  intros raw sid now_ts id_str n d chat expr -> Hreq Hfind Hle. simpl.
  erewrite modify_execute_found by eassumption.
  apply Qle_bool_iff in Hle. rewrite Hle. simpl.
  apply without_absent.
Qed.

Lemma weight_invariant_witness :
  weights_ok
    (db (snd (execute plain_host
                (CmdAdd (Some (lit "/expr add surprise wow in chatA w=3"))
                        (Some (lit "chatA")) 20)
                sample_world))).
Proof.
  apply (@weight_invariant plain_host
           (CmdAdd (Some (lit "/expr add surprise wow in chatA w=3"))
                   (Some (lit "chatA")) 20)
           sample_world).
  repeat constructor; vm_compute; discriminate.
Defined.



(** C3. An add command whose (chat, situation, style) triple is already in
    the table creates no row: the table keeps its ids, and the row found is
    written back with weight [min(5.0, w + 0.1)], which is above [w] as long
    as [w] is below the cap and is [w + 0.1] as long as that does not pass
    the cap.  The weight the command supplies plays no part: every add
    command for the same triple leaves the same table. *)
Theorem add_duplicate_boosts (h : Host) (raw sid : option text) (now_ts : Q)
    (w : World) (situation0 style0 chat : text) (obj : Expression) :
  add_request h raw sid situation0 style0 chat ->
  find (same_triple chat situation0 style0) (db w) = Some obj ->
  let w' := snd (add_execute h raw sid now_ts w) in
  let obj' := rewritten obj (addDuplicateBoost (count obj)) now_ts in
  succeeded (fst (add_execute h raw sid now_ts w)) = true
  /\ db w' = replaced obj' (db w)
  /\ map id (db w') = map id (db w)
  /\ List.length (db w') = List.length (db w)
  /\ In obj' (db w')
  /\ count obj' = addDuplicateBoost (count obj)
  /\ addDuplicateBoost (count obj) <= 5
  /\ (count obj < 5 -> count obj < addDuplicateBoost (count obj))
  /\ (count obj <= 4.9 -> addDuplicateBoost (count obj) == count obj + 0.1)
  /\ (forall raw2 sid2,
        add_request h raw2 sid2 situation0 style0 chat ->
        db (snd (add_execute h raw2 sid2 now_ts w)) = db w').
Proof.
  intros Hreq Hfind w' obj'. subst w' obj'.
  erewrite add_execute_found by eassumption.
  fold (addDuplicateBoost (count obj)). simpl.
  repeat split.
  - apply replaced_ids.
  - unfold replaced. apply length_map.
  - apply find_some in Hfind. destruct Hfind as [Hin _].
    eapply replaced_has; [exact Hin|]. symmetry. apply id_rewritten.
  - apply count_rewritten.
  - apply Q.le_min_l.
  - apply boost_increases.
  - apply boost_exact.
  - intros raw2 sid2 Hreq2.
    erewrite add_execute_found by eassumption. reflexivity.
Qed.

Lemma add_duplicate_boosts_witness :
  let w' := snd (add_execute plain_host
                   (Some (lit "/expr add surprise wow w=4.5"))
                   (Some (lit "chatA")) 20 sample_world) in
  map id (db w') = map id (db sample_world)
  /\ map count (db w') = [addDuplicateBoost 1].
Proof.
  pose proof (@add_duplicate_boosts plain_host
                (Some (lit "/expr add surprise wow w=4.5"))
                (Some (lit "chatA")) 20 sample_world
                (lit "surprise") (lit "wow") (lit "chatA") sample_row) as H.
  cbv zeta in H.
  destruct H as (_ & Hdb & Hids & _).
  - eexists. repeat split; vm_compute; reflexivity.
  - vm_compute. reflexivity.
  - split; [exact Hids|]. rewrite Hdb. vm_compute. reflexivity.
Defined.

(** C4, as the specification states it, does not hold: an entry whose
    [new_situation] equals the stored situation gets no boost, but it is
    counted as updated. *)
Lemma unchanged_entry_is_counted :
  let run := _parse_and_update_expressions_v2
               (learning_host same_situation_reply) same_situation_reply 20
               sample_world in
  fst (fst run) = 1%nat
  /\ map count (db (snd run)) = [count sample_row]
  /\ map situation (db (snd run)) = [situation sample_row]
  /\ exists infos,
       message (fst (learn_execute (learning_host same_situation_reply)
                                   (Some (lit "/expr learn"))
                                   (Some (lit "chatA")) 20 sample_world))
       = Learned (lit "utils-model") 1 [] infos.
Proof.
  vm_compute. repeat split. eexists. reflexivity.
Qed.

(** C4, amended. For an entry of the learning reply that names a row of the
    table: the row is written back with the time of the run and counted as
    updated in every case; when the entry proposes no change (no
    [new_situation], a false one, or the stored text) the weight and the
    situation stay as they were; the weight becomes [clamp (w + 0.5)]
    exactly when the entry proposes a situation that differs. *)
Theorem learning_entry_effect (h : Host) (rows : list Expression) (now_ts : Q)
    (kv : list (text * json)) (expr_id : json) (z : Z) (expr : Expression) :
  dict_get (lit "id") kv = Some expr_id ->
  truthy expr_id = true ->
  read_id h expr_id = IsId z ->
  find (fun e => (id e =? z)%Z) rows = Some expr ->
  exists expr' info,
    update_entry h rows now_ts (JObj kv) = Applied expr' info
    /\ id expr' = id expr
    /\ last_active_time expr' = now_ts
    /\ (proposes_change kv (situation expr) = false ->
        count expr' = count expr /\ situation expr' = situation expr)
    /\ (proposes_change kv (situation expr) = true ->
        count expr' = clamp (count expr + 0.5))
    /\ forall rest n infos w,
         db w = rows ->
         update_loop h now_ts (JObj kv :: rest) n infos w
         = update_loop h now_ts rest (S n) (infos ++ [info])
                       (mkWorld (replaced expr' rows) (outbox w)).
Proof.
  intros Hid Htrue Hread Hfind.
  unfold update_entry. rewrite Hid, Htrue, Hread, Hfind. simpl negb. cbv iota.
  unfold proposes_change.
  destruct (dict_get (lit "new_situation") kv) as [v|] eqn:Hns.
  - destruct (truthy v && differs_from v (situation expr)) eqn:Hch.
    + do 2 eexists. split; [reflexivity|]. simpl.
      repeat split; try discriminate.
      intros rest n infos w Hw. subst rows. simpl.
      cbv beta iota zeta delta [bind read_db ret save write_db].
      unfold update_entry.
      rewrite Hid, Htrue, Hread, Hfind. simpl negb. cbv iota.
      rewrite Hns, Hch. reflexivity.
    + do 2 eexists. split; [reflexivity|]. simpl.
      repeat split; try discriminate.
      intros rest n infos w Hw. subst rows. simpl.
      cbv beta iota zeta delta [bind read_db ret save write_db].
      unfold update_entry.
      rewrite Hid, Htrue, Hread, Hfind. simpl negb. cbv iota.
      rewrite Hns, Hch. reflexivity.
  - do 2 eexists. split; [reflexivity|]. simpl.
    repeat split; try discriminate.
    intros rest n infos w Hw. subst rows. simpl.
    cbv beta iota zeta delta [bind read_db ret save write_db].
    unfold update_entry.
    rewrite Hid, Htrue, Hread, Hfind. simpl negb. cbv iota.
    rewrite Hns. reflexivity.
Qed.

Lemma learning_entry_effect_witness :
  exists expr' info,
    update_entry plain_host [sample_row] 20
      (JObj [(lit "id", JInt 7); (lit "new_situation", JStr (lit "awe"))])
    = Applied expr' info
    /\ count expr' = clamp (count sample_row + 0.5).
Proof.
  destruct (@learning_entry_effect plain_host [sample_row] 20
              [(lit "id", JInt 7); (lit "new_situation", JStr (lit "awe"))]
              (JInt 7) 7%Z sample_row)
    as (expr' & info & Hup & _ & _ & _ & Hboost & _);
    try (vm_compute; reflexivity).
  exists expr', info. split; [exact Hup|].
  apply Hboost. vm_compute. reflexivity.
Defined.







(** C7, as the specification states it, does not hold: the commands fall
    back to the chat of the message also when a chat reference was given and
    did not resolve.
    [in garbage], which is no [platform:id:type] triple, adds the row to the
    chat the command was sent in. *)
Lemma explicit_reference_falls_back :
  lit "garbage" <> []
  /\ _parse_stream_config_to_chat_id plain_host (lit "garbage") = None
  /\ target_chat plain_host (lit "garbage") (Some (lit "here"))
     = Some (lit "here")
  /\ map chat_id
         (db (snd (add_execute plain_host
                     (Some (lit "/expr add surprise wow in garbage"))
                     (Some (lit "here")) 20 (mkWorld [] []))))
     = [lit "here"].
Proof.
  vm_compute. repeat split. discriminate.
Qed.

(** C7, amended.  A token of 32 lowercase hexadecimal characters resolves to
    itself; any other non-empty token resolves to what the host's
    normaliser makes of it, stripped, which is unresolved for a malformed
    one; the empty token is unresolved.  Whenever the reference is
    unresolved, given or not, the command takes the chat it was sent in, and
    when there is none it fails with the no-target-chat message and writes
    nothing. *)
Theorem chat_resolution (h : Host) (token : text) (stream_id : option text) :
  (List.length token = 32%nat -> all is_hex_lower token ->
   _parse_stream_config_to_chat_id h token = Some token)
  /\ (token <> [] ->
      ~ (List.length (strip token) = 32%nat /\ all is_hex_lower (strip token)) ->
      _parse_stream_config_to_chat_id h token = selector_parse h (strip token))
  /\ _parse_stream_config_to_chat_id h [] = None
  /\ (forall chat, _parse_stream_config_to_chat_id h token = Some chat ->
        target_chat h token stream_id = Some chat)
  /\ (_parse_stream_config_to_chat_id h token = None ->
      target_chat h token stream_id
      = match stream_id with
        | Some sid => if truthy_text sid then Some sid else None
        | None => None
        end)
  /\ (forall raw now_ts w,
        (forall m, re_match add_pattern (or_empty raw) = Some m ->
           target_chat h (or_empty (group 3 m)) stream_id = None ->
           add_execute h raw stream_id now_ts w
           = ((false, NoTargetChat, true),
              mkWorld (db w) (outbox w ++ [(NoTargetChat, true)])))
        /\ (forall m, re_match (del_pattern h) (or_empty raw) = Some m ->
              target_chat h (or_empty (group 2 m)) stream_id = None ->
              del_execute h raw stream_id w
              = ((false, NoTargetChat, true),
                 mkWorld (db w) (outbox w ++ [(NoTargetChat, true)])))
        /\ (forall m, re_match (modify_pattern h) (or_empty raw) = Some m ->
              target_chat h (or_empty (group 3 m)) stream_id = None ->
              modify_execute h raw stream_id now_ts w
              = ((false, NoTargetChat, true),
                 mkWorld (db w) (outbox w ++ [(NoTargetChat, false)])))).
Proof.
  split; [apply parse_md5|].
  split; [apply parse_other|].
  split; [reflexivity|].
  split; [intros chat; apply target_chat_resolved|].
  split; [apply target_chat_fallback|].
  intros raw now_ts w. apply command_without_target.
Qed.

Lemma chat_resolution_witness :
  _parse_stream_config_to_chat_id plain_host
    (lit "0123456789abcdef0123456789abcdef")
  = Some (lit "0123456789abcdef0123456789abcdef")
  /\ _parse_stream_config_to_chat_id plain_host (lit "qq:1:group")
     = selector_parse plain_host (lit "qq:1:group")
  /\ target_chat plain_host (lit "a:b") None = None.
Proof.
  destruct (@chat_resolution plain_host (lit "0123456789abcdef0123456789abcdef")
              None) as (H1 & _).
  destruct (@chat_resolution plain_host (lit "qq:1:group") None)
    as (_ & H2 & _).
  destruct (@chat_resolution plain_host (lit "a:b") None)
    as (_ & _ & _ & _ & H3 & _).
  split; [|split].
  - apply H1; [reflexivity|]. vm_compute. repeat constructor.
  - apply H2; [discriminate|]. vm_compute. intros [E _]. discriminate.
  - apply H3. vm_compute. reflexivity.
Defined.


(** C9. The weight command matches only a line whose delta token starts
    with [+] or [-]: the second group of every match does.  A line that has
    an unsigned number in the delta position (it matches the pattern with
    the sign left out) is not matched, and the command answers with its
    usage text without touching the table. *)
Theorem modify_requires_signed_delta (h : Host) (s : text) :
  (forall c, re_match (modify_pattern h) s = Some c ->
     exists sign rest,
       group 2 c = Some (sign :: rest) /\ (sign = 43%N \/ sign = 45%N))
  /\ (digits_not_spaces h ->
      re_match (unsigned_delta_pattern h) s <> None ->
      re_match (modify_pattern h) s = None
      /\ forall stream_id now_ts w,
           modify_execute h (Some s) stream_id now_ts w
           = ((false, UsageModify, true),
              mkWorld (db w) (outbox w ++ [(UsageModify, false)]))).
Proof.
  split.
  - intros c H. apply modify_match_shape in H.
    destruct H as [_ (sign & rest & Hg & Hs)].
    exists sign, rest. split; [exact Hg|].
    unfold is_sign in Hs. apply orb_true_iff in Hs.
    destruct Hs as [Hs|Hs]; apply N.eqb_eq in Hs; auto.
  - intros Hh Hu.
    assert (Hnone : re_match (modify_pattern h) s = None).
    { destruct (re_match (modify_pattern h) s) as [c|] eqn:Hm; [|reflexivity].
      exfalso. apply modify_match_shape in Hm. destruct Hm as [Hsigned _].
      destruct (re_match (unsigned_delta_pattern h) s) as [c'|] eqn:Hu';
        [|congruence].
      apply re_match_sound in Hu'. destruct Hu' as (s1 & s2 & -> & Hd).
      rewrite unsigned_delta_weight_line in Hd.
      apply weight_line_shape with (first := is_ascii_digit) in Hd;
        [|apply unsigned_first].
      destruct Hd as [Hunsigned _].
      exact (shapes_disjoint Hh Hunsigned Hsigned). }
    split; [exact Hnone|].
    intros stream_id now_ts w. unfold modify_execute.
    change (or_empty (Some s)) with s. rewrite Hnone. reflexivity.
Qed.

Lemma modify_requires_signed_delta_witness :
  re_match (modify_pattern plain_host) (lit "/expr 12 0.5") = None
  /\ exists sign rest,
       group 2 [(2%nat, lit "+0.5"); (1%nat, lit "12")] = Some (sign :: rest)
       /\ (sign = 43%N \/ sign = 45%N).
Proof.
  split.
  - apply (proj2 (modify_requires_signed_delta plain_host (lit "/expr 12 0.5"))).
    + exact plain_host_digits.
    + vm_compute. discriminate.
  - apply (proj1 (modify_requires_signed_delta plain_host (lit "/expr 12 +0.5"))).
    vm_compute. reflexivity.
Defined.

(** C10. The del command removes the row of the id it is given whatever the
    chat of that row, the target chat only has to resolve; the weight command
    looks its row up by id and target chat together, so the row it finds has
    both, and when no row has both it answers not-found and leaves the
    table as it was. *)
Theorem delete_by_id_modify_by_id_and_chat (h : Host) (w : World) :
  (forall raw sid id_str n chat expr,
     del_request h raw sid id_str n chat ->
     find (fun e => (id e =? n)%Z) (db w) = Some expr ->
     del_execute h raw sid w
       = ((true, Deleted id_str, true),
          mkWorld (without n (db w)) (outbox w ++ [(Deleted id_str, true)]))
     /\ ~ In n (map id (without n (db w))))
  /\ (forall raw sid now_ts id_str n d chat,
        modify_request h raw sid id_str n d chat ->
        (forall expr,
           find (fun e => (id e =? n)%Z && text_eqb (chat_id e) chat) (db w)
             = Some expr ->
           id expr = n /\ chat_id expr = chat)
        /\ ((forall e, In e (db w) -> id e = n -> chat_id e <> chat) ->
            modify_execute h raw sid now_ts w
              = ((false, ModifyNotFound, true),
                 mkWorld (db w) (outbox w ++ [(ModifyNotFound, false)])))).
Proof.
  split.
  - intros raw sid id_str n chat expr Hreq Hfind. split.
    + eapply del_execute_found; eassumption.
    + apply without_absent.
  - intros raw sid now_ts id_str n d chat Hreq. split.
    + intros expr Hfind. apply find_some in Hfind. destruct Hfind as [_ H].
      apply andb_true_iff in H. destruct H as [H1 H2].
      apply Z.eqb_eq in H1. apply text_eqb_eq in H2. auto.
    + intros Hnone. eapply modify_execute_not_found; [eassumption|].
      destruct (find _ (db w)) as [e|] eqn:Hfind; [|reflexivity].
      exfalso. apply find_some in Hfind. destruct Hfind as [Hin H].
      apply andb_true_iff in H. destruct H as [H1 H2].
      apply Z.eqb_eq in H1. apply text_eqb_eq in H2.
      exact (Hnone e Hin H1 H2).
Qed.

Lemma delete_by_id_modify_by_id_and_chat_witness :
  db (snd (del_execute plain_host (Some (lit "/expr del 7"))
                       (Some (lit "chatB")) sample_world)) = []
  /\ modify_execute plain_host (Some (lit "/expr 7 +0.5"))
                    (Some (lit "chatB")) 20 sample_world
     = ((false, ModifyNotFound, true),
        mkWorld [sample_row] [(ModifyNotFound, false)]).
Proof.
  destruct (@delete_by_id_modify_by_id_and_chat plain_host sample_world)
    as [Hdel Hmod].
  split.
  - destruct (Hdel (Some (lit "/expr del 7")) (Some (lit "chatB")) (lit "7")
                7%Z (lit "chatB") sample_row) as [E _].
    + eexists. repeat split; vm_compute; reflexivity.
    + vm_compute. reflexivity.
    + rewrite E. vm_compute. reflexivity.
  - destruct (Hmod (Some (lit "/expr 7 +0.5")) (Some (lit "chatB")) 20
                (lit "7") 7%Z (5 # 10) (lit "chatB")) as [_ E].
    + eexists. repeat split; vm_compute; reflexivity.
    + apply E. intros e [<-|[]] _. vm_compute. discriminate.
Defined.


(** * Further properties of the code *)

(** ** The numbers of a matched line are read *)

Lemma del_line_groups (h : Host) (s rest : text) (c' : caps) :
  denotes (del_pattern h) s rest [] c' ->
  exists d ident,
    group 1 c' = Some (d :: ident) /\ all (is_decimal h) (d :: ident).
Proof.
  unfold del_pattern. cbn [Seqs denotes].
  intros (s0 & t0 & c0 & -> & H0 & s1 & t1 & c1 & -> & H1 & s2 & t2 & c2 & -> & H2
          & s3 & t3 & c3 & -> & H3 & s4 & t4 & c4 & -> & H4
          & s5 & t5 & c5 & -> & (c5' & H5 & ->) & s6 & t6 & c6 & -> & H6 & H7).
  destruct H7 as (-> & -> & _).
  apply word_chars in H0. destruct H0 as [-> _].
  apply keyword_den in H1. destruct H1 as [-> _].
  apply plus_chr in H2. destruct H2 as [-> _].
  apply word_chars in H3. destruct H3 as [-> _].
  apply plus_chr in H4. destruct H4 as [-> _].
  apply plus_chr in H5. destruct H5 as [-> (d & ident & -> & Hd & Hident)].
  apply in_chat_groups in H6.
  exists d, ident.
  destruct H6 as [->|[t ->]]; (split; [reflexivity|constructor; assumption]).
Qed.

Lemma del_match_number (h : Host) (s : text) (m : caps) :
  re_match (del_pattern h) s = Some m ->
  exists n, py_int h (or_empty (group 1 m)) = Some n.
Proof.
  intros Hm. apply re_match_sound in Hm. destruct Hm as (s1 & s2 & _ & Hd).
  apply del_line_groups in Hd. destruct Hd as (d & ident & -> & Hdec).
  apply py_int_decimals. exact Hdec.
Qed.

Lemma modify_match_numbers (h : Host) (s : text) (m : caps) :
  re_match (modify_pattern h) s = Some m ->
  exists n d,
    py_int h (or_empty (group 1 m)) = Some n
    /\ py_float (or_empty (group 2 m)) = Some d.
Proof.
  intros Hm. apply re_match_sound in Hm. destruct Hm as (s1 & s2 & _ & Hd).
  rewrite modify_pattern_weight_line in Hd.
  apply weight_line_groups in Hd; [|apply signed_number_caps].
  destruct Hd as (d & ident & t & r & a & b & -> & Hdec & -> & Hden).
  destruct (py_int_decimals Hdec) as (n & Hn).
  destruct (signed_float_reads Hden) as (q & Hq).
  exists n, q. auto.
Qed.

(** ** One answer for each command *)

Lemma update_loop_outbox (h : Host) (now_ts : Q) (entries : list json) :
  forall n infos w,
    outbox (snd (update_loop h now_ts entries n infos w)) = outbox w.
Proof.
  induction entries as [|entry rest IH]; intros n infos w; simpl.
  - reflexivity.
  - run_cmd. destruct (update_entry h (db w) now_ts entry); try reflexivity.
    + apply IH.
    + rewrite IH. reflexivity.
Qed.

Lemma parse_and_update_outbox (h : Host) (response : text) (now_ts : Q)
    (w : World) :
  outbox (snd (_parse_and_update_expressions_v2 h response now_ts w)) = outbox w.
Proof.
  unfold _parse_and_update_expressions_v2.
  destruct (json_span response) as [t|]; [|reflexivity].
  destruct (loads_with_repair h t) as [[ | | | | | |data]|]; try reflexivity.
  destruct (dict_get (lit "expressions") data) as [[ | | | | |entries| ]|];
    try reflexivity.
  apply update_loop_outbox.
Qed.


Lemma reply_answered (ok : bool) (m : Msg) (st : bool) (w : World) :
  answered (fst (reply ok m st w)) w (snd (reply ok m st w)).
Proof. exists st. reflexivity. Qed.

Lemma apply_learning_answered (h : Host) (model_name guidance content : text)
    (linked : list Detail) (response : text) (now_ts : Q) (w : World) :
  answered (fst (apply_learning h model_name guidance content linked response now_ts w))
           w
           (snd (apply_learning h model_name guidance content linked response now_ts w))
  /\ succeeded (fst (apply_learning h model_name guidance content linked
                                    response now_ts w)) = true.
Proof.
  unfold apply_learning. cbv beta iota zeta delta [bind].
  pose proof (parse_and_update_outbox h response now_ts w) as Ho.
  destruct (_parse_and_update_expressions_v2 h response now_ts w)
    as [[updated_count infos] w1].
  simpl in Ho. unfold answered.
  destruct updated_count; simpl; rewrite Ho; split; eauto.
Qed.


Ltac leaf :=
  unfold orderly, answered; simpl;
  repeat split; try discriminate; try reflexivity; eauto.

Lemma add_orderly (h : Host) (raw sid : option text) (t : Q) (w : World) :
  orderly (fst (add_execute h raw sid t w)) w (snd (add_execute h raw sid t w)).
Proof.
  unfold add_execute.
  destruct (re_match add_pattern (or_empty raw)) as [m|]; [|leaf].
  destruct (target_chat h (or_empty (group 3 m)) sid) as [chat|]; [|leaf].
  run_cmd. destruct (find _ (db w)) as [obj|]; leaf.
Qed.

Lemma del_orderly (h : Host) (raw sid : option text) (w : World) :
  orderly (fst (del_execute h raw sid w)) w (snd (del_execute h raw sid w)).
Proof.
  unfold del_execute.
  destruct (re_match (del_pattern h) (or_empty raw)) as [m|] eqn:Hm; [|leaf].
  destruct (target_chat h (or_empty (group 2 m)) sid) as [chat|]; [|leaf].
  destruct (del_match_number _ _ Hm) as (n & ->).
  run_cmd. destruct (find _ (db w)) as [obj|]; leaf.
Qed.

Lemma modify_orderly (h : Host) (raw sid : option text) (t : Q) (w : World) :
  orderly (fst (modify_execute h raw sid t w)) w
          (snd (modify_execute h raw sid t w)).
Proof.
  unfold modify_execute.
  destruct (re_match (modify_pattern h) (or_empty raw)) as [m|] eqn:Hm; [|leaf].
  destruct (target_chat h (or_empty (group 3 m)) sid) as [chat|]; [|leaf].
  destruct (modify_match_numbers _ _ Hm) as (n & d & -> & ->).
  run_cmd. destruct (find _ (db w)) as [obj|]; [|leaf].
  destruct (Qle_bool (count obj + d) 0); leaf.
Qed.

Lemma show_analysis_orderly (h : Host) (message_id content : text)
    (details : list Detail) (response : text) (w : World) :
  orderly (fst (show_analysis h message_id content details response w)) w
          (snd (show_analysis h message_id content details response w)).
Proof.
  unfold show_analysis. repeat case_step; leaf.
Qed.

Lemma msg_orderly (h : Host) (raw : option text) (w : World) :
  orderly (fst (msg_execute h raw w)) w (snd (msg_execute h raw w)).
Proof.
  unfold msg_execute.
  repeat (first [ apply show_analysis_orderly | case_step ]); try leaf.
  all: cbv beta iota zeta delta [bind read_db ret].
  all: repeat (first [ apply show_analysis_orderly | case_step ]); try leaf.
Qed.

Lemma apply_learning_orderly (h : Host) (model_name guidance content : text)
    (linked : list Detail) (response : text) (now_ts : Q) (w : World) :
  orderly (fst (apply_learning h model_name guidance content linked response now_ts w))
          w
          (snd (apply_learning h model_name guidance content linked response now_ts w)).
Proof.
  destruct (apply_learning_answered h model_name guidance content linked
                                    response now_ts w) as [Ha Hs].
  unfold orderly. split; [exact Ha|].
  unfold apply_learning in *. cbv beta iota zeta delta [bind] in *.
  destruct (_parse_and_update_expressions_v2 h response now_ts w)
    as [[updated_count infos] w1].
  destruct updated_count; simpl in *; repeat split; try discriminate.
Qed.

Lemma learn_orderly (h : Host) (raw sid : option text) (t : Q) (w : World) :
  orderly (fst (learn_execute h raw sid t w)) w (snd (learn_execute h raw sid t w)).
Proof.
  unfold learn_execute.
  repeat (first [ apply apply_learning_orderly | case_step ]); try leaf.
  all: cbv beta iota zeta delta [bind read_db ret].
  all: repeat (first [ apply apply_learning_orderly | case_step ]); try leaf.
Qed.

Lemma execute_orderly (h : Host) (c : Command) (w : World) :
  orderly (fst (execute h c w)) w (snd (execute h c w)).
Proof.
  destruct c; simpl.
  - apply add_orderly.
  - apply del_orderly.
  - apply modify_orderly.
  - apply learn_orderly.
  - apply msg_orderly.
Qed.


(** X2. A command that returns [False] as its first component has written
    nothing: the table after it is the table before it. *)
Theorem failed_command_writes_nothing (h : Host) (c : Command) (w : World) :
  succeeded (fst (execute h c w)) = false ->
  db (snd (execute h c w)) = db w.
Proof.
  destruct (execute_orderly h c w) as (_ & _ & _ & _ & Hdb). exact Hdb.
Qed.

Lemma failed_command_writes_nothing_witness :
  db (snd (execute plain_host
             (CmdDel (Some (lit "/expr del 9")) (Some (lit "chatA")))
             sample_world))
  = db sample_world.
Proof.
  apply (@failed_command_writes_nothing plain_host
           (CmdDel (Some (lit "/expr del 9")) (Some (lit "chatA")))
           sample_world).
  vm_compute. reflexivity.
Defined.


(** ** Row ids stay different *)



Lemma unique_ids_replaced (obj : Expression) (rows : list Expression) :
  unique_ids rows -> unique_ids (replaced obj rows).
Proof. unfold unique_ids. rewrite replaced_ids. auto. Qed.



Lemma unique_row (rows : list Expression) (x y : Expression) :
  unique_ids rows -> In x rows -> In y rows -> id x = id y -> x = y.
Proof.
  unfold unique_ids. induction rows as [|e rows IH]; intros H Hx Hy E;
    [destruct Hx|].
  simpl in H. inversion H as [|? ? Hnot Hrest]; subst.
  destruct Hx as [->|Hx], Hy as [->|Hy]; auto.
  - exfalso. apply Hnot. rewrite E. apply in_map. exact Hy.
  - exfalso. apply Hnot. rewrite <- E. apply in_map. exact Hx.
Qed.

(** ** What the learning step may change *)

Lemma frame_refl (e : Expression) : learned_from e e.
Proof. unfold learned_from. repeat split; try reflexivity. apply Qle_refl. Qed.

Lemma frame_trans (a b c : Expression) :
  learned_from a b -> learned_from b c -> learned_from a c.
Proof.
  unfold learned_from.
  intros (A1 & A2 & A3 & A4 & A5 & A6) (B1 & B2 & B3 & B4 & B5 & B6).
  repeat split; try congruence. eapply Qle_trans; eassumption.
Qed.

Lemma Forall2_frame_refl (rows : list Expression) :
  Forall2 learned_from rows rows.
Proof. induction rows; constructor; auto using frame_refl. Qed.

Lemma Forall2_frame_trans (a b c : list Expression) :
  Forall2 learned_from a b -> Forall2 learned_from b c ->
  Forall2 learned_from a c.
Proof.
  intros H. revert c. induction H as [|x y a b Hxy _ IH]; intros c Hbc;
    inversion Hbc; subst; constructor; eauto using frame_trans.
Qed.

Lemma replaced_frame (obj e : Expression) (rows : list Expression) :
  unique_ids rows -> In e rows -> learned_from e obj ->
  Forall2 learned_from rows (replaced obj rows).
Proof.
  intros Hu Hin Hf. unfold replaced.
  assert (Hall : forall x, In x rows ->
            learned_from x (if (id x =? id obj)%Z then obj else x)).
  { intros x Hx. destruct (Z.eqb_spec (id x) (id obj)) as [E|_];
      [|apply frame_refl].
    assert (x = e) as ->; [|exact Hf].
    eapply unique_row; eauto. destruct Hf as (E' & _). congruence. }
  clear Hu Hin Hf. induction rows as [|x rows IH]; simpl; constructor.
  - apply Hall. left. reflexivity.
  - apply IH. intros y Hy. apply Hall. right. exact Hy.
Qed.

Lemma boost_not_below (x : Q) : x <= 5 -> x <= Qmax 0.01 (Qmin 5 (x + 0.5)).
Proof.
  intros H. eapply Qle_trans; [|apply Q.le_max_r].
  apply Q.min_glb; lra.
Qed.

Lemma update_entry_frame (h : Host) (rows : list Expression) (now_ts : Q)
    (entry : json) (expr : Expression) (info : UpdateInfo) :
  weights_ok rows ->
  update_entry h rows now_ts entry = Applied expr info ->
  exists e, In e rows /\ learned_from e expr.
Proof.
  intros Hw. unfold update_entry.
  destruct entry as [ | | | | | |kv]; try discriminate.
  destruct (dict_get (lit "id") kv) as [expr_id|]; [|discriminate].
  destruct (negb (truthy expr_id)); [discriminate|].
  destruct (read_id h expr_id) as [ | |z]; try discriminate.
  destruct (find _ rows) as [e|] eqn:Hfind; [|discriminate].
  assert (He : weight_ok e) by (eapply found_weight_ok; eassumption).
  apply find_some in Hfind. destruct Hfind as [Hin _].
  intros H. injection H as <- _. exists e. split; [exact Hin|].
  unfold learned_from.
  destruct (match dict_get (lit "new_situation") kv with
            | Some v => if truthy v && differs_from v (situation e) then Some v else None
            | None => None
            end) as [v|]; simpl; repeat split.
  - apply boost_not_below. apply He.
  - apply Qle_refl.
Qed.

Lemma update_loop_frame (h : Host) (now_ts : Q) (entries : list json) :
  forall n infos w,
    unique_ids (db w) -> weights_ok (db w) ->
    Forall2 learned_from (db w) (db (snd (update_loop h now_ts entries n infos w))).
Proof.
  induction entries as [|entry rest IH]; intros n infos w Hu Hw; simpl.
  - apply Forall2_frame_refl.
  - run_cmd.
    destruct (update_entry h (db w) now_ts entry) as [ | |expr info] eqn:He.
    + apply IH; assumption.
    + apply Forall2_frame_refl.
    + destruct (@update_entry_frame h (db w) now_ts entry expr info Hw He)
        as (e & Hin & Hf).
      eapply Forall2_frame_trans.
      * eapply replaced_frame; eassumption.
      * apply (IH (S n) (infos ++ [info])
                    (mkWorld (replaced expr (db w)) (outbox w))); simpl.
        -- apply unique_ids_replaced. exact Hu.
        -- apply weights_ok_replaced; [exact Hw|].
           eapply update_entry_weight; eassumption.
Qed.

Lemma parse_and_update_frame (h : Host) (response : text) (now_ts : Q)
    (w : World) :
  unique_ids (db w) -> weights_ok (db w) ->
  Forall2 learned_from (db w)
          (db (snd (_parse_and_update_expressions_v2 h response now_ts w))).
Proof.
  intros Hu Hw. unfold _parse_and_update_expressions_v2.
  repeat case_step; try apply Forall2_frame_refl.
  apply update_loop_frame; assumption.
Qed.

Lemma apply_learning_frame (h : Host) (model_name guidance content : text)
    (linked : list Detail) (response : text) (now_ts : Q) (w : World) :
  unique_ids (db w) -> weights_ok (db w) ->
  Forall2 learned_from (db w)
    (db (snd (apply_learning h model_name guidance content linked response
                             now_ts w))).
Proof.
  intros Hu Hw. unfold apply_learning. cbv beta iota zeta delta [bind].
  pose proof (@parse_and_update_frame h response now_ts w Hu Hw) as Hp.
  destruct (_parse_and_update_expressions_v2 h response now_ts w)
    as [[updated_count infos] w'].
  destruct updated_count; exact Hp.
Qed.

(** X4. Learning only rewrites rows in place.  On a table with different
    row ids and weights in [0.01, 5.0], whatever the model answers, the
    table after [/expr learn] has the same rows in the same order: no row is
    added, none is deleted, every row keeps its id, its chat, its style, its
    creation date and its type, and no weight goes down. *)
Theorem learning_keeps_rows (h : Host) (raw sid : option text) (now_ts : Q) (w : World) :
  unique_ids (db w) -> weights_ok (db w) ->
  Forall2 learned_from (db w) (db (snd (learn_execute h raw sid now_ts w))).
Proof.
  intros Hu Hw. unfold learn_execute.
  repeat (first [ apply Forall2_frame_refl
                | apply apply_learning_frame; assumption | case_step ]).
  all: run_cmd.
  all: repeat (first [ apply Forall2_frame_refl
                     | apply apply_learning_frame; assumption | case_step ]).
Qed.

Lemma learning_keeps_rows_witness :
  Forall2 learned_from (db sample_world)
    (db (snd (learn_execute (learning_host new_situation_reply)
                            (Some (lit "/expr learn keep it short"))
                            (Some (lit "chatA")) 20 sample_world))).
Proof.
  apply (@learning_keeps_rows (learning_host new_situation_reply)
           (Some (lit "/expr learn keep it short")) (Some (lit "chatA")) 20
           sample_world).
  - unfold unique_ids. simpl. repeat constructor. simpl. tauto.
  - repeat constructor; vm_compute; discriminate.
Defined.

(** ** Ids under the commands *)










(** ** A new row *)

Lemma add_line_weight (s rest : text) (c' : caps) :
  denotes add_pattern s rest [] c' ->
  group 4 c' = None
  \/ exists t r a b, group 4 c' = Some t /\ denotes unsigned_number t r a b.
Proof.
  unfold add_pattern. cbn [Seqs denotes].
  intros (s0 & t0 & c0 & -> & H0 & s1 & t1 & c1 & -> & H1 & s2 & t2 & c2 & -> & H2
          & s3 & t3 & c3 & -> & H3 & s4 & t4 & c4 & -> & H4
          & s5 & t5 & c5 & -> & (c5' & H5 & ->)
          & s6 & t6 & c6 & -> & H6
          & s7 & t7 & c7 & -> & (c7' & H7 & ->)
          & s8 & t8 & c8 & -> & H8
          & s9 & t9 & c9 & -> & H9 & H10).
  destruct H10 as (-> & -> & _).
  apply word_chars in H0. destruct H0 as [-> _].
  apply keyword_den in H1. destruct H1 as [-> _].
  apply plus_chr in H2. destruct H2 as [-> _].
  apply word_chars in H3. destruct H3 as [-> _].
  apply plus_chr in H4. destruct H4 as [-> _].
  apply plus_chr in H5. destruct H5 as [-> _].
  apply plus_chr in H6. destruct H6 as [-> _].
  apply plus_chr in H7. destruct H7 as [-> _].
  apply in_chat_groups in H8.
  unfold Opt in H9. cbn [Seqs denotes] in H9.
  destruct H9 as [H9|[_ ->]].
  - destruct H9 as (u1 & v1 & d1 & -> & Hw1 & u2 & v2 & d2 & -> & Hw2
                    & d3 & Hnum & ->).
    right. do 4 eexists. split; [reflexivity|exact Hnum].
  - left. destruct H8 as [->|[t ->]]; reflexivity.
Qed.

Lemma py_float_unsigned (x : N) (i : text) :
  is_ascii_digit x = true -> py_float (x :: i) = unsigned_float (x :: i).
Proof.
  unfold is_ascii_digit. rewrite andb_true_iff, !N.leb_le. intros H.
  assert (Hx : (x = 48 \/ x = 49 \/ x = 50 \/ x = 51 \/ x = 52 \/ x = 53
                \/ x = 54 \/ x = 55 \/ x = 56 \/ x = 57)%N) by lia.
  repeat (destruct Hx as [->|Hx]; [reflexivity|]). subst x. reflexivity.
Qed.

Lemma add_weight_reads (s : text) (m : caps) :
  re_match add_pattern s = Some m ->
  group 4 m = None \/ exists t q, group 4 m = Some t /\ py_float t = Some q.
Proof.
  intros Hm. apply re_match_sound in Hm. destruct Hm as (s1 & s2 & _ & Hd).
  apply add_line_weight in Hd.
  destruct Hd as [Hn|(t & r & a & b & Hg & Hden)]; [left; exact Hn|].
  right. pose proof (unsigned_float_reads Hden) as (q & Hq).
  apply unsigned_number_text in Hden.
  destruct Hden as (x & i & Hi & Ht).
  exists t, q. split; [exact Hg|].
  inversion Hi as [|? ? Hx _]; subst.
  destruct Ht as [->|(y & f & _ & ->)]; simpl app in *;
    rewrite py_float_unsigned by exact Hx; exact Hq.
Qed.

Lemma same_triple_refl (chat sit sty : text) (e : Expression) :
  chat_id e = chat -> situation e = sit -> style e = sty ->
  same_triple chat sit sty e = true.
Proof.
  intros <- <- <-. unfold same_triple.
  rewrite !(proj2 (text_eqb_eq _ _) eq_refl). reflexivity.
Qed.

Lemma find_app_new (q : Expression -> bool) (rows : list Expression)
    (e : Expression) :
  find q rows = None -> q e = true -> find q (rows ++ [e]) = Some e.
Proof.
  intros Hn He. induction rows as [|x rows IH]; simpl in *.
  - rewrite He. reflexivity.
  - destruct (q x); [discriminate|]. apply IH. exact Hn.
Qed.

(** X6. An add line whose pair is not yet stored for the target chat
    creates one row, at the end of the table, with a new id, the stripped
    situation and style, type [expression], the time of the command as
    activity and creation time, and a weight in [0.01, 5.0]: 1.0 without
    [w=], and [max(0.01, min(5.0, w))] with [w=w]; [float] reads every
    weight the pattern lets through, so the fallback to 1.0 of its [except]
    branch is not reached.  The answer is the success text. *)
Theorem add_creates_row (h : Host) (raw sid : option text) (now_ts : Q)
    (w : World) (m : caps) (chat : text) :
  re_match add_pattern (or_empty raw) = Some m ->
  target_chat h (or_empty (group 3 m)) sid = Some chat ->
  find (same_triple chat (strip (or_empty (group 1 m)))
                    (strip (or_empty (group 2 m)))) (db w) = None ->
  exists weight,
    add_execute h raw sid now_ts w
    = ((true, Added, true),
       mkWorld (db w ++ [mkExpression (next_id (db w)) chat
                           (strip (or_empty (group 1 m)))
                           (strip (or_empty (group 2 m)))
                           weight now_ts (Some now_ts) (lit "expression")])
               (outbox w ++ [(Added, true)]))
    /\ 0.01 <= weight /\ weight <= 5
    /\ (group 4 m = None -> weight == 1)
    /\ (forall t, group 4 m = Some t ->
          exists q, py_float t = Some q /\ weight = clamp q).
Proof.
  intros Hm Hchat Hfind.
  unfold add_execute. rewrite Hm, Hchat. run_cmd. rewrite Hfind.
  destruct (add_weight_reads _ Hm) as [Hn|(t & q & Hg & Hq)].
  - rewrite Hn. eexists. split; [reflexivity|].
    split; [vm_compute; discriminate|]. split; [vm_compute; discriminate|].
    split; [intros _; vm_compute; reflexivity|]. intros t Ht. discriminate.
  - rewrite Hg, Hq. eexists. split; [reflexivity|].
    split; [apply clamp_bounds|]. split; [apply clamp_bounds|].
    split; [intros Ht; discriminate|].
    intros t' Ht'. injection Ht' as <-. exists q. split; [exact Hq|reflexivity].
Qed.

Lemma add_creates_row_witness :
  exists weight,
    db (snd (add_execute plain_host (Some (lit "/expr add joy yay w=7.5"))
                         (Some (lit "chatA")) 30 sample_world))
    = [sample_row;
       mkExpression 8 (lit "chatA") (lit "joy") (lit "yay") weight 30 (Some 30)
                    (lit "expression")]
    /\ weight <= 5.
Proof.
  edestruct (@add_creates_row plain_host (Some (lit "/expr add joy yay w=7.5"))
               (Some (lit "chatA")) 30 sample_world)
    as (weight & E & _ & Hle & _).
  - vm_compute. reflexivity.
  - vm_compute. reflexivity.
  - vm_compute. reflexivity.
  - exists weight. split; [rewrite E; reflexivity|exact Hle].
Defined.

(** ** A command given twice *)

Lemma same_triple_rewritten (chat sit sty : text) (obj : Expression) (c t : Q) :
  same_triple chat sit sty (rewritten obj c t) = same_triple chat sit sty obj.
Proof.
  unfold rewritten, backfill_create_date, same_triple.
  destruct (create_date _); reflexivity.
Qed.

Lemma find_replaced (q : Expression -> bool) (obj e : Expression)
    (rows : list Expression) :
  find q rows = Some e -> id obj = id e -> q obj = true ->
  exists e', find q (replaced obj rows) = Some e'.
Proof.
  intros Hf Hid Hq. apply find_some in Hf. destruct Hf as [Hin _].
  destruct (find q (replaced obj rows)) as [e'|] eqn:E; [eauto|].
  exfalso. eapply find_none in E.
  - rewrite Hq in E. discriminate.
  - eapply replaced_has; [exact Hin|congruence].
Qed.

Lemma find_without (n : Z) (rows : list Expression) :
  find (fun e => (id e =? n)%Z) (without n rows) = None.
Proof.
  destruct (find _ (without n rows)) as [e|] eqn:E; [|reflexivity].
  apply find_some in E. destruct E as [Hin Hid].
  apply Z.eqb_eq in Hid. exfalso. apply (@without_absent n rows).
  apply in_map_iff. exists e. split; assumption.
Qed.

(** X7. An add line given twice adds once.  After an add command that
    succeeded, whether it created the row or boosted it, the same line for
    the same chat finds the pair in the table: it answers with the boosted
    weight [min(5.0, w + 0.1)] of the row found, rewrites that row, and the
    ids of the table are what they were. *)
Theorem add_again_boosts (h : Host) (raw sid : option text) (t1 t2 : Q)
    (w : World) :
  succeeded (fst (add_execute h raw sid t1 w)) = true ->
  let w1 := snd (add_execute h raw sid t1 w) in
  exists obj,
    In obj (db w1)
    /\ add_execute h raw sid t2 w1
       = ((true, DuplicateBoosted (Qmin 5 (count obj + 0.1)), true),
          mkWorld (replaced (rewritten obj (Qmin 5 (count obj + 0.1)) t2) (db w1))
                  (outbox w1 ++ [(DuplicateBoosted (Qmin 5 (count obj + 0.1)), true)]))
    /\ map id (db (snd (add_execute h raw sid t2 w1))) = map id (db w1).
Proof.
  intros Hs w1.
  assert (Hreq : exists m chat,
            re_match add_pattern (or_empty raw) = Some m
            /\ target_chat h (or_empty (group 3 m)) sid = Some chat
            /\ exists obj,
                 find (same_triple chat (strip (or_empty (group 1 m)))
                                   (strip (or_empty (group 2 m)))) (db w1)
                 = Some obj).
  { subst w1. unfold add_execute in *.
    destruct (re_match add_pattern (or_empty raw)) as [m|] eqn:Hm;
      [|discriminate].
    destruct (target_chat h (or_empty (group 3 m)) sid) as [chat|] eqn:Hchat;
      [|discriminate].
    exists m, chat. split; [reflexivity|]. split; [exact Hchat|].
    revert Hs. run_cmd.
    destruct (find _ (db w)) as [obj|] eqn:Hf; intros _; simpl.
    - eapply find_replaced; [exact Hf| |].
      + destruct (create_date obj) eqn:Ec;
          unfold backfill_create_date; simpl; rewrite Ec; reflexivity.
      + change (same_triple chat (strip (or_empty (group 1 m)))
                  (strip (or_empty (group 2 m)))
                  (rewritten obj (Qmin 5 (count obj + 0.1)) t1) = true).
        rewrite same_triple_rewritten.
        apply find_some in Hf. apply Hf.
    - eexists. apply find_app_new; [exact Hf|].
      apply same_triple_refl; reflexivity. }
  destruct Hreq as (m & chat & Hm & Hchat & obj & Hobj).
  assert (Hr : add_request h raw sid (strip (or_empty (group 1 m)))
                 (strip (or_empty (group 2 m))) chat).
  { exists m. auto. }
  exists obj. split; [apply find_some in Hobj; apply Hobj|].
  rewrite (@add_execute_found h raw sid t2 w1 _ _ chat obj Hr Hobj).
  split; [reflexivity|]. simpl. apply replaced_ids.
Qed.

Lemma add_again_boosts_witness :
  exists q,
    message
      (fst (add_execute plain_host (Some (lit "/expr add joy yay w=2.0"))
              (Some (lit "chatA")) 40
              (snd (add_execute plain_host (Some (lit "/expr add joy yay w=2.0"))
                      (Some (lit "chatA")) 30 sample_world))))
    = DuplicateBoosted q.
Proof.
  destruct (@add_again_boosts plain_host (Some (lit "/expr add joy yay w=2.0"))
              (Some (lit "chatA")) 30 40 sample_world)
    as (obj & _ & E & _).
  - vm_compute. reflexivity.
  - rewrite E. eexists. reflexivity.
Defined.

(** X8. A delete line given twice deletes once.  After a delete command
    that succeeded, the same line answers that no expression of that id was
    found, returns [False] and leaves the table as it is. *)
Theorem delete_again_not_found (h : Host) (raw sid : option text) (w : World) :
  succeeded (fst (del_execute h raw sid w)) = true ->
  let w1 := snd (del_execute h raw sid w) in
  exists id_str,
    fst (del_execute h raw sid w) = (true, Deleted id_str, true)
    /\ del_execute h raw sid w1
       = ((false, DeleteNotFound id_str, true),
          mkWorld (db w1) (outbox w1 ++ [(DeleteNotFound id_str, true)])).
Proof.
  intros Hs w1. subst w1. unfold del_execute in *.
  destruct (re_match (del_pattern h) (or_empty raw)) as [m|]; [|discriminate].
  destruct (target_chat h (or_empty (group 2 m)) sid) as [chat|];
    [|discriminate].
  destruct (py_int h (or_empty (group 1 m))) as [n|]; [|discriminate].
  revert Hs. run_cmd.
  destruct (find (fun e => (id e =? n)%Z) (db w)) as [expr|] eqn:Hf;
    [|discriminate].
  intros _. exists (or_empty (group 1 m)). split; [reflexivity|].
  simpl. apply find_some in Hf. destruct Hf as [_ Hid]. apply Z.eqb_eq in Hid.
  rewrite Hid. fold (without n (db w)). rewrite find_without. reflexivity.
Qed.

Lemma delete_again_not_found_witness :
  exists id_str,
    message
      (fst (del_execute plain_host (Some (lit "/expr del 7")) (Some (lit "chatA"))
              (snd (del_execute plain_host (Some (lit "/expr del 7"))
                      (Some (lit "chatA")) sample_world))))
    = DeleteNotFound id_str.
Proof.
  destruct (@delete_again_not_found plain_host (Some (lit "/expr del 7"))
              (Some (lit "chatA")) sample_world)
    as (id_str & _ & E).
  - vm_compute. reflexivity.
  - rewrite E. exists id_str. reflexivity.
Defined.

(** ** An entry of the learning reply that is no object *)

Lemma update_entry_dict (h : Host) (rows : list Expression) (now_ts : Q)
    (kv : list (text * json)) :
  update_entry h rows now_ts (JObj kv) <> Escaped.
Proof.
  unfold update_entry. repeat case_step; discriminate.
Qed.

Lemma update_loop_escape (h : Host) (now_ts : Q) (bad : json)
    (post pre : list json) :
  Forall is_dict pre -> ~ is_dict bad ->
  forall n infos w,
    update_loop h now_ts (pre ++ bad :: post) n infos w
    = ((O, snd (fst (update_loop h now_ts pre n infos w))),
       snd (update_loop h now_ts pre n infos w)).
Proof.
  intros Hpre Hbad. induction Hpre as [|entry pre Hentry _ IH];
    intros n infos w; simpl.
  - run_cmd. destruct bad; try reflexivity.
    exfalso. apply Hbad. eexists. reflexivity.
  - run_cmd.
    destruct (update_entry h (db w) now_ts entry) as [ | |expr info] eqn:E.
    + apply IH.
    + exfalso. destruct Hentry as [kv ->].
      exact (@update_entry_dict h (db w) now_ts kv E).
    + apply IH.
Qed.

(** X9. An entry of ["expressions"] that is not a dict ends the learning
    step.  When the entries before it are dicts, the rows they name have
    been saved and stay saved, the entries after it are not looked at, and
    the count returned is 0: the command answers that it found nothing to
    update, and returns [True], on a table that is the table the entries
    before made. *)
Theorem non_dict_entry_hides_updates (h : Host)
    (model_name guidance content : text) (linked : list Detail)
    (response span : text) (data : list (text * json))
    (pre post : list json) (bad : json) (now_ts : Q) (w : World) :
  json_span response = Some span ->
  loads_with_repair h span = Some (JObj data) ->
  dict_get (lit "expressions") data = Some (JArr (pre ++ bad :: post)) ->
  Forall is_dict pre -> ~ is_dict bad ->
  apply_learning h model_name guidance content linked response now_ts w
  = ((true, NothingToUpdate model_name guidance content linked, true),
     mkWorld (db (snd (update_loop h now_ts pre O [] w)))
             (outbox w
              ++ [(NothingToUpdate model_name guidance content linked, false)])).
Proof.
  intros Hspan Hload Hget Hpre Hbad.
  unfold apply_learning, _parse_and_update_expressions_v2.
  rewrite Hspan, Hload, Hget. cbv beta iota zeta delta [bind].
  rewrite (update_loop_escape h now_ts post Hpre Hbad).
  rewrite reply_run. simpl. rewrite update_loop_outbox. reflexivity.
Qed.

Lemma non_dict_entry_hides_updates_witness :
  message (fst (apply_learning broken_host (lit "m") [] (lit "wow") []
                               broken_reply 20 sample_world))
  = NothingToUpdate (lit "m") [] (lit "wow") []
  /\ db (snd (apply_learning broken_host (lit "m") [] (lit "wow") []
                              broken_reply 20 sample_world))
     <> db sample_world.
Proof.
  rewrite (@non_dict_entry_hides_updates broken_host (lit "m") [] (lit "wow") []
             broken_reply broken_reply broken_data
             [JObj [(lit "id", JInt 7); (lit "new_situation", JStr (lit "awe"))]]
             [] (JInt 7) 20 sample_world).
  - split; [reflexivity|]. intros H. vm_compute in H. discriminate H.
  - vm_compute. reflexivity.
  - vm_compute. reflexivity.
  - reflexivity.
  - repeat constructor. eexists. reflexivity.
  - intros [kv H]. discriminate H.
Defined.

(** ** The count and the details of a learning run *)

Lemma update_loop_count (h : Host) (now_ts : Q) (entries : list json) :
  forall n infos w,
    n = List.length infos ->
    fst (fst (update_loop h now_ts entries n infos w)) = O
    \/ fst (fst (update_loop h now_ts entries n infos w))
       = List.length (snd (fst (update_loop h now_ts entries n infos w))).
Proof.
  induction entries as [|entry rest IH]; intros n infos w Hn; simpl.
  - right. exact Hn.
  - run_cmd. destruct (update_entry h (db w) now_ts entry) as [ | |expr info].
    + apply IH. exact Hn.
    + left. reflexivity.
    + apply IH. rewrite length_app. simpl. lia.
Qed.

Lemma parse_and_update_count (h : Host) (response : text) (now_ts : Q)
    (w : World) :
  fst (fst (_parse_and_update_expressions_v2 h response now_ts w)) = O
  \/ fst (fst (_parse_and_update_expressions_v2 h response now_ts w))
     = List.length (snd (fst (_parse_and_update_expressions_v2 h response now_ts w))).
Proof.
  unfold _parse_and_update_expressions_v2.
  repeat case_step; try (left; reflexivity).
  apply update_loop_count. reflexivity.
Qed.

Lemma apply_learning_details (h : Host) (model_name guidance content : text)
    (linked : list Detail) (response : text) (now_ts : Q) (w : World)
    (model : text) (n : nat) (g : text) (infos : list UpdateInfo) :
  message (fst (apply_learning h model_name guidance content linked response
                               now_ts w))
  = Learned model n g infos ->
  n = List.length infos /\ (0 < n)%nat.
Proof.
  unfold apply_learning. cbv beta iota zeta delta [bind].
  pose proof (parse_and_update_count h response now_ts w) as Hc.
  destruct (_parse_and_update_expressions_v2 h response now_ts w)
    as [[updated_count infos'] w1].
  simpl in Hc. destruct updated_count; simpl; [discriminate|].
  intros H. injection H as _ <- _ <-.
  destruct Hc as [Hc|Hc]; [discriminate|]. split; [exact Hc|lia].
Qed.

(** X10. The count of a learning answer is the number of its detail
    blocks.  When [/expr learn] answers that it updated [n] expressions, [n]
    is positive, [_get_update_details_v2] does not answer that there is no
    update information, and the details have exactly [n] blocks, one for
    each entry that was saved. *)
Theorem learned_count_is_details (h : Host) (raw sid : option text) (now_ts : Q)
    (w : World) (model : text) (n : nat) (g : text) (infos : list UpdateInfo) :
  message (fst (learn_execute h raw sid now_ts w)) = Learned model n g infos ->
  (0 < n)%nat
  /\ exists blocks,
       _get_update_details_v2 infos = Some blocks /\ List.length blocks = n.
Proof.
  intros H.
  assert (Hn : n = List.length infos /\ (0 < n)%nat).
  { revert H. unfold learn_execute.
    repeat (first [ apply apply_learning_details | case_step ]);
      try (simpl; discriminate).
    all: cbv beta iota zeta delta [bind read_db ret].
    all: repeat (first [ apply apply_learning_details | case_step ]);
      try (simpl; discriminate). }
  destruct Hn as [-> Hpos]. split; [exact Hpos|].
  destruct infos as [|i infos]; [simpl in Hpos; lia|].
  eexists. split; [reflexivity|]. apply length_map.
Qed.

Lemma learned_count_is_details_witness :
  exists model n g infos,
    message (fst (learn_execute (learning_host new_situation_reply)
                                (Some (lit "/expr learn keep it short"))
                                (Some (lit "chatA")) 20 sample_world))
    = Learned model n g infos
    /\ (0 < n)%nat
    /\ exists blocks,
         _get_update_details_v2 infos = Some blocks /\ List.length blocks = n.
Proof.
  do 4 eexists. split; [vm_compute; reflexivity|].
  eapply (@learned_count_is_details (learning_host new_situation_reply)
            (Some (lit "/expr learn keep it short")) (Some (lit "chatA")) 20
            sample_world).
  vm_compute. reflexivity.
Defined.

(** X11. What a saved entry shows in the details.  For an entry of the
    learning reply that was saved, the row it names is a row of the table
    with the id of the saved row.  When the entry proposes a situation that
    is true and differs from the stored one, the block of the details has
    the old and the new situation, the reason and the new weight,
    [max(0.01, min(5.0, w + 0.5))]; otherwise the block has the stored
    situation and the reason only, and weight and situation are as stored. *)
Theorem detail_block_of_entry (h : Host) (rows : list Expression) (now_ts : Q)
    (entry : json) (expr : Expression) (info : UpdateInfo) :
  update_entry h rows now_ts entry = Applied expr info ->
  exists kv e,
    entry = JObj kv /\ In e rows /\ id e = id expr
    /\ if proposes_change kv (situation e)
       then exists v,
              dict_get (lit "new_situation") kv = Some v
              /\ detail_line info
                 = RewrittenLine (u_id info) (style e) (situation e) v
                                 (u_reason info) (clamp (count e + 0.5))
              /\ count expr = clamp (count e + 0.5)
       else detail_line info
            = KeptLine (u_id info) (style e) (situation e) (u_reason info)
            /\ count expr = count e /\ situation expr = situation e.
Proof.
  unfold update_entry.
  destruct entry as [ | | | | | |kv]; try discriminate.
  destruct (dict_get (lit "id") kv) as [expr_id|]; [|discriminate].
  destruct (negb (truthy expr_id)); [discriminate|].
  destruct (read_id h expr_id) as [ | |z]; try discriminate.
  destruct (find _ rows) as [e|] eqn:Hfind; [|discriminate].
  apply find_some in Hfind. destruct Hfind as [Hin _].
  intros H. injection H as <- <-. exists kv, e.
  split; [reflexivity|]. split; [exact Hin|].
  unfold proposes_change, detail_line.
  destruct (dict_get (lit "new_situation") kv) as [v|]; simpl.
  - destruct (truthy v && differs_from v (situation e)) eqn:Hv; simpl.
    + split; [reflexivity|]. exists v. rewrite Hv. auto.
    + split; [reflexivity|].
      rewrite (proj2 (text_eqb_eq _ _) eq_refl). simpl.
      rewrite andb_false_r. auto.
  - split; [reflexivity|].
    rewrite (proj2 (text_eqb_eq _ _) eq_refl). simpl.
    rewrite andb_false_r. auto.
Qed.

Lemma detail_block_of_entry_witness :
  exists expr info kv e,
    update_entry plain_host [sample_row] 20
      (JObj [(lit "id", JInt 7); (lit "new_situation", JStr (lit "awe"))])
    = Applied expr info
    /\ JObj [(lit "id", JInt 7); (lit "new_situation", JStr (lit "awe"))]
       = JObj kv
    /\ In e [sample_row] /\ id e = id expr.
Proof.
  edestruct (@detail_block_of_entry plain_host [sample_row] 20
               (JObj [(lit "id", JInt 7); (lit "new_situation", JStr (lit "awe"))]))
    as (kv & e & Hkv & Hin & Hid & _).
  - vm_compute. reflexivity.
  - do 2 eexists. exists kv, e. split; [reflexivity|].
    split; [exact Hkv|]. split; [exact Hin|exact Hid].
Defined.

(** ** Which rows the learning step rewrites *)

Lemma update_entry_names (h : Host) (rows : list Expression) (now_ts : Q)
    (entry : json) (expr : Expression) (info : UpdateInfo) :
  update_entry h rows now_ts entry = Applied expr info ->
  exists v, entry_id entry = Some v /\ read_id h v = IsId (id expr).
Proof.
  unfold update_entry, entry_id.
  destruct entry as [ | | | | | |kv]; try discriminate.
  destruct (dict_get (lit "id") kv) as [expr_id|]; [|discriminate].
  destruct (negb (truthy expr_id)); [discriminate|].
  destruct (read_id h expr_id) as [ | |z] eqn:Hr; try discriminate.
  destruct (find _ rows) as [e|] eqn:Hfind; [|discriminate].
  apply find_some in Hfind. destruct Hfind as [_ Hid]. apply Z.eqb_eq in Hid.
  intros H. injection H as <- _. exists expr_id. split; [reflexivity|].
  rewrite Hr. f_equal. rewrite <- Hid.
  destruct (match dict_get (lit "new_situation") kv with
            | Some v => if truthy v && differs_from v (situation e) then Some v else None
            | None => None
            end); reflexivity.
Qed.

Lemma replaced_keeps (obj e : Expression) (rows : list Expression) :
  In e rows -> id e <> id obj -> In e (replaced obj rows).
Proof.
  intros Hin Hid. unfold replaced. apply in_map_iff. exists e.
  split; [|exact Hin].
  destruct (Z.eqb_spec (id e) (id obj)); [contradiction|reflexivity].
Qed.

(** X12. The learning step rewrites only the rows its reply names: a row
    whose id no entry of the reply names, as a true [id] that reads as that
    number, is in the table after the loop as it was before. *)
Theorem learning_touches_named_rows (h : Host) (now_ts : Q) (e : Expression)
    (entries : list json) :
  (forall entry v, In entry entries -> entry_id entry = Some v ->
     read_id h v <> IsId (id e)) ->
  forall n infos w,
    In e (db w) -> In e (db (snd (update_loop h now_ts entries n infos w))).
Proof.
  induction entries as [|entry rest IH]; intros Hnames n infos w Hin; simpl.
  - exact Hin.
  - run_cmd.
    assert (Hrest : forall entry0 v, In entry0 rest -> entry_id entry0 = Some v ->
                      read_id h v <> IsId (id e)).
    { intros entry0 v H0. apply Hnames. right. exact H0. }
    destruct (update_entry h (db w) now_ts entry) as [ | |expr info] eqn:E.
    + apply IH; assumption.
    + exact Hin.
    + apply IH; [exact Hrest|]. simpl.
      apply replaced_keeps; [exact Hin|].
      destruct (update_entry_names _ _ _ _ E) as (v & Hv & Hr).
      intros Hid. apply (Hnames entry v (or_introl eq_refl) Hv).
      rewrite Hr, Hid. reflexivity.
Qed.

Lemma learning_touches_named_rows_witness :
  In (nth 1 sample_rows sample_row)
     (db (snd (update_loop plain_host 20
                 [JObj [(lit "id", JInt 7);
                        (lit "new_situation", JStr (lit "awe"))]]
                 O [] (mkWorld sample_rows [])))).
Proof.
  apply (@learning_touches_named_rows plain_host 20 (nth 1 sample_rows sample_row)
           [JObj [(lit "id", JInt 7); (lit "new_situation", JStr (lit "awe"))]]).
  - intros entry v [<-|[]] Hv. injection Hv as <-. vm_compute. discriminate.
  - simpl. tauto.
Defined.

(** ** An entry of the analysis reply that is no object *)

Lemma used_ids_escape (h : Host) (bad : json) (post : list json) :
  ~ is_dict bad ->
  forall pre acc, used_ids_of h (pre ++ bad :: post) acc = None.
Proof.
  intros Hbad. induction pre as [|entry pre IH]; intros acc; simpl.
  - destruct bad; try reflexivity. exfalso. apply Hbad. eexists. reflexivity.
  - destruct entry as [ | | | | | |kv]; try reflexivity.
    destruct (dict_get (lit "id") kv) as [v|]; [|apply IH].
    destruct (truthy v); [|apply IH].
    destruct (read_id h v); [apply IH|reflexivity|apply IH].
Qed.

(** X13. One entry of ["used_expressions"] that is not a dict voids the
    analysis step of the learn command: whatever ids the entries before it
    gave, [_parse_analysis_response] returns the empty list, and the command
    then answers that no expression was used. *)
Theorem non_dict_entry_voids_used_ids (h : Host) (response span : text)
    (data : list (text * json)) (pre post : list json) (bad : json) :
  json_span response = Some span ->
  loads_with_repair h span = Some (JObj data) ->
  dict_get (lit "used_expressions") data = Some (JArr (pre ++ bad :: post)) ->
  ~ is_dict bad ->
  _parse_analysis_response h response = [].
Proof.
  intros Hspan Hload Hget Hbad. unfold _parse_analysis_response.
  rewrite Hspan, Hload, Hget, (used_ids_escape h post Hbad). reflexivity.
Qed.

Lemma non_dict_entry_voids_used_ids_witness :
  _parse_analysis_response broken_host void_reply = [].
Proof.
  apply (@non_dict_entry_voids_used_ids broken_host void_reply void_reply
           void_data [JObj [(lit "id", JInt 7)]] [] (JInt 7)).
  - vm_compute. reflexivity.
  - vm_compute. reflexivity.
  - reflexivity.
  - intros [kv H]. discriminate H.
Defined.

(** ** The ids of a field the host wrote *)

Lemma uint_digits_ascii (d : Decimal.uint) : all is_ascii_digit (uint_digits d).
Proof. induction d; simpl; constructor; auto. Qed.

Lemma ascii_digit_value (h : Host) (c : N) :
  is_ascii_digit c = true -> decimal_value h c = Some (c - 48)%N.
Proof. intros H. unfold decimal_value. rewrite H. reflexivity. Qed.

Lemma int_from_digit (h : Host) (acc : Z) (c : N) (s : text) :
  is_ascii_digit c = true ->
  int_from h acc (c :: s) = int_from h (acc * 10 + Z.of_N (c - 48)) s.
Proof. intros H. simpl. rewrite (@ascii_digit_value h c H). reflexivity. Qed.

Ltac next_digit IH :=
  cbn [uint_digits Pos.of_uint_acc Pos.of_uint];
  rewrite int_from_digit by reflexivity;
  match goal with
  | |- int_from _ ?a _ = Some (Z.pos (Pos.of_uint_acc _ ?b)) =>
      replace a with (Z.pos b);
        [apply IH
        |rewrite ?Pos2Z.inj_add, ?Pos2Z.inj_mul;
         match goal with
         | |- context [Z.of_N ?n] =>
             let v := eval vm_compute in (Z.of_N n) in
             change (Z.of_N n) with v
         end; lia]
  end.

Lemma int_from_acc (h : Host) (d : Decimal.uint) (acc : positive) :
  int_from h (Z.pos acc) (uint_digits d) = Some (Z.pos (Pos.of_uint_acc d acc)).
Proof.
  revert acc. induction d; intros acc; [reflexivity| ..]; next_digit IHd.
Qed.

Lemma int_from_uint (h : Host) (d : Decimal.uint) :
  int_from h 0 (uint_digits d) = Some (Z.of_N (Pos.of_uint d)).
Proof.
  induction d; [reflexivity| ..];
    cbn [uint_digits Pos.of_uint]; rewrite int_from_digit by reflexivity;
    try exact IHd; apply int_from_acc.
Qed.

Lemma to_uint_digits (n : N) :
  exists c s, uint_digits (N.to_uint n) = c :: s.
Proof.
  destruct (uint_digits (N.to_uint n)) as [|c s] eqn:E; [|eauto].
  exfalso. assert (Hnil : N.to_uint n = Decimal.Nil).
  { destruct (N.to_uint n); simpl in E; try discriminate. reflexivity. }
  pose proof (DecimalN.Unsigned.of_to n) as Hof. rewrite Hnil in Hof.
  simpl in Hof. subst n. discriminate.
Qed.

Lemma str_of_int_digits (z : Z) :
  (0 <= z)%Z ->
  exists c s, str_of_int z = c :: s /\ all is_ascii_digit (c :: s).
Proof.
  intros Hz. unfold str_of_int.
  destruct (Z.ltb_spec z 0) as [Hlt|_]; [lia|]. simpl.
  destruct (to_uint_digits (Z.abs_N z)) as (c & s & E).
  exists c, s. split; [exact E|]. rewrite <- E. apply uint_digits_ascii.
Qed.

Lemma py_int_str (h : Host) (z : Z) :
  (0 <= z)%Z -> py_int h (str_of_int z) = Some z.
Proof.
  intros Hz. destruct (str_of_int_digits Hz) as (c & s & E & _).
  unfold py_int. rewrite E. rewrite <- E. unfold str_of_int.
  destruct (Z.ltb_spec z 0) as [Hlt|_]; [lia|]. simpl.
  rewrite int_from_uint. f_equal.
  change (Pos.of_uint (N.to_uint (Z.abs_N z)))
    with (N.of_uint (N.to_uint (Z.abs_N z))).
  rewrite DecimalN.Unsigned.of_to. lia.
Qed.

Lemma isdigit_ascii (h : Host) (c : N) (s : text) :
  all is_ascii_digit (c :: s) -> isdigit h (c :: s) = true.
Proof.
  intros H. unfold isdigit. cbn [truthy_text andb].
  apply forallb_forall. intros x Hx. unfold all in H. rewrite Forall_forall in H.
  unfold is_digit_char, is_decimal.
  rewrite (@ascii_digit_value h x (H x Hx)). reflexivity.
Qed.

Lemma lstrip_by_clean (p : N -> bool) (s : text) :
  all (fun c => negb (p c)) s -> lstrip_by p s = s.
Proof.
  destruct s as [|x s]; intros H; [reflexivity|].
  inversion H as [|? ? Hx _]; subst.
  apply lstrip_by_keep. destruct (p x); [discriminate|reflexivity].
Qed.

Lemma strip_by_wrapped (p : N -> bool) (a b : N) (x : text) :
  p a = true -> p b = true -> all (fun c => negb (p c)) x ->
  strip_by p (a :: x ++ [b]) = x.
Proof.
  intros Ha Hb H. unfold strip_by. simpl lstrip_by. rewrite Ha.
  destruct x as [|c x].
  - simpl. rewrite Hb. reflexivity.
  - assert (Hc : p c = false).
    { inversion H as [|? ? Hc _]; subst.
      destruct (p c); [discriminate|reflexivity]. }
    change ((c :: x) ++ [b]) with (c :: x ++ [b]).
    rewrite (@lstrip_by_keep p c (x ++ [b]) Hc).
    unfold rstrip_by.
    change (c :: x ++ [b]) with ((c :: x) ++ [b]).
    rewrite rev_app_distr.
    assert (Hr : all (fun c0 => negb (p c0)) (rev (c :: x)))
      by (apply Forall_rev; exact H).
    remember (rev (c :: x)) as r eqn:Er.
    change (rev [b] ++ r) with (b :: r). cbn [lstrip_by]. rewrite Hb.
    rewrite (@lstrip_by_clean p r Hr). subst r. apply rev_involutive.
Qed.

Lemma strip_brackets (x : text) :
  all (fun c => negb (existsb (N.eqb c) (lit "[]"))) x ->
  strip_chars (lit "[]") (91%N :: x ++ [93%N]) = x.
Proof.
  intros H. unfold strip_chars. apply strip_by_wrapped; [reflexivity..|exact H].
Qed.

Lemma remove_clean (c : N) (s : text) :
  all (fun x => negb (x =? c)%N) s -> remove_char c s = s.
Proof.
  unfold remove_char. induction 1 as [|x s Hx _ IH]; simpl; [reflexivity|].
  rewrite Hx, IH. reflexivity.
Qed.

Lemma remove_char_app (c : N) (a b : text) :
  remove_char c (a ++ b) = remove_char c a ++ remove_char c b.
Proof. apply filter_app. Qed.

Lemma remove_spaces_join (parts : list text) :
  Forall (all (fun x => negb (x =? 32)%N)) parts ->
  remove_char 32 (join_with (lit ", ") parts) = join_with [44%N] parts.
Proof.
  induction 1 as [|p rest Hp _ IH]; [reflexivity|].
  destruct rest as [|q rest].
  - simpl. apply remove_clean. exact Hp.
  - change (join_with (lit ", ") (p :: q :: rest))
      with (p ++ lit ", " ++ join_with (lit ", ") (q :: rest)).
    change (join_with [44%N] (p :: q :: rest))
      with (p ++ [44%N] ++ join_with [44%N] (q :: rest)).
    rewrite !remove_char_app, IH, (@remove_clean 32%N p Hp). reflexivity.
Qed.

Lemma split_clean (sep : N) (s : text) :
  all (fun x => negb (x =? sep)%N) s -> split sep s = [s].
Proof.
  induction 1 as [|x s Hx _ IH]; simpl; [reflexivity|].
  destruct (x =? sep)%N; [discriminate|]. rewrite IH. reflexivity.
Qed.

Lemma split_at (sep : N) (s rest : text) :
  all (fun x => negb (x =? sep)%N) s ->
  split sep (s ++ sep :: rest) = s :: split sep rest.
Proof.
  induction 1 as [|x s Hx _ IH]; simpl.
  - rewrite N.eqb_refl. reflexivity.
  - destruct (x =? sep)%N; [discriminate|]. rewrite IH. reflexivity.
Qed.

Lemma split_join (parts : list text) (p : text) :
  Forall (all (fun x => negb (x =? 44)%N)) (p :: parts) ->
  split 44 (join_with [44%N] (p :: parts)) = p :: parts.
Proof.
  revert p. induction parts as [|q rest IH]; intros p H.
  - simpl. apply split_clean. inversion H; assumption.
  - change (join_with [44%N] (p :: q :: rest))
      with (p ++ 44%N :: join_with [44%N] (q :: rest)).
    inversion H as [|? ? Hp Hrest]; subst.
    rewrite (@split_at 44%N p _ Hp), (IH q Hrest). reflexivity.
Qed.

Lemma join_chars (P : N -> bool) (sep : text) (parts : list text) :
  all P sep -> Forall (all P) parts -> all P (join_with sep parts).
Proof.
  intros Hsep. induction 1 as [|p rest Hp _ IH]; [constructor|].
  destruct rest as [|q rest]; [exact Hp|].
  change (join_with sep (p :: q :: rest))
    with (p ++ sep ++ join_with sep (q :: rest)).
  unfold all in *. rewrite !Forall_app. auto.
Qed.

Lemma all_impl (P Q : N -> bool) (s : text) :
  (forall c, P c = true -> Q c = true) -> all P s -> all Q s.
Proof. intros H. unfold all. apply Forall_impl. exact H. Qed.

Lemma digit_is_no (c x : N) :
  is_ascii_digit c = false -> is_ascii_digit x = true -> negb (x =? c)%N = true.
Proof.
  intros Hc Hx. destruct (N.eqb_spec x c) as [->|_]; [congruence|reflexivity].
Qed.

Lemma numeral_without (c : N) (t : text) :
  is_ascii_digit c = false -> numeral t -> all (fun x => negb (x =? c)%N) t.
Proof.
  intros Hc (d & s & -> & H). eapply all_impl; [|exact H].
  intros x. apply digit_is_no. exact Hc.
Qed.

Lemma numerals_tokens (p : text) (parts : list text) :
  Forall numeral (p :: parts) ->
  tokens (91%N :: join_with (lit ", ") (p :: parts) ++ [93%N]) = p :: parts.
Proof.
  intros H. unfold tokens.
  rewrite strip_brackets.
  - rewrite remove_spaces_join.
    + rewrite split_join.
      * rewrite <- (map_id (p :: parts)) at 2. apply map_ext_in.
        intros t Ht. rewrite Forall_forall in H.
        apply strip_by_clean. destruct (H t Ht) as (d & s & -> & Hd).
        eapply all_impl; [|exact Hd]. intros c Hc.
        rewrite (ascii_digit_not_space _ Hc). reflexivity.
      * eapply Forall_impl; [|exact H]. intros t.
        apply numeral_without. reflexivity.
    + eapply Forall_impl; [|exact H]. intros t.
      apply numeral_without. reflexivity.
  - apply join_chars with
      (P := fun c => negb (existsb (N.eqb c) (lit "[]"))).
    + repeat constructor.
    + eapply Forall_impl; [|exact H]. intros t (d & s & -> & Hd).
      eapply all_impl; [|exact Hd]. intros c Hc.
      unfold is_ascii_digit in Hc. apply andb_true_iff in Hc.
      rewrite !N.leb_le in Hc. simpl.
      destruct (N.eqb_spec c 91); [lia|]. destruct (N.eqb_spec c 93); [lia|].
      reflexivity.
Qed.

Lemma ints_of_numerals (h : Host) (ids : list Z) :
  Forall (fun z => (0 <= z)%Z) ids -> ints_of h (map str_of_int ids) = ids.
Proof.
  unfold ints_of. induction 1 as [|z ids Hz _ IH]; [reflexivity|].
  simpl. destruct (str_of_int_digits Hz) as (c & s & E & Hd).
  rewrite E, (isdigit_ascii h Hd), <- E. simpl.
  rewrite (py_int_str h Hz), IH. reflexivity.
Qed.

(** X14. The ids of a field are read back.  For every list of
    non-negative ids, the text Python writes for the list, [[62, 201, 386]]
    for [62, 201, 386] and [[]] for the empty list, is parsed by the
    [selected_expressions] block of the learn and msg commands into that
    list, in that order, on every host. *)
Theorem written_ids_are_read_back (h : Host) (ids : list Z) :
  Forall (fun z => (0 <= z)%Z) ids ->
  parse_selected_expressions h (render_ids ids) = ids.
Proof.
  intros H. destruct ids as [|z ids]; [reflexivity|].
  assert (Hn : Forall numeral (map str_of_int (z :: ids))).
  { apply Forall_map. eapply Forall_impl; [|exact H].
    intros a Ha. exact (str_of_int_digits Ha). }
  assert (Ht : tokens (render_ids (z :: ids)) = map str_of_int (z :: ids)).
  { exact (numerals_tokens Hn). }
  rewrite parse_selected_all_read.
  - rewrite Ht. apply ints_of_numerals. exact H.
  - rewrite Ht. apply Forall_map. eapply Forall_impl; [|exact H].
    intros a Ha _. rewrite (py_int_str h Ha). discriminate.
Qed.

Lemma written_ids_are_read_back_witness :
  parse_selected_expressions plain_host (render_ids [62; 0; 386]%Z)
  = [62; 0; 386]%Z.
Proof.
  apply (@written_ids_are_read_back plain_host [62; 0; 386]%Z).
  repeat constructor; lia.
Defined.

(** ** Ordering and paging of the list command *)

Lemma listed_before_spec (a b : Expression) :
  listed_before a b = true <->
  count b < count a
  \/ (count a == count b /\ last_active_time b <= last_active_time a).
Proof.
  unfold listed_before.
  destruct (count a ?= count b) eqn:E.
  - apply Qeq_alt in E. rewrite Qle_bool_iff. split.
    + intros H. right. split; assumption.
    + intros [H|[_ H]]; [lra|exact H].
  - apply Qlt_alt in E. split; [discriminate|]. intros [H|[H _]]; lra.
  - apply Qgt_alt in E. split; [intros _; left; exact E|reflexivity].
Qed.

Lemma listed_before_total (a b : Expression) :
  listed_before a b = false -> listed_before b a = true.
Proof.
  intros H. apply listed_before_spec.
  destruct (listed_before a b) eqn:E; [discriminate|]. clear H.
  assert (Hn : ~ (count b < count a
                  \/ (count a == count b
                      /\ last_active_time b <= last_active_time a))).
  { intros Hc. apply listed_before_spec in Hc. congruence. }
  destruct (Qlt_le_dec (count a) (count b)) as [Hlt|Hle]; [left; exact Hlt|].
  right. split.
  - apply Qle_antisym; [exact Hle|].
    apply Qnot_lt_le. intros Hc. apply Hn. left. exact Hc.
  - apply Qnot_lt_le. intros Hc. apply Hn.
    destruct (Qlt_le_dec (count b) (count a)) as [Hlt|Hle']; [left; exact Hlt|].
    right. split; [apply Qle_antisym; assumption|]. apply Qlt_le_weak. exact Hc.
Qed.

Lemma listed_before_trans (a b c : Expression) :
  listed_before a b = true -> listed_before b c = true ->
  listed_before a c = true.
Proof.
  rewrite !listed_before_spec.
  intros [H1|[H1 H1']] [H2|[H2 H2']].
  - left. lra.
  - left. lra.
  - left. lra.
  - right. split; lra.
Qed.

Lemma insert_row_in (e x : Expression) (l : list Expression) :
  In x (insert_row e l) <-> x = e \/ In x l.
Proof.
  induction l as [|y l IH]; simpl.
  - intuition.
  - destruct (listed_before e y); simpl; [intuition|].
    rewrite IH. intuition.
Qed.

Lemma insert_row_sorted (e : Expression) (l : list Expression) :
  StronglySorted before l -> StronglySorted before (insert_row e l).
Proof.
  induction 1 as [|y l Hs IH Hall]; simpl.
  - repeat constructor.
  - destruct (listed_before e y) eqn:E.
    + constructor; [constructor; assumption|].
      constructor; [exact E|].
      rewrite Forall_forall in *. intros z Hz.
      eapply listed_before_trans; [exact E|]. apply Hall. exact Hz.
    + constructor; [exact IH|].
      rewrite Forall_forall in *. intros z Hz.
      apply insert_row_in in Hz. destruct Hz as [->|Hz].
      * apply listed_before_total. exact E.
      * apply Hall. exact Hz.
Qed.

Lemma order_by_weight_sorted (rows : list Expression) :
  StronglySorted before (order_by_weight rows).
Proof.
  unfold order_by_weight. induction rows as [|e rows IH]; simpl.
  - constructor.
  - apply insert_row_sorted. exact IH.
Qed.

Lemma insert_row_perm (e : Expression) (l : list Expression) :
  Permutation (e :: l) (insert_row e l).
Proof.
  induction l as [|y l IH]; simpl; [reflexivity|].
  destruct (listed_before e y); [reflexivity|].
  rewrite perm_swap. constructor. exact IH.
Qed.

Lemma order_by_weight_perm (rows : list Expression) :
  Permutation rows (order_by_weight rows).
Proof.
  unfold order_by_weight. induction rows as [|e rows IH]; simpl; [reflexivity|].
  rewrite <- insert_row_perm. constructor. exact IH.
Qed.

Lemma in_firstn (A : Type) (n : nat) (l : list A) (x : A) :
  In x (firstn n l) -> In x l.
Proof.
  intros H. rewrite <- (firstn_skipn n l). apply in_or_app. left. exact H.
Qed.

Lemma in_skipn (A : Type) (n : nat) (l : list A) (x : A) :
  In x (skipn n l) -> In x l.
Proof.
  intros H. rewrite <- (firstn_skipn n l). apply in_or_app. right. exact H.
Qed.

Lemma sorted_skipn (A : Type) (R : A -> A -> Prop) (n : nat) (l : list A) :
  StronglySorted R l -> StronglySorted R (skipn n l).
Proof.
  revert l. induction n as [|n IH]; intros l H; [exact H|].
  destruct l as [|x l]; [constructor|]. simpl. apply IH.
  inversion H; assumption.
Qed.

Lemma sorted_firstn (A : Type) (R : A -> A -> Prop) (n : nat) (l : list A) :
  StronglySorted R l -> StronglySorted R (firstn n l).
Proof.
  revert l. induction n as [|n IH]; intros l H; [constructor|].
  destruct l as [|x l]; [constructor|]. simpl.
  inversion H as [|? ? Hs Hall]; subst. constructor; [apply IH; exact Hs|].
  rewrite Forall_forall in *. intros y Hy. apply Hall.
  eapply in_firstn. exact Hy.
Qed.

Lemma in_paginate (page size : Z) (l : list Expression) (e : Expression) :
  In e (paginate page size l) -> In e l.
Proof.
  unfold paginate. intros H.
  apply in_firstn in H. eapply in_skipn. exact H.
Qed.

Lemma paginate_length (page size : Z) (l : list Expression) :
  (1 <= page)%Z -> (1 <= size)%Z ->
  Z.of_nat (List.length (paginate page size l))
  = Z.max 0 (Z.min size (Z.of_nat (List.length l) - (page - 1) * size)).
Proof.
  intros Hp Hs. unfold paginate. rewrite length_firstn, length_skipn.
  assert (0 <= (page - 1) * size)%Z by nia.
  lia.
Qed.

(** The number of pages of [total] rows in pages of [size]. *)
Lemma pages_enough (total size : Z) :
  (0 <= total)%Z -> (1 <= size)%Z ->
  let pages := Z.max 1 ((total + size - 1) / size) in
  (total <= pages * size)%Z
  /\ (0 < total -> (pages - 1) * size < total)%Z.
Proof.
  intros Ht Hs pages. subst pages.
  pose proof (Z.div_mod (total + size - 1) size ltac:(lia)) as Hd.
  pose proof (Z.mod_pos_bound (total + size - 1) size ltac:(lia)) as Hm.
  split.
  - nia.
  - intros Hpos. nia.
Qed.

Lemma firstn_add (A : Type) (a b : nat) (l : list A) :
  firstn (a + b) l = firstn a l ++ firstn b (skipn a l).
Proof.
  revert l. induction a as [|a IH]; intros l; simpl; [reflexivity|].
  destruct l as [|x l]; simpl.
  - rewrite firstn_nil. reflexivity.
  - rewrite IH. reflexivity.
Qed.

Lemma chunks_cover (A : Type) (s : nat) (l : list A) (n : nat) :
  flat_map (fun p => firstn s (skipn ((p - 1) * s) l)) (seq 1 n)
  = firstn (n * s) l.
Proof.
  induction n as [|n IH]; [reflexivity|].
  rewrite seq_S, flat_map_app, IH. simpl flat_map. rewrite app_nil_r.
  replace (n - 0)%nat with n by lia.
  replace (S n * s)%nat with (n * s + s)%nat by lia.
  symmetry. apply firstn_add.
Qed.

Lemma listing_rows_eq (rows : list Expression) (chat : text) (page size : Z) :
  listed_rows (listing rows chat page size)
  = paginate
      (Z.min page
         (Z.max 1 ((Z.of_nat (List.length
                      (filter (fun e => text_eqb (chat_id e) chat) rows))
                    + size - 1) / size)))
      size
      (order_by_weight (filter (fun e => text_eqb (chat_id e) chat) rows)).
Proof. reflexivity. Qed.

Lemma order_by_weight_length (rows : list Expression) :
  List.length (order_by_weight rows) = List.length rows.
Proof. symmetry. apply Permutation_length. apply order_by_weight_perm. Qed.

Lemma sorted_impl (A : Type) (R S : A -> A -> Prop) (l : list A) :
  (forall a b, R a b -> S a b) -> StronglySorted R l -> StronglySorted S l.
Proof.
  intros H. induction 1 as [|x l Hs IH Hall]; constructor; [exact IH|].
  eapply Forall_impl; [|exact Hall]. intros a. apply H.
Qed.

Lemma before_weight (a b : Expression) : before a b -> count b <= count a.
Proof.
  unfold before. rewrite listed_before_spec. intros [H|[H _]]; lra.
Qed.

(** ** The numbers of a list line *)

Lemma int_from_nonneg (h : Host) (s : text) :
  forall acc n, (0 <= acc)%Z -> int_from h acc s = Some n -> (0 <= n)%Z.
Proof.
  induction s as [|c s IH]; intros acc n Hacc H; simpl in H.
  - injection H as <-. exact Hacc.
  - destruct (decimal_value h c) as [v|]; [|discriminate].
    eapply IH; [|exact H]. lia.
Qed.

Lemma py_int_nonneg (h : Host) (s : text) (n : Z) :
  py_int h s = Some n -> (0 <= n)%Z.
Proof.
  unfold py_int. destruct s; [discriminate|].
  apply int_from_nonneg. lia.
Qed.

Lemma list_line_groups (h : Host) (s rest : text) (c' : caps) :
  denotes (list_pattern h) s rest [] c' ->
  decimals_or_none h (group 2 c') /\ decimals_or_none h (group 3 c').
Proof.
  unfold list_pattern, Opt. cbn [Seqs denotes].
  intros (s0 & t0 & c0 & -> & H0 & s1 & t1 & c1 & -> & H1 & s2 & t2 & c2 & -> & H2
          & s3 & t3 & c3 & -> & H3 & s4 & t4 & c4 & -> & H4
          & s5 & t5 & c5 & -> & H5 & s6 & t6 & c6 & -> & H6 & H7).
  destruct H7 as (-> & -> & _).
  apply word_chars in H0. destruct H0 as [-> _].
  apply keyword_den in H1. destruct H1 as [-> _].
  apply plus_chr in H2. destruct H2 as [-> _].
  apply word_chars in H3. destruct H3 as [-> _].
  apply in_chat_groups in H4.
  assert (Hp : c5 = c4
               \/ exists d i, c5 = (2%nat, d :: i) :: c4
                              /\ all (is_decimal h) (d :: i)).
  { destruct H5 as [H5|[_ ->]]; [|left; reflexivity].
    destruct H5 as (u1 & v1 & d1 & -> & Hw1 & u2 & v2 & d2 & -> & Hw2
                    & d3 & Hnum & ->).
    apply plus_chr in Hw1. destruct Hw1 as [-> _].
    apply word_chars in Hw2. destruct Hw2 as [-> _].
    apply plus_chr in Hnum. destruct Hnum as [-> (d & i & -> & Hd & Hi)].
    right. exists d, i. split; [reflexivity|constructor; assumption]. }
  assert (Hs : c6 = c5
               \/ exists d i, c6 = (3%nat, d :: i) :: c5
                              /\ all (is_decimal h) (d :: i)).
  { destruct H6 as [H6|[_ ->]]; [|left; reflexivity].
    destruct H6 as (u1 & v1 & d1 & -> & Hw1 & u2 & v2 & d2 & -> & Hw2
                    & d3 & Hnum & ->).
    apply plus_chr in Hw1. destruct Hw1 as [-> _].
    apply word_chars in Hw2. destruct Hw2 as [-> _].
    apply plus_chr in Hnum. destruct Hnum as [-> (d & i & -> & Hd & Hi)].
    right. exists d, i. split; [reflexivity|constructor; assumption]. }
  unfold decimals_or_none.
  destruct H4 as [->|[t ->]];
    destruct Hp as [->|(d & i & -> & Hdi)];
    destruct Hs as [->|(d' & i' & -> & Hdi')]; simpl; split; eauto 6.
Qed.

Lemma list_match_numbers (h : Host) (s : text) (m : caps) :
  re_match (list_pattern h) s = Some m ->
  exists page size,
    py_int h (or_text (group 2 m) (lit "1")) = Some page
    /\ py_int h (or_text (group 3 m) (lit "10")) = Some size
    /\ (0 <= page)%Z /\ (0 <= size)%Z
    /\ (group 2 m = None -> page = 1%Z)
    /\ (group 3 m = None -> size = 10%Z).
Proof.
  intros Hm. apply re_match_sound in Hm. destruct Hm as (s1 & s2 & _ & Hd).
  apply list_line_groups in Hd. destruct Hd as [Hp Hs].
  assert (Hpage : exists page,
            py_int h (or_text (group 2 m) (lit "1"))
            = Some page /\ (group 2 m = None -> page = 1%Z)).
  { destruct Hp as [->|(d & i & -> & Hdi)].
    - exists 1%Z. split; reflexivity.
    - destruct (py_int_decimals Hdi) as (n & Hn). exists n.
      split; [exact Hn|discriminate]. }
  assert (Hsize : exists size,
            py_int h (or_text (group 3 m) (lit "10"))
            = Some size /\ (group 3 m = None -> size = 10%Z)).
  { destruct Hs as [->|(d & i & -> & Hdi)].
    - exists 10%Z. split; reflexivity.
    - destruct (py_int_decimals Hdi) as (n & Hn). exists n.
      split; [exact Hn|discriminate]. }
  destruct Hpage as (page & Hpage & Hp1), Hsize as (size & Hsize & Hs1).
  exists page, size. repeat split; try assumption.
  - eapply py_int_nonneg. exact Hpage.
  - eapply py_int_nonneg. exact Hsize.
Qed.

Lemma flat_map_same (A B : Type) (f g : A -> list B) (l : list A) :
  (forall a, In a l -> f a = g a) -> flat_map f l = flat_map g l.
Proof.
  induction l as [|x l IH]; intros H; simpl; [reflexivity|].
  rewrite (H x (or_introl eq_refl)), IH; [reflexivity|].
  intros a Ha. apply H. right. exact Ha.
Qed.

Lemma filter_chat (rows : list Expression) (chat : text) (e : Expression) :
  In e (filter (fun x => text_eqb (chat_id x) chat) rows) <->
  In e rows /\ chat_id e = chat.
Proof. rewrite filter_In, text_eqb_eq. reflexivity. Qed.

(** ** What the list command shows *)

(** X15. A list line that matches and has a target chat always shows a
    page: [int] reads [page=] and [size=] whatever digits the pattern let
    through, the page asked is at least 1, the size is between 1 and 50,
    and they are 1 and 10 when the line does not give them.  The command
    returns [True].  (Integers are unbounded here, as for X3.) *)
Theorem list_shows_a_page (h : Host) (raw sid : option text)
    (rows : list Expression) (m : caps) (chat : text) :
  re_match (list_pattern h) (or_empty raw) = Some m ->
  target_chat h (or_empty (group 1 m)) sid = Some chat ->
  exists page size,
    list_execute h raw sid rows = (true, listing rows chat page size, true)
    /\ (1 <= page)%Z /\ (1 <= size <= 50)%Z
    /\ (group 2 m = None -> page = 1%Z)
    /\ (group 3 m = None -> size = 10%Z).
Proof.
  intros Hm Hchat. unfold list_execute. rewrite Hm.
  destruct (list_match_numbers _ _ Hm)
    as (page & size & -> & -> & Hp & Hs & Hp1 & Hs1).
  cbv zeta. rewrite Hchat.
  exists (Z.max 1 page), (Z.max 1 (Z.min 50 size)).
  split; [reflexivity|]. split; [lia|]. split; [lia|].
  split; intros Hn; [rewrite (Hp1 Hn)|rewrite (Hs1 Hn)]; reflexivity.
Qed.

Lemma list_shows_a_page_witness :
  exists page size,
    list_execute plain_host (Some (lit "/expr list page=0 size=99"))
                 (Some (lit "chatA")) sample_rows
    = (true, listing sample_rows (lit "chatA") page size, true)
    /\ (1 <= page)%Z /\ (1 <= size <= 50)%Z.
Proof.
  edestruct (@list_shows_a_page plain_host
               (Some (lit "/expr list page=0 size=99")) (Some (lit "chatA"))
               sample_rows)
    as (page & size & E & Hp & Hs & _).
  - vm_compute. reflexivity.
  - vm_compute. reflexivity.
  - exists page, size. auto.
Defined.

(** X16. The list command has three outcomes: the usage text, the text for
    no target chat, or a page of the target chat with a page number of at
    least 1 and a size between 1 and 50.  It never ends with an uncaught
    conversion error, and its third component is [True].  (Integers are
    unbounded here, as for X3.) *)
Theorem list_outcomes (h : Host) (raw sid : option text)
    (rows : list Expression) :
  list_execute h raw sid rows = (false, ListUsage, true)
  \/ list_execute h raw sid rows = (false, ListNoTargetChat, true)
  \/ exists chat page size,
       list_execute h raw sid rows = (true, listing rows chat page size, true)
       /\ (1 <= page)%Z /\ (1 <= size <= 50)%Z.
Proof.
  unfold list_execute.
  destruct (re_match (list_pattern h) (or_empty raw)) as [m|] eqn:Hm;
    [|left; reflexivity].
  destruct (list_match_numbers _ _ Hm) as (page & size & -> & -> & _).
  cbv zeta.
  destruct (target_chat h (or_empty (group 1 m)) sid) as [chat|];
    [|right; left; reflexivity].
  right. right. exists chat, (Z.max 1 page), (Z.max 1 (Z.min 50 size)).
  split; [reflexivity|]. lia.
Qed.

(** X17. The header of a page.  For a page number of at least 1 and a size
    of at least 1, the header has the number of rows of the target chat, the
    page shown and the number of pages.  There is at least one page; the
    pages hold all rows and the last one is not empty when there are rows;
    the page shown is the page asked, or the last page when the page asked
    is beyond it; it has [min(size, total - (page - 1) * size)] rows, and it
    is empty, so that the no-data line is added, only when the chat has no
    rows. *)
Theorem listing_header (rows : list Expression) (chat : text) (page size : Z) :
  (1 <= page)%Z -> (1 <= size)%Z ->
  exists total page' pages shown,
    listing rows chat page size = Listing total page' pages shown
    /\ total = Z.of_nat (List.length
                           (filter (fun e => text_eqb (chat_id e) chat) rows))
    /\ (1 <= page' <= pages)%Z /\ (page' <= page)%Z
    /\ ((page <= pages)%Z -> page' = page)
    /\ (total <= pages * size)%Z
    /\ ((0 < total)%Z -> ((pages - 1) * size < total)%Z)
    /\ Z.of_nat (List.length shown)
       = Z.min size (total - (page' - 1) * size)
    /\ (shown = [] <-> total = 0%Z).
Proof.
  intros Hp Hs. unfold listing.
  set (query := filter (fun e => text_eqb (chat_id e) chat) rows).
  set (total := Z.of_nat (List.length query)).
  set (pages := Z.max 1 ((total + size - 1) / size)).
  assert (Ht : (0 <= total)%Z) by (subst total; lia).
  destruct (@pages_enough total size Ht Hs) as [Hup Hlow]. fold pages in Hup, Hlow.
  assert (Hpages : (1 <= pages)%Z) by (subst pages; lia).
  assert (Hlen : Z.of_nat (List.length
                   (paginate (Z.min page pages) size (order_by_weight query)))
                 = Z.min size (total - (Z.min page pages - 1) * size)).
  { rewrite paginate_length by lia. rewrite order_by_weight_length.
    fold total.
    destruct (Z.eq_dec total 0) as [E|E].
    - assert (pages = 1%Z) as Hone.
      { subst pages. rewrite E. rewrite Z.div_small by lia. reflexivity. }
      rewrite Hone, E. lia.
    - specialize (Hlow ltac:(lia)). nia. }
  exists total, (Z.min page pages), pages,
         (paginate (Z.min page pages) size (order_by_weight query)).
  split; [reflexivity|]. split; [reflexivity|].
  split; [lia|]. split; [lia|]. split; [lia|]. split; [exact Hup|].
  split; [exact Hlow|]. split; [exact Hlen|].
  split.
  - intros E. rewrite E in Hlen. simpl in Hlen.
    destruct (Z.eq_dec total 0) as [E0|E0]; [exact E0|].
    specialize (Hlow ltac:(lia)). nia.
  - intros E. rewrite E in Hlen.
    destruct (paginate (Z.min page pages) size (order_by_weight query));
      [reflexivity|]. simpl List.length in Hlen. nia.
Qed.

Lemma listing_header_witness :
  exists total page pages shown,
    listing sample_rows (lit "chatA") 5 1 = Listing total page pages shown
    /\ (1 <= page <= pages)%Z /\ (page <= 5)%Z.
Proof.
  destruct (@listing_header sample_rows (lit "chatA") 5 1)
    as (total & page & pages & shown & E & _ & Hp & Hle & _); [lia|lia|].
  exists total, page, pages, shown. auto.
Defined.

(** X18. The rows of a page.  Every row shown is a row of the table and of
    the target chat, and the rows are shown in the order of the query: by
    weight, highest first, and among rows of equal weight by activity time,
    latest first. *)
Theorem listing_rows_ordered (rows : list Expression) (chat : text)
    (page size : Z) :
  let shown := listed_rows (listing rows chat page size) in
  (forall e, In e shown -> In e rows /\ chat_id e = chat)
  /\ StronglySorted before shown
  /\ StronglySorted (fun a b => count b <= count a) shown.
Proof.
  intros shown. subst shown. rewrite listing_rows_eq.
  set (query := filter (fun e => text_eqb (chat_id e) chat) rows).
  assert (Hs : StronglySorted before
                 (paginate (Z.min page (Z.max 1
                    ((Z.of_nat (List.length query) + size - 1) / size)))
                    size (order_by_weight query))).
  { unfold paginate. apply sorted_firstn. apply sorted_skipn.
    apply order_by_weight_sorted. }
  split; [|split].
  - intros e He. apply in_paginate in He.
    apply (Permutation_in _ (Permutation_sym (order_by_weight_perm query))) in He.
    apply filter_chat. exact He.
  - exact Hs.
  - eapply sorted_impl; [|exact Hs]. apply before_weight.
Qed.

Lemma listing_rows_ordered_witness :
  let shown := listed_rows (listing sample_rows (lit "chatA") 1 10) in
  (forall e, In e shown -> In e sample_rows /\ chat_id e = lit "chatA")
  /\ StronglySorted before shown
  /\ StronglySorted (fun a b => count b <= count a) shown.
Proof. exact (@listing_rows_ordered sample_rows (lit "chatA") 1 10). Defined.

(** X19. The pages of a chat cover its rows.  For a size of at least 1,
    the pages 1 to the number of pages, one after the other, are the rows of
    the target chat in the order of the query, each row once: paging drops
    no row and shows none twice.  (The query gives rows that are equal on
    both keys in row order, on every page.) *)
Theorem listing_pages_cover (rows : list Expression) (chat : text) (size : Z) :
  (1 <= size)%Z ->
  let query := filter (fun e => text_eqb (chat_id e) chat) rows in
  let pages := Z.max 1 ((Z.of_nat (List.length query) + size - 1) / size) in
  flat_map (fun p => listed_rows (listing rows chat (Z.of_nat p) size))
           (seq 1 (Z.to_nat pages))
  = order_by_weight query
  /\ Permutation query (order_by_weight query).
Proof.
  intros Hs query pages. split; [|apply order_by_weight_perm].
  assert (Ht : (0 <= Z.of_nat (List.length query))%Z) by lia.
  destruct (@pages_enough (Z.of_nat (List.length query)) size Ht Hs) as [Hup _].
  fold pages in Hup.
  rewrite (@flat_map_same _ _ _
             (fun p => firstn (Z.to_nat size)
                         (skipn ((p - 1) * Z.to_nat size) (order_by_weight query)))).
  - rewrite chunks_cover. apply firstn_all2.
    rewrite order_by_weight_length. nia.
  - intros p Hp. apply in_seq in Hp. rewrite listing_rows_eq.
    fold query. fold pages. unfold paginate.
    replace (Z.min (Z.of_nat p) pages) with (Z.of_nat p) by lia.
    f_equal. f_equal. nia.
Qed.

Lemma listing_pages_cover_witness :
  let query := filter (fun e => text_eqb (chat_id e) (lit "chatA")) sample_rows in
  let pages := Z.max 1 ((Z.of_nat (List.length query) + 1 - 1) / 1) in
  flat_map (fun p => listed_rows (listing sample_rows (lit "chatA") (Z.of_nat p) 1))
           (seq 1 (Z.to_nat pages))
  = order_by_weight query
  /\ Permutation query (order_by_weight query).
Proof. apply (@listing_pages_cover sample_rows (lit "chatA") 1). lia. Defined.

(** ** One command for a line *)

Lemma ascii_letter_no_digit (h : Host) (l x : N) :
  ascii_letter_class l = true -> ci_char l x = true ->
  is_decimal h x = false /\ is_space x = false.
Proof.
  intros Hl Hx. apply ci_char_class in Hx.
  unfold ascii_letter_class in Hl. rewrite forallb_forall in Hl.
  specialize (Hl x Hx). apply andb_true_iff in Hl. destruct Hl as [Hl Hs].
  apply andb_true_iff in Hl. destruct Hl as [Hd Ha].
  split.
  - unfold is_decimal, decimal_value.
    destruct (is_ascii_digit x); [discriminate|]. rewrite Ha. reflexivity.
  - unfold not_space in Hs. destruct (is_space x); [discriminate|reflexivity].
Qed.

Lemma head_apart_sound (h : Host) (a b : HeadChar) (x : N) :
  head_apart a b = true ->
  head_matches h a x = true -> head_matches h b x = true -> False.
Proof.
  destruct a as [l1| |], b as [l2| |]; cbn [head_apart head_matches];
    try discriminate.
  - intros H H1 H2. apply ci_char_class in H1, H2.
    rewrite forallb_forall in H. specialize (H x H1).
    apply negb_true_iff in H.
    assert (existsb (N.eqb x) (ci_class l2) = true); [|congruence].
    apply existsb_exists. exists x. split; [exact H2|apply N.eqb_refl].
  - intros H H1 H2. destruct (@ascii_letter_no_digit h l1 x H H1). congruence.
  - intros H H1 H2. destruct (@ascii_letter_no_digit h l2 x H H2). congruence.
Qed.

Lemma first_not_space (h : Host) (k : CommandKind) (a : N) :
  digits_not_spaces h ->
  head_matches h (fst (head_of k)) a = true -> is_space a = false.
Proof.
  intros Hh. destruct k; cbn [head_of fst head_matches]; intros H.
  all: try (eapply decimal_not_space; eassumption).
  all: refine (proj2 (@ascii_letter_no_digit h _ a _ H)); reflexivity.
Qed.

Lemma word_head (l1 l2 : N) (w : text) (r : regex) (t rest : text)
    (c c' : caps) :
  denotes (Seq (Word (l1 :: l2 :: w)) r) t rest c c' ->
  exists x y t', t = x :: y :: t' /\ ci_char l1 x = true /\ ci_char l2 y = true.
Proof.
  intros (s1 & s2 & c1 & -> & H & _).
  apply word_chars in H. destruct H as [_ H].
  inversion H as [|? x ? s1' Hx H']; subst.
  inversion H' as [|? y ? s1'' Hy _]; subst.
  exists x, y, (s1'' ++ s2). auto.
Qed.

Lemma line_head (h : Host) (k : CommandKind) (tail : regex) (s rest : text)
    (c c' : caps) :
  (forall t r a b, denotes tail t r a b ->
     exists x y t', t = x :: y :: t'
                    /\ head_matches h (fst (head_of k)) x = true
                    /\ head_matches h (snd (head_of k)) y = true) ->
  denotes (Seq (Word (lit "/")) (Seq keyword (Seq ws tail))) s rest c c' ->
  command_head h k (s ++ rest).
Proof.
  intros Htail (s0 & t0 & c0 & -> & H0 & s1 & t1 & c1 & -> & H1
                & s2 & t2 & c2 & -> & H2 & H3).
  apply word_chars in H0. destruct H0 as [-> H0].
  inversion H0 as [|l x l' s0' Hx Hnil]; subst. inversion Hnil; subst.
  apply slash_only in Hx. subst x.
  apply keyword_den in H1. destruct H1 as [-> Hkw].
  apply plus_chr in H2. destruct H2 as [-> (z & sp & -> & Hz & Hsp)].
  destruct (Htail _ _ _ _ H3) as (x & y & t' & -> & Hx & Hy).
  exists s1, z, sp, x, y, (t' ++ rest).
  split; [|repeat split; try assumption; constructor; assumption].
  simpl. repeat (rewrite <- ?app_assoc; simpl; f_equal).
Qed.

Lemma pattern_head (h : Host) (k : CommandKind) (s rest : text) (c c' : caps) :
  denotes (command_pattern h k) s rest c c' -> command_head h k (s ++ rest).
Proof.
  destruct k; cbn [command_pattern]; apply line_head; intros t r a b H.
  - exact (word_head H).
  - exact (word_head H).
  - exact (word_head H).
  - destruct H as (s1 & s2 & c1 & -> & (c1' & H1 & _) & s3 & s4 & c2 & -> & H2 & _).
    apply plus_chr in H1. destruct H1 as [_ (d & ident & -> & Hd & _)].
    apply plus_chr in H2. destruct H2 as [_ (z & sp & -> & _)].
    destruct ident as [|i ident].
    + exists d, z, (sp ++ s4). simpl. auto.
    + exists d, i, (ident ++ (z :: sp) ++ s4). simpl. auto.
  - exact (word_head H).
  - exact (word_head H).
  - exact (word_head H).
Qed.

Lemma heads_agree (h : Host) (k1 k2 : CommandKind) (t : text) :
  digits_not_spaces h ->
  command_head h k1 t -> command_head h k2 t ->
  exists a b,
    head_matches h (fst (head_of k1)) a = true
    /\ head_matches h (fst (head_of k2)) a = true
    /\ head_matches h (snd (head_of k1)) b = true
    /\ head_matches h (snd (head_of k2)) b = true.
Proof.
  intros Hh (kw & z & sp & a & b & after & E & Hkw & Hsp & Ha & Hb)
            (kw' & z' & sp' & a' & b' & after' & E' & Hkw' & Hsp' & Ha' & Hb').
  rewrite E in E'. injection E' as E'. simpl in E'.
  inversion Hsp as [|? ? Hz Hspt]; inversion Hsp' as [|? ? Hz' Hspt']; subst.
  apply keyword_not_space in Hkw, Hkw'.
  apply (@run_unique not_space) in E'; try assumption;
    try (unfold not_space; rewrite ?Hz, ?Hz'; reflexivity).
  destruct E' as (_ & _ & E1).
  apply (@run_unique is_space) in E1; try assumption;
    try (eapply first_not_space; eassumption).
  destruct E1 as (_ & <- & E2). injection E2 as <- _.
  exists a, b. auto.
Qed.

Lemma kinds_apart (k1 k2 : CommandKind) :
  k1 <> k2 ->
  head_apart (fst (head_of k1)) (fst (head_of k2))
  || head_apart (snd (head_of k1)) (snd (head_of k2)) = true.
Proof.
  destruct k1, k2; intros H; try reflexivity; exfalso; apply H; reflexivity.
Qed.

(** X20. A line belongs to one command.  Of the seven commands the plugin
    registers, add, list, del, the weight command, review, learn and msg,
    at most one has a pattern that matches a given line: a line matched by
    the pattern of one command is matched by the pattern of no other.
    (Assuming, of the Unicode table, that no decimal digit is a white
    space.) *)
Theorem one_command_per_line (h : Host) (k1 k2 : CommandKind) (t : text)
    (m1 : caps) :
  digits_not_spaces h ->
  re_match (command_pattern h k1) t = Some m1 ->
  k2 <> k1 ->
  re_match (command_pattern h k2) t = None.
Proof.
  intros Hh H1 Hk.
  destruct (re_match (command_pattern h k2) t) as [m2|] eqn:H2; [|reflexivity].
  exfalso.
  apply re_match_sound in H1, H2.
  destruct H1 as (s1 & r1 & E1 & D1), H2 as (s2 & r2 & E2 & D2).
  apply pattern_head in D1, D2. rewrite <- E1 in D1. rewrite <- E2 in D2.
  destruct (heads_agree Hh D1 D2) as (a & b & A1 & A2 & B1 & B2).
  assert (Hne : k1 <> k2) by congruence.
  pose proof (kinds_apart Hne) as Hap. apply orb_true_iff in Hap.
  destruct Hap as [Hap|Hap]; eapply head_apart_sound; eassumption.
Qed.

Lemma one_command_per_line_witness :
  re_match (command_pattern plain_host KLearn) (lit "/expr list page=2") = None.
Proof.
  eapply (@one_command_per_line plain_host KList KLearn).
  - apply plain_host_digits.
  - vm_compute. reflexivity.
  - discriminate.
Defined.
